(** * The standardized data collection engine ([src/utils/dataEngine.js])

    A shallow embedding of the engine's calculation functions, field
    configuration classifier, indicator compiler and completion scorers,
    followed by the properties established about them. *)

From Stdlib Require Import ZArith QArith Qround Qabs Qpower Qreduction.
From Stdlib Require Import List Bool Ascii String Lia Lqa.
From Stdlib Require Import DecimalString DecimalNat.
From Stdlib Require Import Permutation.
Import ListNotations.

Set Implicit Arguments.

(** ** JavaScript numbers

    A JavaScript number is an IEEE 754 binary64 value.  The finite non-zero
    ones are carried by the rational they denote (in lowest terms); the two
    zeros and the two infinities keep their sign. *)

Inductive number : Type :=
| NaN
| Inf (neg : bool)
| Zero (neg : bool)
| Fin (q : Q).

Module Num.

Local Open Scope Q_scope.

Definition pow2 (e : Z) : Q := (2 # 1) ^ e.

(** [floor (log2 a)] for a positive rational [a]. *)
Definition Qlog2 (a : Q) : Z :=
  let k := (Z.log2 (Qnum a) - Z.log2 (Zpos (Qden a)))%Z in
  if Qle_bool (pow2 k) a then k else (k - 1)%Z.

(** Nearest integer, a tie going to the even one. *)
Definition rne (z : Q) : Z :=
  let f := Qfloor z in
  match Qcompare (z - inject_Z f) (1 # 2) with
  | Lt => f
  | Gt => (f + 1)%Z
  | Eq => if Z.even f then f else (f + 1)%Z
  end.

Definition Qneg (x : Q) : bool := negb (Qle_bool 0 x).

(** "The Number value for x" of ECMA-262 (6.1.6.1): the binary64 value
    nearest to the real [x], a tie going to the even significand, with
    magnitudes of [2^1024] and above becoming infinite.  [zneg] is the sign
    given to an exact zero. *)
Definition number_value (zneg : bool) (x : Q) : number :=
  if Qeq_bool x 0 then Zero zneg
  else
    let a := Qabs x in
    let e := Z.max (Qlog2 a - 52) (-1074) in
    let m := rne (a / pow2 e) in
    let r := inject_Z m * pow2 e in
    if (m =? 0)%Z then Zero (Qneg x)
    else if Qle_bool (pow2 1024) r then Inf (Qneg x)
    else Fin (Qred (if Qneg x then - r else r)).

(** A counter that was incremented [n] times from 0.  Below [2^53] every
    increment is exact, and no array or object has that many entries. *)
Definition of_count (n : nat) : number :=
  match n with
  | O => Zero false
  | S _ => Fin (Z.of_nat n # 1)
  end.

(** An integer literal of the source; each of them is a binary64 value. *)
Definition lit (z : Z) : number :=
  if (z =? 0)%Z then Zero false else Fin (z # 1).

Definition sign (x : number) : bool :=
  match x with
  | NaN => false
  | Inf s | Zero s => s
  | Fin q => Qneg q
  end.

Definition neg (x : number) : number :=
  match x with
  | NaN => NaN
  | Inf s => Inf (negb s)
  | Zero s => Zero (negb s)
  | Fin q => Fin (Qred (- q))
  end.

(** [x * y] *)
Definition mul (x y : number) : number :=
  match x, y with
  | NaN, _ | _, NaN => NaN
  | Inf _, Zero _ | Zero _, Inf _ => NaN
  | Inf s, _ | _, Inf s => Inf (xorb (sign x) (sign y))
  | Zero _, _ | _, Zero _ => Zero (xorb (sign x) (sign y))
  | Fin p, Fin q => number_value false (p * q)
  end.

(** [x / y] *)
Definition div (x y : number) : number :=
  match x, y with
  | NaN, _ | _, NaN => NaN
  | Inf _, Inf _ => NaN
  | Zero _, Zero _ => NaN
  | Inf _, _ => Inf (xorb (sign x) (sign y))
  | _, Inf _ => Zero (xorb (sign x) (sign y))
  | Zero _, _ => Zero (xorb (sign x) (sign y))
  | _, Zero _ => Inf (xorb (sign x) (sign y))
  | Fin p, Fin q => number_value false (p / q)
  end.

(** [x + y] *)
Definition add (x y : number) : number :=
  match x, y with
  | NaN, _ | _, NaN => NaN
  | Inf s, Inf s' => if Bool.eqb s s' then Inf s else NaN
  | Inf s, _ | _, Inf s => Inf s
  | Zero s, Zero s' => Zero (s && s')
  | Zero _, Fin q | Fin q, Zero _ => Fin q
  | Fin p, Fin q => number_value false (p + q)
  end.

(** [x - y] *)
Definition sub (x y : number) : number := add x (neg y).

(** [Math.round(x)]: the integer nearest to [x], a tie going toward
    +infinity; the result is a zero of the sign of [x] when it rounds to
    zero. *)
Definition round (x : number) : number :=
  match x with
  | Fin q =>
      let n := Qfloor (q + (1 # 2)) in
      if (n =? 0)%Z then Zero (Qneg q) else Fin (n # 1)
  | _ => x
  end.

(** [isNaN(x)] on a number *)
Definition isNaN (x : number) : bool :=
  match x with NaN => true | _ => false end.

(** [x === 0] *)
Definition is_zero (x : number) : bool :=
  match x with Zero _ => true | _ => false end.

(** ToBoolean on a number: false for NaN and the zeros. *)
Definition truthy (x : number) : bool :=
  match x with NaN | Zero _ => false | _ => true end.

End Num.

(** A possibly-missing numeric argument of a calculation function. *)
Inductive numeric : Type :=
| NUndefined
| NNull
| NNum (x : number).

(** ToNumber *)
Definition to_number (v : numeric) : number :=
  match v with
  | NUndefined => NaN
  | NNull => Zero false
  | NNum x => x
  end.

(** ToBoolean *)
Definition numeric_truthy (v : numeric) : bool :=
  match v with
  | NNum x => Num.truthy x
  | _ => false
  end.

(** [v === 0] *)
Definition numeric_is_zero (v : numeric) : bool :=
  match v with
  | NNum x => Num.is_zero x
  | _ => false
  end.

(** ** Automated calculation engine *)

Module Calculations.

Definition hundred : number := Num.lit 100.

Definition turnoverRate (staffLeft averageStaff : numeric) : number :=
  if negb (numeric_truthy averageStaff) || numeric_is_zero averageStaff
  then Num.lit 0
  else Num.round
         (Num.mul (Num.div (to_number staffLeft) (to_number averageStaff))
                  hundred).

Definition fundingRatio (nonCore core : numeric) : number :=
  if negb (numeric_truthy core) || numeric_is_zero core
  then Num.lit 0
  else Num.div
         (Num.round
            (Num.mul (Num.div (to_number nonCore) (to_number core)) hundred))
         hundred.

Definition corePercentage (core total : numeric) : number :=
  if negb (numeric_truthy total) || numeric_is_zero total
  then Num.lit 0
  else Num.round
         (Num.mul (Num.div (to_number core) (to_number total)) hundred).

(** [v != null && !isNaN(v)] *)
Definition valid (v : numeric) : bool :=
  match v with
  | NNum x => negb (Num.isNaN x)
  | _ => false
  end.

Definition average (values : list numeric) : number :=
  let validValues := filter valid values in
  if (List.length validValues =? 0)%nat then Num.lit 0
  else
    Num.div
      (Num.round
         (Num.mul
            (Num.div
               (fold_left (fun sum val => Num.add sum (to_number val))
                          validValues (Num.lit 0))
               (Num.of_count (List.length validValues)))
            hundred))
      hundred.

Definition growthRate (current previous : numeric) : number :=
  if negb (numeric_truthy previous) || numeric_is_zero previous
  then Num.lit 0
  else Num.round
         (Num.mul
            (Num.div (Num.sub (to_number current) (to_number previous))
                     (to_number previous))
            hundred).

End Calculations.

(** ** JavaScript strings

    A string is its sequence of UTF-16 code units. *)

Definition jsstring : Type := list N.

(** A literal of the source, all of whose characters are ASCII. *)
Definition str (s : string) : jsstring :=
  map N_of_ascii (list_ascii_of_string s).

Module Str.

Definition eqb (s t : jsstring) : bool :=
  if list_eq_dec N.eq_dec s t then true else false.

(** [s.startsWith(p)] *)
Fixpoint startsWith (s p : jsstring) : bool :=
  match p, s with
  | [], _ => true
  | _ :: _, [] => false
  | c :: p', d :: s' => (c =? d)%N && startsWith s' p'
  end.

(** [s.includes(p)] *)
Fixpoint includes (s p : jsstring) : bool :=
  startsWith s p ||
  match s with
  | [] => false
  | _ :: s' => includes s' p
  end.

(** Case mapping of one code unit: the Basic Latin capitals, and the
    Kelvin sign U+212A, the one other code unit whose small letter is a
    Basic Latin one. *)
Definition lower_unit (c : N) : N :=
  if ((65 <=? c) && (c <=? 90))%N then (c + 32)%N
  else if (c =? 8490)%N then 107%N
  else c.

(** [s.toLowerCase()].  The other code units are left as they are, where
    the code maps a capital outside Basic Latin to its small letter, also
    outside Basic Latin (U+0130 to i followed by U+0307).  The keywords the
    engine looks for are Basic Latin and none ends in i, so every keyword
    test is the code's on every text; the lower-cased text itself is the
    code's on the texts without such capitals, which matters for the value
    of an extracted option only. *)
Definition toLowerCase (s : jsstring) : jsstring := map lower_unit s.

(** WhiteSpace and LineTerminator code units: what [trim] strips and what
    [\s] matches. *)
Definition is_space (c : N) : bool :=
  ((9 <=? c) && (c <=? 13) || (c =? 32) || (c =? 160) || (c =? 5760)
   || (8192 <=? c) && (c <=? 8202) || (c =? 8232) || (c =? 8233)
   || (c =? 8239) || (c =? 8287) || (c =? 12288) || (c =? 65279))%N.

Fixpoint trimStart (s : jsstring) : jsstring :=
  match s with
  | c :: s' => if is_space c then trimStart s' else s
  | [] => []
  end.

(** [s.trim()] *)
Definition trim (s : jsstring) : jsstring :=
  rev (trimStart (rev (trimStart s))).

(** [s.split(c)] for a separator of one code unit. *)
Fixpoint split (c : N) (s : jsstring) : list jsstring :=
  match s with
  | [] => [[]]
  | d :: s' =>
      if (d =? c)%N then [] :: split c s'
      else match split c s' with
           | l :: ls => (d :: l) :: ls
           | [] => [[d]]
           end
  end.

(** [s.substring(n)] *)
Definition substring (n : nat) (s : jsstring) : jsstring := skipn n s.

(** [l.join(sep)] *)
Fixpoint join (sep : jsstring) (l : list jsstring) : jsstring :=
  match l with
  | [] => []
  | [s] => s
  | s :: l' => s ++ sep ++ join sep l'
  end.

(** [s.replace(/\s+/g, '_')] *)
Fixpoint replace_spaces (in_run : bool) (s : jsstring) : jsstring :=
  match s with
  | [] => []
  | c :: s' =>
      if is_space c
      then if in_run then replace_spaces true s'
           else 95%N :: replace_spaces true s'
      else c :: replace_spaces false s'
  end.

Definition is_lower_alnum (c : N) : bool :=
  ((97 <=? c) && (c <=? 122) || (48 <=? c) && (c <=? 57))%N.

(** [s.replace(/[^a-z0-9]/g, '_')] *)
Definition replace_non_alnum (s : jsstring) : jsstring :=
  map (fun c => if is_lower_alnum c then c else 95%N) s.

(** [s.replace(/_+/g, '_')] *)
Fixpoint collapse_underscores (in_run : bool) (s : jsstring) : jsstring :=
  match s with
  | [] => []
  | c :: s' =>
      if (c =? 95)%N
      then if in_run then collapse_underscores true s'
           else 95%N :: collapse_underscores true s'
      else c :: collapse_underscores false s'
  end.

(** The decimal numeral of an array index, as a template literal prints
    it. *)
Definition of_index (n : nat) : jsstring :=
  str (NilEmpty.string_of_uint (Nat.to_uint n)).

End Str.

(** The checkbox glyph U+2610, one code unit. *)
Definition glyph : N := 9744%N.

(** ** Field types *)

Module FieldTypes.
Definition NUMBER : jsstring := str "number".
Definition CURRENCY : jsstring := str "currency".
Definition PERCENTAGE : jsstring := str "percentage".
Definition SCALE : jsstring := str "scale".
Definition RADIO : jsstring := str "radio".
Definition CHECKBOX : jsstring := str "checkbox".
Definition DROPDOWN : jsstring := str "dropdown".
Definition CALCULATED : jsstring := str "calculated".
Definition RATIO : jsstring := str "ratio".
Definition TEXT_SHORT : jsstring := str "text_short".
Definition DATE : jsstring := str "date".
Definition PERIOD : jsstring := str "period".
End FieldTypes.

(** ** Standardized response libraries *)

Inductive optvalue : Type :=
| OStr (s : jsstring)
| ONum (x : number).

Record OptionItem : Type := mkOption {
  opt_value : optvalue;
  opt_label : jsstring
}.

Definition sopt (v l : string) : OptionItem := mkOption (OStr (str v)) (str l).
Definition nopt (v : Z) (l : string) : OptionItem :=
  mkOption (ONum (Num.lit v)) (str l).

Module StandardOptions.

Definition difficulty : list OptionItem :=
  [ sopt "not_difficult" "Not difficult";
    sopt "somewhat_difficult" "Somewhat difficult";
    sopt "very_difficult" "Very difficult";
    sopt "not_applicable" "Not applicable" ].

Definition yesNoNA : list OptionItem :=
  [ sopt "yes" "Yes"; sopt "no" "No";
    sopt "not_applicable" "Not applicable" ].

Definition yesNo : list OptionItem :=
  [ sopt "yes" "Yes"; sopt "no" "No" ].

Definition satisfactionScale : list OptionItem :=
  [ nopt 1 "Very Dissatisfied"; nopt 2 "Dissatisfied"; nopt 3 "Neutral";
    nopt 4 "Satisfied"; nopt 5 "Very Satisfied" ].

Definition employeeBenefits : list OptionItem :=
  [ sopt "health_dental" "Health and/or dental insurance";
    sopt "eap" "Employee Assistance Program (EAP)";
    sopt "mental_health_days" "Paid mental health or self-care days";
    sopt "rrsp_matching" "RRSP matching or retirement savings program";
    sopt "professional_development"
         "Paid professional development time or funds";
    sopt "flexible_schedule" "Flexible work schedule";
    sopt "remote_work" "Remote work options";
    sopt "wellness_program" "Wellness program or gym membership";
    sopt "extended_leave" "Extended parental/family leave";
    sopt "other" "Other (specify)" ].

Definition boardCompensation : list OptionItem :=
  [ sopt "per_meeting" "Per-meeting stipend";
    sopt "monthly" "Monthly honorarium";
    sopt "annual" "Annual honorarium";
    sopt "travel" "Travel reimbursement";
    sopt "childcare" "Childcare reimbursement";
    sopt "gifts" "Gift cards or tokens";
    sopt "other" "Other (specify)" ].

Definition collaborationTypes : list OptionItem :=
  [ sopt "co_programming" "Co-delivered programming or services";
    sopt "joint_funding" "Joint funding proposals or reports";
    sopt "shared_advocacy" "Shared advocacy or policy initiatives";
    sopt "events" "Attended shared events or working groups";
    sopt "coordination" "Regular coordination or planning";
    sopt "resource_sharing" "Resource sharing (space, staff, tools)";
    sopt "other" "Other (specify)" ].

Definition disclosureChannels : list OptionItem :=
  [ sopt "annual_report" "Annual report";
    sopt "agm_documents" "AGM documents";
    sopt "audited_financials" "Audited financials";
    sopt "website" "Website";
    sopt "other" "Other (specify)" ].

Definition auditTypes : list OptionItem :=
  [ sopt "full_audit" "Full financial audit (by external auditor)";
    sopt "review_engagement"
         "Financial review engagement (by external accountant)";
    sopt "internal_review"
         "Internal financial review by board or finance committee";
    sopt "other" "Other (specify)" ].

End StandardOptions.

(** ** Validation rules, by reference

    A configuration holds references to the rule functions; only their
    identity is ever inspected. *)

Module ValidationRules.

Inductive rule : Type := percentage | currency | staffCount | required | scale.

Definition same (a b : rule) : bool :=
  match a, b with
  | percentage, percentage | currency, currency | staffCount, staffCount
  | required, required | scale, scale => true
  | _, _ => false
  end.

End ValidationRules.

(** ** Field configuration factory *)

(** The formula closures of the calculated groups, by name. *)
Inductive formula : Type :=
| averageStaff_formula
| turnoverRate_formula
| totalFunding_formula
| corePercentage_formula
| fundingRatio_formula.

(** What a formula computes from the sibling values [data]. *)
Definition apply_formula (f : formula) (data : jsstring -> numeric) : number :=
  match f with
  | averageStaff_formula =>
      Num.round
        (Num.div (Num.add (to_number (data (str "staffAtStart")))
                          (to_number (data (str "staffAtEnd"))))
                 (Num.lit 2))
  | turnoverRate_formula =>
      Calculations.turnoverRate (data (str "staffLeft"))
                                (data (str "averageStaff"))
  | totalFunding_formula =>
      Num.add (to_number (data (str "coreFunding")))
              (to_number (data (str "projectFunding")))
  | corePercentage_formula =>
      Calculations.corePercentage (data (str "coreFunding"))
                                  (data (str "totalFunding"))
  | fundingRatio_formula =>
      Calculations.fundingRatio (data (str "projectFunding"))
                                (data (str "coreFunding"))
  end.

(** An entry of [fieldConfig.fields]. *)
Record FieldSpec : Type := mkFieldSpec {
  fs_key : jsstring;
  fs_type : jsstring;
  fs_label : jsstring;
  fs_options : option (list OptionItem);
  fs_validation : option (list ValidationRules.rule);
  fs_placeholder : option jsstring;
  fs_dependsOn : option jsstring;
  fs_dependsOnValue : option jsstring
}.

(** An entry of [fieldConfig.calculations]. *)
Record CalcSpec : Type := mkCalcSpec {
  cs_key : jsstring;
  cs_formula : formula;
  cs_label : jsstring;
  cs_format : option jsstring
}.

(** The object [createFieldConfig] returns; an absent property is [None]. *)
Record FieldConfig : Type := mkFieldConfig {
  type : jsstring;
  fields : list FieldSpec;   (* empty when the property is absent *)
  calculations : option (list CalcSpec);
  label : option jsstring;
  options : option (list OptionItem);
  scale : option (list OptionItem);
  validation : option (list ValidationRules.rule);
  placeholder : option jsstring;
  maxLength : option Z;
  warning : option jsstring
}.

(** A configuration of a single field. *)
Definition simple_config (ty : jsstring) (lbl : option jsstring)
    (opts scl : option (list OptionItem)) (v : list ValidationRules.rule)
    (ph : option jsstring) : FieldConfig :=
  {| type := ty; fields := []; calculations := None; label := lbl;
     options := opts; scale := scl; validation := Some v; placeholder := ph;
     maxLength := None; warning := None |}.

Definition group_config (ty : jsstring) (fs : list FieldSpec)
    (cs : option (list CalcSpec)) : FieldConfig :=
  {| type := ty; fields := fs; calculations := cs; label := None;
     options := None; scale := None; validation := None; placeholder := None;
     maxLength := None; warning := None |}.

Definition other_option : OptionItem := sopt "other" "Other (specify)".

(** Extract checkbox options from measurement method text. *)
Definition extractCheckboxOptions (measurementMethod : option jsstring)
  : list OptionItem :=
  match measurementMethod with
  | None | Some [] => []
  | Some text =>
      let lines := Str.split 10%N text in
      let options :=
        fold_left
          (fun options line =>
             let trimmedLine := Str.trim line in
             if Str.startsWith trimmedLine [glyph] then
               let optionText := Str.trim (Str.substring 2 trimmedLine) in
               if negb (Str.eqb optionText [])
                  && negb (Str.eqb optionText (str "Other (please specify)"))
               then options ++
                    [ mkOption
                        (OStr (Str.replace_spaces false
                                 (Str.toLowerCase optionText)))
                        optionText ]
               else options
             else options)
          lines [] in
      if (0 <? List.length options)%nat then options ++ [other_option]
      else options
  end.

(** The text up to and including the first question mark, and what follows
    it: how [[^?]*\?] matches. *)
Fixpoint upto_question_mark (s : jsstring) : option (jsstring * jsstring) :=
  match s with
  | [] => None
  | c :: s' =>
      if (c =? 63)%N then Some ([c], s')
      else match upto_question_mark s' with
           | Some (q, rest) => Some (c :: q, rest)
           | None => None
           end
  end.

(** Extract the Yes/No question: [/^([^?]*\?)\s*\(Yes\/No\)/]. *)
Definition extractYesNoQuestion (method : jsstring) : jsstring :=
  match upto_question_mark method with
  | Some (question, rest) =>
      if Str.startsWith (Str.trimStart rest) (str "(Yes/No)") then question
      else str "Does your organization have this?"
  | None => str "Does your organization have this?"
  end.

(** A match of [lead[^?]*\?] at the head of [s]. *)
Definition match_question (lead s : jsstring) : option jsstring :=
  if Str.startsWith s lead then
    match upto_question_mark (skipn (List.length lead) s) with
    | Some (q, _) => Some (lead ++ q)
    | None => None
    end
  else None.

(** The leftmost match of
    [/Which of the following[^?]*\?|What[^?]*\?/], the first alternative
    tried first at each position. *)
Fixpoint match_checkbox_question (s : jsstring) : option jsstring :=
  match match_question (str "Which of the following") s with
  | Some m => Some m
  | None =>
      match match_question (str "What") s with
      | Some m => Some m
      | None =>
          match s with
          | [] => None
          | _ :: s' => match_checkbox_question s'
          end
      end
  end.

Definition extractCheckboxQuestion (method : jsstring) : jsstring :=
  match match_checkbox_question method with
  | Some m => m
  | None => str "Which of the following apply?"
  end.

(** Extract checkbox options from method text (enhanced).  The loop over
    [/G\s*([^G]+?)(?=G|$)/g] (G the checkbox glyph) visits, after the first glyph, each
    stretch of text up to the next glyph or the end; the captured group
    trims to the trimmed stretch, and an empty stretch gives no match. *)
Definition extractCheckboxOptionsFromMethod (method : jsstring)
  : list OptionItem :=
  let standardOptions := extractCheckboxOptions (Some method) in
  if (0 <? List.length standardOptions)%nat then standardOptions
  else
    let options :=
      fold_left
        (fun options segment =>
           let optionText := Str.trim segment in
           if negb (Str.eqb optionText [])
              && negb (Str.includes optionText (str "Other (please specify)"))
           then options ++
                [ mkOption
                    (OStr (Str.collapse_underscores false
                             (Str.replace_non_alnum
                                (Str.toLowerCase optionText))))
                    optionText ]
           else options)
        (tl (Str.split glyph method)) [] in
    let options :=
      if (0 <? List.length options)%nat then options ++ [other_option]
      else options in
    if (List.length options =? 0)%nat
       && (Str.includes (Str.toLowerCase method) (str "benefit")
           || Str.includes (Str.toLowerCase method) (str "wellness"))
    then StandardOptions.employeeBenefits
    else if (0 <? List.length options)%nat then options
         else StandardOptions.collaborationTypes.

Definition number_spec (key lbl ph : string) : FieldSpec :=
  {| fs_key := str key; fs_type := FieldTypes.NUMBER; fs_label := str lbl;
     fs_options := None;
     fs_validation :=
       Some [ValidationRules.required; ValidationRules.staffCount];
     fs_placeholder := Some (str ph);
     fs_dependsOn := None; fs_dependsOnValue := None |}.

Definition currency_spec (key lbl ph : string) : FieldSpec :=
  {| fs_key := str key; fs_type := FieldTypes.CURRENCY; fs_label := str lbl;
     fs_options := None;
     fs_validation :=
       Some [ValidationRules.required; ValidationRules.currency];
     fs_placeholder := Some (str ph);
     fs_dependsOn := None; fs_dependsOnValue := None |}.

(** Creates standardized field configurations based on indicator patterns.
    [measurementMethod] is [None] when the argument is undefined or null. *)
Definition createFieldConfig (indicatorName : jsstring)
    (measurementMethod : option jsstring) : FieldConfig :=
  let name := Str.toLowerCase indicatorName in
  let method :=
    match measurementMethod with
    | Some m => Str.toLowerCase m
    | None => []
    end in
  (* Staff turnover indicators *)
  if Str.includes name (str "turnover") || Str.includes name (str "retention")
  then
    group_config (str "calculated_group")
      [ number_spec "staffAtStart" "Staff count at period start" "e.g., 12";
        number_spec "staffAtEnd" "Staff count at period end" "e.g., 10";
        number_spec "staffLeft" "Number of staff who left during period"
                    "e.g., 3" ]
      (Some
         [ mkCalcSpec (str "averageStaff") averageStaff_formula
                      (str "Average staff count") None;
           mkCalcSpec (str "turnoverRate") turnoverRate_formula
                      (str "Turnover rate (%)") (Some (str "percentage")) ])
  (* Funding indicators *)
  else if Str.includes name (str "funding")
          && (Str.includes name (str "ratio")
              || Str.includes name (str "core"))
  then
    group_config (str "calculated_group")
      [ currency_spec "coreFunding" "Total core funding ($)" "e.g., 150000";
        currency_spec "projectFunding"
                      "Total project/program-specific funding ($)"
                      "e.g., 75000" ]
      (Some
         [ mkCalcSpec (str "totalFunding") totalFunding_formula
                      (str "Total funding ($)") (Some (str "currency"));
           mkCalcSpec (str "corePercentage") corePercentage_formula
                      (str "Core funding percentage (%)")
                      (Some (str "percentage"));
           mkCalcSpec (str "fundingRatio") fundingRatio_formula
                      (str "Funding leverage ratio") (Some (str "ratio")) ])
  (* Multi-part questions (like Universal Indicators) *)
  else if Str.includes method (str "(Yes/No)")
          && Str.includes method (str "Check all that apply")
  then
    group_config (str "multi_part")
      [ {| fs_key := str "hasProgram"; fs_type := FieldTypes.RADIO;
           fs_label := extractYesNoQuestion method;
           fs_options := Some StandardOptions.yesNo;
           fs_validation := Some [ValidationRules.required];
           fs_placeholder := None;
           fs_dependsOn := None; fs_dependsOnValue := None |};
        {| fs_key := str "details"; fs_type := FieldTypes.CHECKBOX;
           fs_label := extractCheckboxQuestion method;
           fs_options := Some (extractCheckboxOptionsFromMethod method);
           fs_validation := Some [ValidationRules.required];
           fs_placeholder := None;
           fs_dependsOn := Some (str "hasProgram");
           fs_dependsOnValue := Some (str "yes") |} ]
      None
  (* Employee wellness/benefits questions *)
  else if (Str.includes name (str "wellness")
           || Str.includes name (str "benefit"))
          && Str.includes method (str "Check all that apply")
  then
    simple_config FieldTypes.CHECKBOX None
      (Some StandardOptions.employeeBenefits) None
      [ValidationRules.required] None
  (* Yes/No questions *)
  else if Str.includes method (str "yes/no")
          || Str.includes method (str "(yes / no)")
          || Str.includes method (str "(Yes/No)")
  then
    simple_config FieldTypes.RADIO None (Some StandardOptions.yesNo) None
      [ValidationRules.required] None
  (* Checkbox questions *)
  else if Str.includes method (str "check all that apply")
          || Str.includes method [glyph]
  then
    let options := extractCheckboxOptions measurementMethod in
    simple_config FieldTypes.CHECKBOX None
      (Some (if (0 <? List.length options)%nat then options
             else StandardOptions.collaborationTypes))
      None [ValidationRules.required] None
  (* Difficulty scales *)
  else if Str.includes method (str "difficult")
          && Str.includes method (str "options:")
  then
    simple_config FieldTypes.RADIO None (Some StandardOptions.difficulty) None
      [ValidationRules.required] None
  (* Satisfaction scales *)
  else if Str.includes name (str "satisfaction")
          || Str.includes method (str "satisfied")
  then
    simple_config FieldTypes.SCALE None None
      (Some StandardOptions.satisfactionScale)
      [ValidationRules.required] None
  (* Board compensation *)
  else if Str.includes name (str "board")
          && Str.includes name (str "compensation")
  then
    simple_config FieldTypes.CHECKBOX None
      (Some StandardOptions.boardCompensation) None
      [ValidationRules.required] None
  (* Collaboration questions *)
  else if Str.includes name (str "collaboration")
          || Str.includes name (str "coalition")
  then
    if Str.includes method (str "how many")
    then
      simple_config FieldTypes.NUMBER
        (Some (str "Number of meetings/events attended")) None None
        [ValidationRules.required; ValidationRules.staffCount]
        (Some (str "e.g., 4"))
    else
      simple_config FieldTypes.CHECKBOX None
        (Some StandardOptions.collaborationTypes) None
        [ValidationRules.required] None
  (* Generic number input *)
  else if Str.includes method (str "how many")
          || Str.includes method (str "number of")
  then
    simple_config FieldTypes.NUMBER None None None
      [ValidationRules.required; ValidationRules.staffCount]
      (Some (str "Enter number"))
  (* Generic percentage *)
  else if Str.includes method (str "percentage")
          || Str.includes method (str "%")
  then
    simple_config FieldTypes.PERCENTAGE None None None
      [ValidationRules.required; ValidationRules.percentage]
      (Some (str "e.g., 25"))
  (* Fallback to short text (discouraged) *)
  else
    {| type := FieldTypes.TEXT_SHORT; fields := []; calculations := None;
       label := None; options := None; scale := None;
       validation := Some [ValidationRules.required];
       placeholder := Some (str "Brief response (max 100 characters)");
       maxLength := Some 100%Z;
       warning :=
         Some (str "Consider converting this to structured data for better comparability") |}.

(** ** Data quality scoring *)

(** A raw response value. *)
Inductive jsval : Type :=
| VUndefined
| VNull
| VBool (b : bool)
| VNum (x : number)
| VStr (s : jsstring)
| VObject.   (* an array or any other object *)

(** [v != null && v !== ''] *)
Definition answered (v : jsval) : bool :=
  match v with
  | VUndefined | VNull => false
  | VStr [] => false
  | _ => true
  end.

(** A response tagged with its field type ([None]: no string there). *)
Record Response : Type := mkResponse {
  value : jsval;
  rtype : option jsstring
}.

Record DataQuality : Type := mkDataQuality {
  completeness : number;
  standardization : number;
  overallScore : number
}.

Definition structured_types : list jsstring :=
  [ FieldTypes.NUMBER; FieldTypes.CURRENCY; FieldTypes.RADIO;
    FieldTypes.CHECKBOX; FieldTypes.SCALE; FieldTypes.CALCULATED ].

Definition is_structured (t : option jsstring) : bool :=
  match t with
  | Some t => existsb (Str.eqb t) structured_types
  | None => false
  end.

(** The three counters of [calculateDataQuality], in the order
    (totalFields, completedFields, standardizedFields). *)
Definition quality_step (acc : nat * nat * nat) (entry : jsstring * Response)
  : nat * nat * nat :=
  let '(totalFields, completedFields, standardizedFields) := acc in
  let response := snd entry in
  let totalFields := S totalFields in
  if answered (value response) then
    let completedFields := S completedFields in
    if is_structured (rtype response)
    then (totalFields, completedFields, S standardizedFields)
    else (totalFields, completedFields, standardizedFields)
  else (totalFields, completedFields, standardizedFields).

(** [Math.round((a / b) * 100)] on two counters *)
Definition percent (a b : nat) : number :=
  Num.round
    (Num.mul (Num.div (Num.of_count a) (Num.of_count b))
             Calculations.hundred).

(** [responses] is the list [Object.entries] enumerates. *)
Definition calculateDataQuality (responses : list (jsstring * Response))
  : DataQuality :=
  let '(totalFields, completedFields, standardizedFields) :=
    fold_left quality_step responses (O, O, O) in
  {| completeness :=
       if (0 <? totalFields)%nat then percent completedFields totalFields
       else Num.lit 0;
     standardization :=
       if (0 <? completedFields)%nat
       then percent standardizedFields completedFields
       else Num.lit 0;
     overallScore :=
       if (0 <? totalFields)%nat
       then Num.round
              (Num.mul
                 (Num.div
                    (Num.add
                       (Num.mul (Num.of_count completedFields)
                                (Num.number_value false (6 # 10)))
                       (Num.mul (Num.of_count standardizedFields)
                                (Num.number_value false (4 # 10))))
                    (Num.of_count totalFields))
                 Calculations.hundred)
       else Num.lit 0 |}.

(** ** Generation of standardized fields from CSV data *)

(** A parsed CSV row: its columns in the order [Object.keys] lists them,
    each holding a string. *)
Definition Row : Type := list (jsstring * jsstring).

Definition keys (row : Row) : list jsstring := map fst row.

Fixpoint lookup (k : jsstring) (row : Row) : option jsstring :=
  match row with
  | [] => None
  | (k', v) :: row' => if Str.eqb k k' then Some v else lookup k row'
  end.

(** [row[col]], where [col] is the outcome of a [find] over the headers: a
    [find] that found nothing gives undefined, which as a property key is the
    name "undefined". *)
Definition get (row : Row) (col : option jsstring) : option jsstring :=
  match col with
  | Some k => lookup k row
  | None => lookup (str "undefined") row
  end.

(** [x || ''] on a cell *)
Definition or_empty (x : option jsstring) : jsstring :=
  match x with
  | Some s => s
  | None => []
  end.

(** A field of a compiled indicator; an absent or undefined property is
    [None]. *)
Record Field : Type := mkField {
  f_id : jsstring;
  f_type : jsstring;
  f_label : option jsstring;
  f_description : option jsstring;
  f_options : option (list OptionItem);
  f_required : bool;
  f_placeholder : option jsstring;
  f_validation : option (list ValidationRules.rule);
  f_maxLength : option Z;
  f_warning : option jsstring;
  f_formula : option formula;
  f_format : option jsstring;
  f_unit : option jsstring;
  f_dependsOn : option jsstring;
  f_dependsOnValue : option jsstring
}.

Record Indicator : Type := mkIndicator {
  i_id : jsstring;
  i_title : jsstring;
  i_description : jsstring;
  i_tier : Z;
  i_fields : list Field
}.

(** Determine indicator tier based on content analysis. *)
Definition determineTier (indicator method : jsstring) : Z :=
  let text := Str.toLowerCase (indicator ++ str " " ++ method) in
  let has k := Str.includes text (str k) in
  if has "staff"%string && has "turnover"%string then 1
  else if has "funding"%string && (has "core"%string || has "ratio"%string) then 1
  else if has "board"%string && has "meeting"%string then 1
  else if has "collaboration"%string || has "coalition"%string then 2
  else if has "satisfaction"%string || has "feedback"%string then 2
  else if has "training"%string || has "professional development"%string then 2
  else if has "outcome"%string || has "impact"%string then 3
  else if has "policy"%string || has "advocacy"%string then 3
  else if has "leadership"%string || has "governance"%string then 3
  else 2.

Definition underscore : jsstring := str "_".

(** The unit of a calculated field, from its format. *)
Definition unit_of (format : option jsstring) : jsstring :=
  match format with
  | Some f =>
      if Str.eqb f (str "percentage") then str "%"
      else if Str.eqb f (str "currency") then str "$"
      else []
  | None => []
  end.

Definition input_field (id : jsstring) (field : FieldSpec) : Field :=
  {| f_id := id ++ underscore ++ fs_key field;
     f_type := fs_type field;
     f_label := Some (fs_label field);
     f_description := None;
     f_options := None;
     f_required := true;
     f_placeholder := fs_placeholder field;
     f_validation := fs_validation field;
     f_maxLength := None; f_warning := None; f_formula := None;
     f_format := None; f_unit := None;
     f_dependsOn := None; f_dependsOnValue := None |}.

Definition calculated_field (id : jsstring) (calc : CalcSpec) : Field :=
  {| f_id := id ++ underscore ++ cs_key calc;
     f_type := FieldTypes.CALCULATED;
     f_label := Some (cs_label calc);
     f_description := None;
     f_options := None;
     f_required := false;
     f_placeholder := None;
     f_validation := None;
     f_maxLength := None; f_warning := None;
     f_formula := Some (cs_formula calc);
     f_format := cs_format calc;
     f_unit := Some (unit_of (cs_format calc));
     f_dependsOn := None; f_dependsOnValue := None |}.

Definition part_field (id : jsstring) (field : FieldSpec) : Field :=
  {| f_id := id ++ underscore ++ fs_key field;
     f_type := fs_type field;
     f_label := Some (fs_label field);
     f_description := None;
     f_options := fs_options field;
     f_required :=
       match fs_validation field with
       | Some vs => existsb (ValidationRules.same ValidationRules.required) vs
       | None => false
       end;
     f_placeholder := None;
     f_validation := fs_validation field;
     f_maxLength := None; f_warning := None; f_formula := None;
     f_format := None; f_unit := None;
     f_dependsOn :=
       match fs_dependsOn field with
       | Some (c :: d) => Some (id ++ underscore ++ c :: d)
       | _ => None
       end;
     f_dependsOnValue := fs_dependsOnValue field |}.

Definition main_field (id indicatorText methodText : jsstring)
    (fieldConfig : FieldConfig) : Field :=
  {| f_id := id ++ str "_main";
     f_type := type fieldConfig;
     f_label := Some indicatorText;
     f_description := Some methodText;
     f_options :=
       match options fieldConfig with
       | Some o => Some o
       | None => scale fieldConfig
       end;
     f_required := true;
     f_placeholder := placeholder fieldConfig;
     f_validation := validation fieldConfig;
     f_maxLength := maxLength fieldConfig;
     f_warning := warning fieldConfig;
     f_formula := None; f_format := None; f_unit := None;
     f_dependsOn := None; f_dependsOnValue := None |}.

(** The fields pushed for one indicator, in push order. *)
Definition expand (id indicatorText methodText : jsstring)
    (fieldConfig : FieldConfig) : list Field :=
  if Str.eqb (type fieldConfig) (str "calculated_group") then
    fold_left (fun fs field => fs ++ [input_field id field])
              (fields fieldConfig) []
    ++ match calculations fieldConfig with
       | Some cs => fold_left (fun fs calc => fs ++ [calculated_field id calc])
                              cs []
       | None => []
       end
  else if Str.eqb (type fieldConfig) (str "multi_part") then
    fold_left (fun fs field => fs ++ [part_field id field])
              (fields fieldConfig) []
  else [main_field id indicatorText methodText fieldConfig].

(** The body of the loop over the rows: what row number [index] adds to
    [indicators]. *)
Definition compile_row (indicatorCol methodCol notesCol : option jsstring)
    (indicators : list Indicator) (row : Row) (index : nat)
  : list Indicator :=
  let indicatorText := get row indicatorCol in
  let methodText := or_empty (get row methodCol) in
  match indicatorText with
  | None | Some [] => indicators
  | Some indicatorText =>
      if Str.eqb (Str.trim indicatorText) [] then indicators
      else
        let id := str "indicator_" ++ Str.of_index index in
        let fieldConfig := createFieldConfig indicatorText (Some methodText) in
        indicators ++
        [ {| i_id := id;
             i_title := Str.trim indicatorText;
             i_description := or_empty (get row notesCol);
             i_tier := determineTier indicatorText methodText;
             i_fields := expand id indicatorText methodText fieldConfig |} ]
  end.

(** [csvData.forEach((row, index) => ...)] from row number [index] on *)
Fixpoint compile_rows (indicatorCol methodCol notesCol : option jsstring)
    (rows : list Row) (index : nat) (indicators : list Indicator)
  : list Indicator :=
  match rows with
  | [] => indicators
  | row :: rest =>
      compile_rows indicatorCol methodCol notesCol rest (S index)
        (compile_row indicatorCol methodCol notesCol indicators row index)
  end.

(** A returned value or a thrown [Error] with its message. *)
Inductive result (A : Type) : Type :=
| Return (x : A)
| Throw (message : jsstring).
Arguments Return {A} x.
Arguments Throw {A} message.

Definition any_of (words : list string) (key : jsstring) : bool :=
  existsb (fun w => Str.includes (Str.toLowerCase key) (str w)) words.

Definition is_indicator_header : jsstring -> bool :=
  any_of ["indicator"; "outcome"; "measure"]%string.
Definition is_method_header : jsstring -> bool :=
  any_of ["method"; "how"; "measurement"; "approach"]%string.
Definition is_notes_header : jsstring -> bool :=
  any_of ["note"; "description"; "comment"]%string.

(** Transforms CSV indicator data into standardized form fields.
    [csvData] is [None] for null or undefined.  A row is an object, so the
    test [!firstRow] never holds on a row set that has a first row. *)
Definition generateStandardizedFields (csvData : option (list Row))
  : result (list Indicator) :=
  match csvData with
  | None | Some [] => Return []
  | Some ((firstRow :: _) as rows) =>
      let indicatorCol := find is_indicator_header (keys firstRow) in
      let methodCol := find is_method_header (keys firstRow) in
      let notesCol := find is_notes_header (keys firstRow) in
      match indicatorCol with
      | None =>
          Throw (str "No indicator column found. Available columns: "
                 ++ Str.join (str ", ") (keys firstRow))
      | Some _ =>
          Return (compile_rows indicatorCol methodCol notesCol rows O [])
      end
  end.

(** ** Completion score *)

(** The response store: what reading it at a field id gives, undefined where
    it has no entry. *)
Definition store : Type := jsstring -> jsval.

Record CompletionScore : Type := mkScore {
  percentage : number;
  completed : nat;
  total : nat
}.

(** The two counters of [calculateCompletionScore], in the order
    (totalFields, completedFields), after one field. *)
Definition score_field (responses : store) (acc : nat * nat) (field : Field)
  : nat * nat :=
  let '(totalFields, completedFields) := acc in
  if negb (Str.eqb (f_type field) FieldTypes.CALCULATED) then
    if answered (responses (f_id field))
    then (S totalFields, S completedFields)
    else (S totalFields, completedFields)
  else (totalFields, completedFields).

(** [indicators] is [None] for null or undefined. *)
Definition calculateCompletionScore (indicators : option (list Indicator))
    (responses : store) : CompletionScore :=
  match indicators with
  | None | Some [] =>
      {| percentage := Num.lit 0; completed := O; total := O |}
  | Some indicators =>
      let '(totalFields, completedFields) :=
        fold_left
          (fun acc indicator =>
             fold_left (score_field responses) (i_fields indicator) acc)
          indicators (O, O) in
      {| percentage :=
           if (0 <? totalFields)%nat then percent completedFields totalFields
           else Num.lit 0;
         completed := completedFields;
         total := totalFields |}
  end.

(** ** Comparison of numbers *)

(** [x < y] on numbers: false as soon as one side is NaN; the two zeros are
    equal. *)
Definition num_ltb (x y : number) : bool :=
  match x, y with
  | NaN, _ | _, NaN => false
  | Inf true, Inf true => false
  | Inf true, _ => true
  | _, Inf true => false
  | Inf false, _ => false
  | _, Inf false => true
  | Zero _, Zero _ => false
  | Zero _, Fin q => negb (Qle_bool q 0)
  | Fin p, Zero _ => negb (Qle_bool 0 p)
  | Fin p, Fin q => negb (Qle_bool q p)
  end.

(** [x === y] on numbers *)
Definition num_eqb (x y : number) : bool :=
  match x, y with
  | Inf s, Inf s' => Bool.eqb s s'
  | Zero _, Zero _ => true
  | Fin p, Fin q => Qeq_bool p q
  | _, _ => false
  end.

(** [Number.isInteger(v)]: false on what is not a number. *)
Definition isInteger (v : numeric) : bool :=
  match v with
  | NNum (Zero _) => true
  | NNum (Fin q) => Qeq_bool q (inject_Z (Qfloor q))
  | _ => false
  end.

(** ** Data validation rules

    The bodies of the rules, on a possibly-missing numeric value; a rule
    returns its message, or [None] for null. *)

Module Validation.

Inductive message : Type :=
| Text (s : jsstring)
| Between (min max : number).   (* `Value must be between ${min} and ${max}` *)

(** Percentage must be 0-100 *)
Definition percentage (value : numeric) : option message :=
  if num_ltb (to_number value) (Num.lit 0)
  then Some (Text (str "Percentage cannot be negative"))
  else if num_ltb (Num.lit 100) (to_number value)
  then Some (Text (str "Percentage cannot exceed 100%"))
  else None.

(** Currency must be non-negative *)
Definition currency (value : numeric) : option message :=
  if num_ltb (to_number value) (Num.lit 0)
  then Some (Text (str "Amount cannot be negative"))
  else None.

(** Staff count must be non-negative integer *)
Definition staffCount (value : numeric) : option message :=
  if num_ltb (to_number value) (Num.lit 0)
  then Some (Text (str "Staff count cannot be negative"))
  else if negb (isInteger value)
  then Some (Text (str "Staff count must be a whole number"))
  else None.

(** Required field validation, on any response value:
    [value == null || value === '' || value === undefined] *)
Definition required (value : jsval) : option message :=
  match value with
  | VUndefined | VNull | VStr [] =>
      Some (Text (str "This field is required"))
  | _ => None
  end.

(** Scale validation (1-5): a bound that is not passed, or passed as
    undefined, takes its default. *)
Definition scale (value : numeric) (min max : option number)
  : option message :=
  let min := match min with Some m => m | None => Num.lit 1 end in
  let max := match max with Some m => m | None => Num.lit 5 end in
  if num_ltb (to_number value) min || num_ltb max (to_number value)
  then Some (Between min max)
  else None.

End Validation.

(** ** Organization detection *)

Module Json.

Definition is_high_surrogate (c : N) : bool :=
  ((55296 <=? c) && (c <=? 56319))%N.
Definition is_low_surrogate (c : N) : bool :=
  ((56320 <=? c) && (c <=? 57343))%N.

Definition hex_digit (d : N) : N :=
  if (d <? 10)%N then (48 + d)%N else (87 + d)%N.

(** [\uXXXX] with lower-case hexadecimal digits *)
Definition unicode_escape (c : N) : jsstring :=
  [92; 117; hex_digit (c / 4096 mod 16); hex_digit (c / 256 mod 16);
   hex_digit (c / 16 mod 16); hex_digit (c mod 16)]%N.

(** The text of one code unit that is not part of a surrogate pair. *)
Definition quote_unit (c : N) : jsstring :=
  if (c =? 8)%N then str "\b"
  else if (c =? 9)%N then str "\t"
  else if (c =? 10)%N then str "\n"
  else if (c =? 12)%N then str "\f"
  else if (c =? 13)%N then str "\r"
  else if (c =? 34)%N then [92; 34]%N
  else if (c =? 92)%N then [92; 92]%N
  else if (c <? 32)%N || is_high_surrogate c || is_low_surrogate c
  then unicode_escape c
  else [c].

(** The characters of a string inside its quotes: a surrogate pair is kept,
    a lone surrogate is escaped. *)
Fixpoint quote_units (s : jsstring) : jsstring :=
  match s with
  | [] => []
  | c :: s' =>
      match s' with
      | d :: s'' =>
          if is_high_surrogate c && is_low_surrogate d
          then c :: d :: quote_units s''
          else quote_unit c ++ quote_units s'
      | [] => quote_unit c
      end
  end.

(** [JSON.stringify(s)] for a string *)
Definition quote (s : jsstring) : jsstring :=
  [34%N] ++ quote_units s ++ [34%N].

(** [JSON.stringify(row)] for a row *)
Definition of_row (row : Row) : jsstring :=
  str "{" ++ Str.join (str ",")
               (map (fun kv => quote (fst kv) ++ str ":" ++ quote (snd kv)) row)
  ++ str "}".

(** [JSON.stringify(csvData)] for a row set *)
Definition stringify (csvData : list Row) : jsstring :=
  str "[" ++ Str.join (str ",") (map of_row csvData) ++ str "]".

End Json.

Record Organization : Type := mkOrganization {
  org_name : jsstring;
  org_code : jsstring
}.

(** Known organization patterns, in the order of the object literal. *)
Definition organizations : list (jsstring * Organization) :=
  [ (str "VFWC", mkOrganization (str "Victoria Family Works Centre") (str "VFWC"));
    (str "WAWC", mkOrganization (str "Women's Action Women's Centre") (str "WAWC"));
    (str "VCWS", mkOrganization (str "Victoria Community Women's Shelter") (str "VCWS"));
    (str "CWWA", mkOrganization (str "Community Women's Worker Association") (str "CWWA"));
    (str "YWCA", mkOrganization (str "YWCA Victoria") (str "YWCA")) ].

(** [s.toUpperCase()]: the Basic Latin small letters, and the two other
    code units whose capital is a single Basic Latin one, the long s U+017F
    and the dotless i U+0131.  The other code units are left as they are,
    where the code maps small letters outside Basic Latin to capitals or to
    several code units; the result only serves to look up a code of four
    Basic Latin capitals, which none of those mappings spells. *)
Definition toUpperCase (s : jsstring) : jsstring :=
  map (fun c => if ((97 <=? c) && (c <=? 122))%N then (c - 32)%N
                else if (c =? 383)%N then 83%N
                else if (c =? 305)%N then 73%N
                else c) s.

(** [organizations[key]] *)
Fixpoint organization_of (key : jsstring)
    (catalog : list (jsstring * Organization)) : option Organization :=
  match catalog with
  | [] => None
  | (code, org) :: rest =>
      if Str.eqb key code then Some org else organization_of key rest
  end.

(** The first header whose upper case is a known code gives its
    organization. *)
Fixpoint organization_of_headers (headers : list jsstring)
  : option Organization :=
  match headers with
  | [] => None
  | key :: rest =>
      match organization_of (toUpperCase key) organizations with
      | Some org => Some org
      | None => organization_of_headers rest
      end
  end.

(** Automatically detects the organization from CSV data patterns; [None]
    is null. *)
Definition detectOrganization (csvData : option (list Row))
  : option Organization :=
  match csvData with
  | None | Some [] => None
  | Some ((firstRow :: _) as rows) =>
      let allText := Str.toLowerCase (Json.stringify rows) in
      match find (fun entry => Str.includes allText (Str.toLowerCase (fst entry)))
                 organizations with
      | Some (_, org) => Some org
      | None =>
          match organization_of_headers (keys firstRow) with
          | Some org => Some org
          | None => Some (mkOrganization (str "Organization") (str "ORG"))
          end
      end
  end.

(** ** The application's state and handlers

    The state of the form after a CSV file was read, and what each handler
    makes of it.  A handler runs on the state the last one left. *)

(** ToBoolean on a response value *)
Definition truthy (v : jsval) : bool :=
  match v with
  | VUndefined | VNull => false
  | VBool b => b
  | VNum x => Num.truthy x
  | VStr s => negb (Str.eqb s [])
  | VObject => true
  end.

Module App.

Record State : Type := mkState {
  organization : option Organization;
  indicators : list Indicator;
  currentIndicator : Z;
  responses : store;
  isComplete : bool
}.

(** [{ ...responses, [fieldId]: value }] *)
Definition with_response (responses : store) (fieldId : jsstring)
    (value : jsval) : store :=
  fun id => if Str.eqb id fieldId then value else responses id.

Definition handleFieldChange (st : State) (fieldId : jsstring)
    (value : jsval) : State :=
  let newResponses := with_response (responses st) fieldId value in
  let completionScore :=
    calculateCompletionScore (Some (indicators st)) newResponses in
  {| organization := organization st;
     indicators := indicators st;
     currentIndicator := currentIndicator st;
     responses := newResponses;
     isComplete :=
       if num_eqb (percentage completionScore) (Num.lit 100) then true
       else isComplete st |}.

Definition nextIndicator (st : State) : State :=
  if (currentIndicator st <? Z.of_nat (List.length (indicators st)) - 1)%Z
  then {| organization := organization st;
          indicators := indicators st;
          currentIndicator := (currentIndicator st + 1)%Z;
          responses := responses st;
          isComplete := isComplete st |}
  else st.

Definition prevIndicator (st : State) : State :=
  if (0 <? currentIndicator st)%Z
  then {| organization := organization st;
          indicators := indicators st;
          currentIndicator := (currentIndicator st - 1)%Z;
          responses := responses st;
          isComplete := isComplete st |}
  else st.

(** What the [complete] callback of the upload makes of parsed rows
    [data] that came without parse errors: an empty result and a failed
    compilation only raise an alert; the detected organization is set before
    the compilation is tried. *)
Definition handleFileUpload (st : State) (data : option (list Row)) : State :=
  match data with
  | None | Some [] => st
  | Some _ =>
      let detectedOrg := detectOrganization data in
      match generateStandardizedFields data with
      | Return standardizedIndicators =>
          {| organization := detectedOrg;
             indicators := standardizedIndicators;
             currentIndicator := 0;
             responses := fun _ => VUndefined;
             isComplete := false |}
      | Throw _ =>
          {| organization := detectedOrg;
             indicators := indicators st;
             currentIndicator := currentIndicator st;
             responses := responses st;
             isComplete := isComplete st |}
      end
  end.

(** An entry of [responses] in the report: the field and
    [responses[field.id] || null]. *)
Definition reported_value (responses : store) (field : Field) : jsval :=
  if truthy (responses (f_id field)) then responses (f_id field) else VNull.

Record Report : Type := mkReport {
  report_organization : jsstring;
  report_indicators : list (Indicator * list (Field * jsval));
  report_completionScore : CompletionScore
}.

(** The data [generateReport] serializes, the submission date apart. *)
Definition reportData (st : State) : Report :=
  {| report_organization :=
       match organization st with
       | Some org =>
           if Str.eqb (org_name org) [] then str "Unknown Organization"
           else org_name org
       | None => str "Unknown Organization"
       end;
     report_indicators :=
       map (fun indicator =>
              (indicator,
               map (fun field => (field, reported_value (responses st) field))
                   (i_fields indicator)))
           (indicators st);
     report_completionScore :=
       calculateCompletionScore (Some (indicators st)) (responses st) |}.

End App.

(** ** Reference definitions taken from the specification's wording *)

(** The specification's rounding rule: to the nearest whole number, a tie
    going away from zero. *)
Definition round_half_away_from_zero (q : Q) : Z :=
  if Num.Qneg q then (- Qfloor (- q + (1 # 2)))%Z else Qfloor (q + (1 # 2)).

(** [Number.isFinite(x)] *)
Definition isFinite (x : number) : bool :=
  match x with Zero _ | Fin _ => true | _ => false end.

(** A whole percentage between 0 and 100. *)
Definition within_0_100 (x : number) : Prop :=
  x = Zero false \/ exists n : Z, (0 < n <= 100)%Z /\ x = Fin (n # 1).

(** An indicator cell that is present and not blank. *)
Definition nonblank (cell : option jsstring) : bool :=
  match cell with
  | Some s => negb (Str.eqb (Str.trim s) [])
  | None => false
  end.

(** The rows whose cell in column [col] is not blank, in row order, each
    with its position in the row set. *)
Definition surviving (col : jsstring) (rows : list Row) : list (nat * Row) :=
  filter (fun ir => nonblank (lookup col (snd ir)))
         (combine (seq 0 (List.length rows)) rows).

(** A denominator that is zero or absent: undefined, null, not a number, or
    one of the zeros. *)
Definition zero_or_absent (d : numeric) : bool :=
  match d with
  | NUndefined | NNull | NNum NaN | NNum (Zero _) => true
  | _ => false
  end.

(** An entry that is a valid, non-null, non-NaN number. *)
Definition valid_number (v : numeric) : bool :=
  match v with
  | NNum NaN => false
  | NNum _ => true
  | _ => false
  end.

(** The user-fillable fields of an indicator list: those whose type is not
    CALCULATED. *)
Definition fillable (indicators : list Indicator) : list Field :=
  filter (fun f => negb (Str.eqb (f_type f) FieldTypes.CALCULATED))
         (flat_map i_fields indicators).

(** The indicator compiled from row [snd ir] at position [fst ir]. *)
Definition indicator_of (col : jsstring) (methodCol notesCol : option jsstring)
    (ir : nat * Row) : Indicator :=
  let indicatorText := or_empty (lookup col (snd ir)) in
  let methodText := or_empty (get (snd ir) methodCol) in
  let id := str "indicator_" ++ Str.of_index (fst ir) in
  {| i_id := id;
     i_title := Str.trim indicatorText;
     i_description := or_empty (get (snd ir) notesCol);
     i_tier := determineTier indicatorText methodText;
     i_fields :=
       expand id indicatorText methodText
              (createFieldConfig indicatorText (Some methodText)) |}.

(** The suffixes of the field ids a configuration expands to. *)
Definition suffixes (fieldConfig : FieldConfig) : list jsstring :=
  if Str.eqb (type fieldConfig) (str "calculated_group") then
    map fs_key (fields fieldConfig)
    ++ match calculations fieldConfig with
       | Some cs => map cs_key cs
       | None => []
       end
  else if Str.eqb (type fieldConfig) (str "multi_part") then
    map fs_key (fields fieldConfig)
  else [str "main"].

(** A decimal digit, as a code unit. *)
Definition is_digit (c : N) : Prop := (48 <= c <= 57)%N.

(** Every field id of every indicator, in order. *)
Definition all_field_ids (indicators : list Indicator) : list jsstring :=
  flat_map (fun i => map f_id (i_fields i)) indicators.

(** The literals 0.6 and 0.4 as binary64 values, and the unit roundoff. *)
Definition a06 : Q := 5404319552844595 # 9007199254740992.
Definition a04 : Q := 3602879701896397 # 9007199254740992.
Definition u53 : Q := Num.pow2 (-53).

(** The rounding of [Math.round]: [n] is the whole number nearest to [q], a
    tie going toward +infinity. *)
Definition is_round_half_up (q : Q) (n : Z) : Prop :=
  (inject_Z n - (1 # 2) <= q /\ q < inject_Z n + (1 # 2))%Q.

(** The whole number [n] as a number, a zero taking the sign [neg]. *)
Definition whole (neg : bool) (n : Z) : number :=
  if (n =? 0)%Z then Zero neg else Fin (n # 1).

(** The specification's percentage before rounding: completed / total x 100
    as a real number. *)
Definition exact_percentage (completed total : nat) : Q :=
  (inject_Z (Z.of_nat completed) / inject_Z (Z.of_nat total) * 100)%Q.

(** A real number that is at least [1e-12] away from every tie
    [k + 1/2]. *)
Definition clear_of_ties (x : Q) : Prop :=
  forall k : Z, (1 # 1000000000000 < Qabs (x - (inject_Z k + (1 # 2))))%Q.

(** A finite number of magnitude at most [B]. *)
Definition magnitude_le (B : Q) (x : number) : Prop :=
  match x with
  | Zero _ => True
  | Fin q => (Qabs q <= B)%Q
  | _ => False
  end.

(** An argument that is a finite number of magnitude at most [2^500]
    (null counts as 0), and a denominator that is moreover of magnitude at
    least [2^-500]. *)
Definition ordinary (v : numeric) : Prop :=
  magnitude_le (Num.pow2 500) (to_number v).

Definition ordinary_denominator (d : numeric) : Prop :=
  match to_number d with
  | Fin q => (Num.pow2 (-500) <= Qabs q <= Num.pow2 500)%Q
  | _ => False
  end.

(** ** Sample inputs *)

(** A whole number passed as an argument. *)
Definition int (z : Z) : numeric := NNum (Num.lit z).

Definition universal_method : jsstring :=
  str "Does your organization offer a wellness program? (Yes/No) If yes, which of the following are offered? (Check all that apply)".

Definition benefits_method : jsstring :=
  str "Which benefits are offered? (Check all that apply)".

Definition sample_rows : list Row :=
  [ [ (str "Indicator", str "Staff Turnover Rate");
      (str "Measurement Method", str "...") ];
    [ (str "Indicator", str "  ");
      (str "Measurement Method", str "how many") ];
    [ (str "Indicator", str "Clients served");
      (str "Measurement Method", str "how many") ] ].

(** A row set whose only other column is named "undefined". *)
Definition undefined_column_rows : list Row :=
  [ [ (str "Indicator", str "Clients served");
      (str "undefined", str "how many") ] ].

Definition sample_entries : list (jsstring * Response) :=
  [ (str "indicator_0_staffAtStart",
     mkResponse (VNum (Num.lit 12)) (Some FieldTypes.NUMBER));
    (str "indicator_0_staffAtEnd",
     mkResponse (VStr []) (Some FieldTypes.NUMBER));
    (str "indicator_2_main",
     mkResponse (VStr (str "about forty")) (Some FieldTypes.TEXT_SHORT)) ].

Definition sample_store : store :=
  fun id => if Str.eqb id (str "indicator_0_staffAtStart")
            then VNum (Num.lit 12) else VUndefined.

(** ** Predicates used in the statements on the rest of the engine *)

(** A possibly-missing value that is a whole number, zero or above. *)
Definition whole_count (v : numeric) : Prop :=
  match v with
  | NNum (Zero _) => True
  | NNum (Fin q) => (0 <= q /\ q == inject_Z (Qfloor q))%Q
  | _ => False
  end.

(** What the range rules let through. *)
Definition in_range (lo hi : Q) (zero missing : bool) (v : numeric) : Prop :=
  match v with
  | NUndefined => True
  | NNull => missing = true
  | NNum NaN => True
  | NNum (Zero _) => zero = true
  | NNum (Fin q) => (lo <= q <= hi)%Q
  | NNum (Inf _) => False
  end.

(** An option read from a line of the method text. *)
Definition extracted_option (o : OptionItem) : Prop :=
  opt_label o <> [] /\
  opt_label o <> str "Other (please specify)" /\
  (forall c t, opt_label o = c :: t -> Str.is_space c = false) /\
  (forall c t, opt_label o = t ++ [c] -> Str.is_space c = false) /\
  exists v, opt_value o = OStr v /\ Forall (fun c => Str.is_space c = false) v.

(** The field types the factory can give to a compiled field, and those
    that come with a list of options. *)
Definition produced_types : list jsstring :=
  [ FieldTypes.NUMBER; FieldTypes.CURRENCY; FieldTypes.PERCENTAGE;
    FieldTypes.SCALE; FieldTypes.RADIO; FieldTypes.CHECKBOX;
    FieldTypes.CALCULATED; FieldTypes.TEXT_SHORT ].

Definition choice_types : list jsstring :=
  [ FieldTypes.RADIO; FieldTypes.CHECKBOX; FieldTypes.SCALE ].

Definition is_calculated (f : Field) : bool :=
  Str.eqb (f_type f) FieldTypes.CALCULATED.

(** The type is a produced one, and a non-empty list of options comes with
    exactly the choice types. *)
Definition well_typed (f : Field) : bool :=
  existsb (Str.eqb (f_type f)) produced_types
  && match f_options f with
     | Some [] => false
     | Some _ => existsb (Str.eqb (f_type f)) choice_types
     | None => negb (existsb (Str.eqb (f_type f)) choice_types)
     end.

(** Required exactly when not calculated, a formula exactly when
    calculated, a label, and no dependency on another field. *)
Definition well_marked (f : Field) : bool :=
  Bool.eqb (f_required f) (negb (is_calculated f))
  && Bool.eqb (match f_formula f with Some _ => true | None => false end)
              (is_calculated f)
  && match f_label f with Some _ => true | None => false end
  && match f_dependsOn f with None => true | Some _ => false end.

(** Between one and five fields, of which between one and three are for the
    user to fill. *)
Definition well_sized (fs : list Field) : bool :=
  ((1 <=? List.length fs) && (List.length fs <=? 5)
   && (1 <=? List.length (filter (fun f => negb (is_calculated f)) fs))
   && (List.length (filter (fun f => negb (is_calculated f)) fs) <=? 3))%nat.

(** ** A session of the form *)

(** What the user does to the form. *)
Inductive action : Type :=
| Upload (data : option (list Row))
| Change (fieldId : jsstring) (value : jsval)
| Next
| Prev.

Definition step (st : App.State) (a : action) : App.State :=
  match a with
  | Upload data => App.handleFileUpload st data
  | Change fieldId value => App.handleFieldChange st fieldId value
  | Next => App.nextIndicator st
  | Prev => App.prevIndicator st
  end.

Definition run (st : App.State) (actions : list action) : App.State :=
  fold_left step actions st.

(** The state the component starts in. *)
Definition initial : App.State :=
  {| App.organization := None;
     App.indicators := [];
     App.currentIndicator := 0;
     App.responses := fun _ => VUndefined;
     App.isComplete := false |}.

(** [currentIndicator] is an index of [indicators], or 0 when there is
    none. *)
Definition in_view (st : App.State) : Prop :=
  (0 <= App.currentIndicator st
   < Z.max 1 (Z.of_nat (List.length (App.indicators st))))%Z.

Definition is_upload (a : action) : bool :=
  match a with Upload _ => true | _ => false end.

(** ** Texts *)

(** A lower-case letter of the Basic Latin block. *)
Definition is_lower_letter (c : N) : Prop := (97 <= c <= 122)%N.

(** [x] occurs as a block of [y]. *)
Definition block (x y : jsstring) : Prop := exists a b, y = a ++ x ++ b.

(** ** Further sample inputs *)

(** The indicators the sample rows compile to. *)
Definition sample_indicators : list Indicator :=
  match generateStandardizedFields (Some sample_rows) with
  | Return indicators => indicators
  | Throw _ => []
  end.

(** A number field with nothing but an id. *)
Definition plain_field (id : jsstring) : Field :=
  mkField id FieldTypes.NUMBER None None None true None None None None None
          None None None None.

(** An indicator of forty number fields, with ids "0" to "39", and answers
    to the first 23 of them. *)
Definition forty_fields : Indicator :=
  mkIndicator (str "indicator_0") (str "Forty") [] 3
              (map (fun n => plain_field (Str.of_index n)) (seq 0 40)).

Definition first_23_answered : store :=
  fun id => if existsb (Str.eqb id) (map Str.of_index (seq 0 23))
            then VNum (Num.lit 1) else VUndefined.

(** An indicator of 200 number fields, with ids "0" to "199", and answers
    to all of them but the first. *)
Definition crowded_indicator : Indicator :=
  mkIndicator (str "indicator_0") (str "Crowded") [] 3
              (map (fun n => plain_field (Str.of_index n)) (seq 0 200)).

Definition crowded_store : store :=
  fun id => if Str.eqb id (str "0") then VUndefined else VNum (Num.lit 1).

(** A complete form with every field answered, and a user who then clears
    one answer and leafs through the indicators. *)
Definition answered_session : App.State :=
  {| App.organization := None;
     App.indicators := sample_indicators;
     App.currentIndicator := 0;
     App.responses := fun _ => VNum (Num.lit 1);
     App.isComplete := true |}.

Definition cleared_actions : list action :=
  [ Change (str "indicator_0_staffLeft") (VStr []); Next; Prev ].

(** A row set that names an organization in a cell. *)
Definition coded_rows : list Row :=
  [ [ (str "Indicator", str "Staff Turnover Rate");
      (str "Notes", str "Reported by the Ywca office") ] ].

(** An answered response, and an answered response of a structured
    type. *)
Definition is_answered (e : jsstring * Response) : bool :=
  answered (value (snd e)).

Definition is_standardized (e : jsstring * Response) : bool :=
  answered (value (snd e)) && is_structured (rtype (snd e)).

(** The scores as [calculateDataQuality] computes them from its three
    counters. *)
Definition quality_of (t c s : nat) : DataQuality :=
  {| completeness := if (0 <? t)%nat then percent c t else Num.lit 0;
     standardization := if (0 <? c)%nat then percent s c else Num.lit 0;
     overallScore :=
       if (0 <? t)%nat
       then Num.round
              (Num.mul
                 (Num.div
                    (Num.add
                       (Num.mul (Num.of_count c)
                                (Num.number_value false (6 # 10)))
                       (Num.mul (Num.of_count s)
                                (Num.number_value false (4 # 10))))
                    (Num.of_count t))
                 Calculations.hundred)
       else Num.lit 0 |}.

(** Two rows that hold the same cells in the three columns the compiler
    resolved. *)
Definition same_cells (indicatorCol : jsstring)
    (methodCol notesCol : option jsstring) (row row' : Row) : Prop :=
  lookup indicatorCol row = lookup indicatorCol row' /\
  get row methodCol = get row' methodCol /\
  get row notesCol = get row' notesCol.

(** The sample rows with one more column. *)
Definition region_rows : list Row :=
  map (fun row => row ++ [(str "Region", str "North")]) sample_rows.

(** A row set without an indicator column. *)
Definition question_rows : list Row :=
  [ [ (str "Question", str "Staff Turnover Rate") ] ].

(** The sample responses with the first two listed the other way round. *)
Definition swapped_entries : list (jsstring * Response) :=
  match sample_entries with
  | a :: b :: l => b :: a :: l
  | l => l
  end.

(** Two answered responses in free text. *)
Definition free_text_entries : list (jsstring * Response) :=
  [ (str "indicator_0_main",
     mkResponse (VStr (str "about forty")) (Some FieldTypes.TEXT_SHORT));
    (str "indicator_1_main",
     mkResponse (VStr (str "twice a year")) (Some FieldTypes.TEXT_SHORT)) ].

(** * Properties *)

(** ** Numbers *)

Section NumberFacts.
Local Open Scope Q_scope.

(** Well-known binary64 results, as checks of the model: 0.1 + 0.2 is
    0.30000000000000004, 2^53 + 1 is 2^53, 1e308 * 10 overflows, and
    Math.round takes -2.5 to -2 and -0.2 to -0. *)
Example add_01_02 :
  Num.add (Num.number_value false (1 # 10)) (Num.number_value false (2 # 10))
  = Fin (1351079888211149 # 4503599627370496).
Proof. vm_compute. reflexivity. Qed.

Example add_2p53_1 :
  Num.add (Num.lit 9007199254740992) (Num.lit 1) = Num.lit 9007199254740992.
Proof. vm_compute. reflexivity. Qed.

Example mul_overflow :
  Num.mul (Num.number_value false (inject_Z (10 ^ 308))) (Num.lit 10)
  = Inf false.
Proof. vm_compute. reflexivity. Qed.

Example round_ties :
  Num.round (Fin (-5 # 2)) = Fin (-2 # 1) /\
  Num.round (Fin (5 # 2)) = Fin (3 # 1) /\
  Num.round (Fin (-1 # 5)) = Zero true.
Proof. repeat split. Qed.

Lemma pow2_pos (e : Z) : 0 < Num.pow2 e.
Proof. apply Qpower_0_lt. reflexivity. Qed.

Lemma pow2_add (a b : Z) : Num.pow2 (a + b) == Num.pow2 a * Num.pow2 b.
Proof. apply Qpower_plus. discriminate. Qed.

Lemma pow2_le (a b : Z) : (a <= b)%Z -> Num.pow2 a <= Num.pow2 b.
Proof. intro H. apply Qpower_le_compat_l; [exact H|discriminate]. Qed.

Lemma pow2_lt_inv (a b : Z) : Num.pow2 a < Num.pow2 b -> (a < b)%Z.
Proof. intro H. eapply Qpower_lt_compat_l_inv; [exact H|reflexivity]. Qed.

Lemma pow2_Z (e : Z) : (0 <= e)%Z -> Num.pow2 e == inject_Z (2 ^ e).
Proof. intro H. unfold Num.pow2. now rewrite Zpower_Qpower. Qed.

Lemma pow2_opp (e : Z) : Num.pow2 (- e) == / Num.pow2 e.
Proof. apply Qpower_opp. Qed.

Lemma Qfloor_unique (x : Q) (n : Z) :
  inject_Z n <= x -> x < inject_Z n + 1 -> Qfloor x = n.
Proof.
  intros H1 H2.
  assert (F1 := Qfloor_le x). assert (F2 := Qlt_floor x).
  rewrite inject_Z_plus in F2. change (inject_Z 1) with 1 in F2.
  assert (n < Qfloor x + 1)%Z.
  { rewrite Zlt_Qlt, inject_Z_plus. change (inject_Z 1) with 1. lra. }
  assert (Qfloor x < n + 1)%Z.
  { rewrite Zlt_Qlt, inject_Z_plus. change (inject_Z 1) with 1. lra. }
  lia.
Qed.

Lemma rne_cases (z : Q) :
  (Num.rne z = Qfloor z /\ z - inject_Z (Qfloor z) <= 1 # 2) \/
  (Num.rne z = (Qfloor z + 1)%Z /\ 1 # 2 <= z - inject_Z (Qfloor z)).
Proof.
  unfold Num.rne.
  destruct (Qcompare_spec (z - inject_Z (Qfloor z)) (1 # 2)) as [E|E|E].
  - destruct (Z.even (Qfloor z)); [left|right]; split; try reflexivity;
      rewrite E; apply Qle_refl.
  - left. split; [reflexivity|now apply Qlt_le_weak].
  - right. split; [reflexivity|now apply Qlt_le_weak].
Qed.

Lemma rne_bounds (z : Q) :
  z - (1 # 2) <= inject_Z (Num.rne z) <= z + (1 # 2).
Proof.
  assert (F1 := Qfloor_le z). assert (F2 := Qlt_floor z).
  rewrite inject_Z_plus in F2. change (inject_Z 1) with 1 in F2.
  destruct (rne_cases z) as [[-> H]|[-> H]].
  - split; lra.
  - rewrite inject_Z_plus. change (inject_Z 1) with 1. split; lra.
Qed.

Lemma rne_le_int (z : Q) (N : Z) : z <= inject_Z N -> (Num.rne z <= N)%Z.
Proof.
  intro H. assert (F1 := Qfloor_le z).
  destruct (rne_cases z) as [[-> _]|[-> H']].
  - rewrite Zle_Qle. lra.
  - assert (Qfloor z < N)%Z by (rewrite Zlt_Qlt; lra). lia.
Qed.

Lemma rne_nonneg (z : Q) : 0 <= z -> (0 <= Num.rne z)%Z.
Proof.
  intro H. assert (0 <= Qfloor z)%Z.
  { change 0%Z with (Qfloor 0). now apply Qfloor_resp_le. }
  destruct (rne_cases z) as [[-> _]|[-> _]]; lia.
Qed.

Lemma Qdiv_lt_cross (a b a' b' : Q) :
  0 < b -> 0 < b' -> a * b' < a' * b -> a / b < a' / b'.
Proof.
  intros Hb Hb' H. apply Qlt_shift_div_r; [exact Hb|].
  setoid_replace (a' / b' * b) with (a' * b / b') by (field; lra).
  apply Qlt_shift_div_l; assumption.
Qed.

Lemma Qlog2_spec (a : Q) :
  0 < a -> Num.pow2 (Num.Qlog2 a) <= a /\ a < Num.pow2 (Num.Qlog2 a + 1).
Proof.
  intro Ha. unfold Num.Qlog2.
  set (ln := Z.log2 (Qnum a)). set (ld := Z.log2 (Zpos (Qden a))).
  assert (Hn : (0 < Qnum a)%Z).
  { destruct a as [n d]. unfold Qlt in Ha. cbn in *. lia. }
  destruct (Z.log2_spec _ Hn) as [N1 N2]. fold ln in N1, N2.
  destruct (Z.log2_spec (Zpos (Qden a)) eq_refl) as [D1 D2].
  fold ld in D1, D2.
  assert (Ln : (0 <= ln)%Z) by apply Z.log2_nonneg.
  assert (Ld : (0 <= ld)%Z) by apply Z.log2_nonneg.
  assert (E : a == inject_Z (Qnum a) / inject_Z (Zpos (Qden a))).
  { destruct a as [n d]. apply Qmake_Qdiv. }
  assert (I1 : Num.pow2 ln <= inject_Z (Qnum a))
    by (rewrite pow2_Z by lia; now rewrite <- Zle_Qle).
  assert (I2 : inject_Z (Qnum a) < Num.pow2 (ln + 1))
    by (rewrite pow2_Z by lia; now rewrite <- Zlt_Qlt).
  assert (J1 : Num.pow2 ld <= inject_Z (Zpos (Qden a)))
    by (rewrite pow2_Z by lia; now rewrite <- Zle_Qle).
  assert (J2 : inject_Z (Zpos (Qden a)) < Num.pow2 (ld + 1))
    by (rewrite pow2_Z by lia; now rewrite <- Zlt_Qlt).
  assert (P1 := pow2_pos ln). assert (P2 := pow2_pos ld).
  assert (P3 := pow2_pos (ln + 1)). assert (P4 := pow2_pos (ld + 1)).
  assert (U : a < Num.pow2 (ln - ld + 1)).
  { replace (ln - ld + 1)%Z with ((ln + 1) + - ld)%Z by lia.
    rewrite pow2_add, pow2_opp, E.
    apply Qdiv_lt_cross; [lra|lra|]. nra. }
  assert (L : Num.pow2 (ln - ld - 1) < a).
  { replace (ln - ld - 1)%Z with (ln + - (ld + 1))%Z by lia.
    rewrite pow2_add, pow2_opp, E.
    apply Qdiv_lt_cross; [lra|lra|]. nra. }
  destruct (Qle_bool (Num.pow2 (ln - ld)) a) eqn:B.
  - apply Qle_bool_iff in B. split; assumption.
  - assert (B' : a < Num.pow2 (ln - ld)).
    { apply Qnot_le_lt. intro C. apply Qle_bool_iff in C. congruence. }
    replace (ln - ld - 1 + 1)%Z with (ln - ld)%Z by lia.
    split; [now apply Qlt_le_weak|assumption].
Qed.

Lemma Qabs_pos_eq (x : Q) : 0 < x -> Qabs x = x.
Proof.
  destruct x as [n d]. unfold Qlt. cbn. intro H.
  rewrite Z.abs_eq by lia. reflexivity.
Qed.

Lemma Qneg_pos (x : Q) : 0 < x -> Num.Qneg x = false.
Proof.
  intro H. unfold Num.Qneg.
  assert (Qle_bool 0 x = true) by (apply Qle_bool_iff; lra).
  now rewrite H0.
Qed.

(** What [number_value] gives on a positive real. *)
Lemma number_value_pos (x : Q) :
  0 < x ->
  Num.number_value false x
  = let e := Z.max (Num.Qlog2 x - 52) (-1074) in
    let m := Num.rne (x / Num.pow2 e) in
    let r := inject_Z m * Num.pow2 e in
    if (m =? 0)%Z then Zero false
    else if Qle_bool (Num.pow2 1024) r then Inf false
    else Fin (Qred r).
Proof.
  intro H. unfold Num.number_value.
  assert (Qeq_bool x 0 = false) as ->.
  { destruct (Qeq_bool x 0) eqn:E; [|reflexivity].
    apply Qeq_bool_iff in E. lra. }
  rewrite (Qabs_pos_eq H), (Qneg_pos H). reflexivity.
Qed.

Lemma pow2_1024_large (M : Z) :
  (M <= 2 ^ 54)%Z -> inject_Z M < Num.pow2 1024.
Proof.
  intro H. rewrite pow2_Z by lia. rewrite <- Zlt_Qlt.
  eapply Z.le_lt_trans; [exact H|]. reflexivity.
Qed.

Lemma Qle_bool_false (x y : Q) : y < x -> Qle_bool x y = false.
Proof.
  intro H. destruct (Qle_bool x y) eqn:E; [|reflexivity].
  apply Qle_bool_iff in E. lra.
Qed.

(** Rounding a positive real that some integer below [2^53] bounds gives
    zero or a positive value under the same bound. *)
Lemma number_value_le_int (x : Q) (M : Z) :
  0 < x -> x <= inject_Z M -> (M < 2 ^ 53)%Z ->
  Num.number_value false x = Zero false \/
  exists q, Num.number_value false x = Fin q /\ 0 < q /\ q <= inject_Z M.
Proof.
  intros Hx HM Hb. rewrite (number_value_pos Hx). cbv zeta.
  set (e := Z.max (Num.Qlog2 x - 52) (-1074)).
  set (m := Num.rne (x / Num.pow2 e)).
  destruct (Qlog2_spec Hx) as [L1 _].
  assert (He : (e <= 0)%Z).
  { assert (Num.Qlog2 x < 53)%Z; [|lia].
    apply pow2_lt_inv. eapply Qle_lt_trans; [exact L1|].
    eapply Qle_lt_trans; [exact HM|].
    rewrite pow2_Z by lia. now rewrite <- Zlt_Qlt. }
  assert (Pe := pow2_pos e).
  assert (EN : inject_Z (M * 2 ^ (- e)) == inject_Z M / Num.pow2 e).
  { rewrite inject_Z_mult, <- pow2_Z by lia. rewrite pow2_opp.
    reflexivity. }
  assert (Hz : 0 <= x / Num.pow2 e).
  { apply Qle_shift_div_l; [exact Pe|lra]. }
  assert (Hm0 : (0 <= m)%Z) by now apply rne_nonneg.
  assert (HmN : (m <= M * 2 ^ (- e))%Z).
  { apply rne_le_int. rewrite EN.
    apply Qle_shift_div_l; [exact Pe|].
    setoid_replace (x / Num.pow2 e * Num.pow2 e) with x by (field; lra).
    exact HM. }
  destruct (Z.eqb_spec m 0) as [|Hm]; [now left|right].
  assert (Hr : inject_Z m * Num.pow2 e <= inject_Z M).
  { rewrite Zle_Qle, EN in HmN.
    setoid_replace (inject_Z M) with (inject_Z M / Num.pow2 e * Num.pow2 e)
      by (field; lra).
    apply Qmult_le_compat_r; [exact HmN|lra]. }
  assert (Hr0 : 0 < inject_Z m * Num.pow2 e).
  { assert (0 < inject_Z m)
      by (change 0 with (inject_Z 0); rewrite <- Zlt_Qlt; lia).
    nra. }
  rewrite Qle_bool_false.
  - eexists. split; [reflexivity|]. rewrite Qred_correct. split; assumption.
  - eapply Qle_lt_trans; [exact Hr|]. apply pow2_1024_large. lia.
Qed.

(** In the normal range rounding changes a positive real by at most one part
    in [2^53]. *)
Lemma number_value_rel (x : Q) :
  Num.pow2 (-1022) <= x -> x < Num.pow2 1023 ->
  exists q, Num.number_value false x = Fin q /\
            x * (1 - u53) <= q /\ q <= x * (1 + u53).
Proof.
  intros Hlo Hhi.
  assert (Hx : 0 < x) by (assert (P := pow2_pos (-1022)); lra).
  rewrite (number_value_pos Hx). cbv zeta.
  destruct (Qlog2_spec Hx) as [L1 L2].
  set (L := Num.Qlog2 x) in *.
  assert (HL1 : (-1022 <= L)%Z).
  { assert (-1022 < L + 1)%Z; [|lia]. apply pow2_lt_inv. lra. }
  assert (HL2 : (L < 1023)%Z) by (apply pow2_lt_inv; lra).
  rewrite Z.max_l by lia.
  set (e := (L - 52)%Z).
  set (p := Num.pow2 e).
  assert (Pp : 0 < p) by apply pow2_pos.
  set (z := x / p).
  assert (Ez : x == z * p) by (unfold z; field; lra).
  assert (E52 : Num.pow2 L == Num.pow2 52 * p).
  { unfold p. rewrite <- pow2_add. now replace (52 + e)%Z with L by lia. }
  assert (Eu : x * u53 >= (1 # 2) * p).
  { unfold u53.
    assert (Num.pow2 L * Num.pow2 (-53) == (1 # 2) * p).
    { unfold p. rewrite <- pow2_add.
      replace (L + -53)%Z with (-1 + e)%Z by lia.
      rewrite pow2_add. reflexivity. }
    assert (0 < Num.pow2 (-53)) by apply pow2_pos. nra. }
  destruct (rne_bounds z) as [M1 M2]. set (m := Num.rne z) in *.
  assert (Hz : Num.pow2 52 <= z).
  { unfold z. apply Qle_shift_div_l; [exact Pp|lra]. }
  assert (C52 : Num.pow2 52 == 4503599627370496) by reflexivity.
  assert (Hm : 0 < inject_Z m) by lra.
  assert (Hm' : (m =? 0)%Z = false).
  { apply Z.eqb_neq. intro C. rewrite C in Hm. discriminate. }
  rewrite Hm'.
  assert (R1 : x * (1 - u53) <= inject_Z m * p) by nra.
  assert (R2 : inject_Z m * p <= x * (1 + u53)) by nra.
  rewrite Qle_bool_false.
  - eexists. split; [reflexivity|]. rewrite Qred_correct. split; assumption.
  - assert (Num.pow2 1024 == 2 * Num.pow2 1023).
    { change 1024%Z with (1 + 1023)%Z. rewrite pow2_add. reflexivity. }
    assert (u53 <= 1 # 2).
    { apply Qle_bool_imp_le. reflexivity. }
    nra.
Qed.

Lemma number_value_approx (x : Q) :
  1 # 1000000000000000000000000000000 <= x ->
  x <= 1152921504606846976 ->
  exists q, Num.number_value false x = Fin q /\
            x * (999 # 1000) <= q /\ q <= x * (1001 # 1000).
Proof.
  intros Hlo Hhi.
  assert (A1 : Num.pow2 (-1022) <= 1 # 1000000000000000000000000000000)
    by (apply Qle_bool_imp_le; vm_compute; reflexivity).
  assert (A2 : 1152921504606846976 < Num.pow2 1023).
  { rewrite pow2_Z by lia. change 1152921504606846976 with (inject_Z (2 ^ 60)).
    rewrite <- Zlt_Qlt. reflexivity. }
  assert (A3 : u53 <= 1 # 1000) by (apply Qle_bool_imp_le; reflexivity).
  assert (A4 : 0 <= u53) by (apply Qlt_le_weak, pow2_pos).
  destruct (@number_value_rel x) as (q & E & Q1 & Q2); [lra|lra|].
  exists q. split; [exact E|]. split; nra.
Qed.

Lemma round_within (q : Q) :
  0 < q -> q < 100 + (1 # 2) -> within_0_100 (Num.round (Fin q)).
Proof.
  intros H1 H2. cbn [Num.round]. cbv zeta.
  assert (F1 := Qfloor_le (q + (1 # 2))).
  assert (N0 : (0 <= Qfloor (q + (1 # 2)))%Z).
  { change 0%Z with (Qfloor 0). apply Qfloor_resp_le. lra. }
  assert (N1 : (Qfloor (q + (1 # 2)) < 101)%Z).
  { rewrite Zlt_Qlt. change (inject_Z 101) with 101. lra. }
  destruct (Z.eqb_spec (Qfloor (q + (1 # 2))) 0) as [E|E].
  - left. now rewrite (Qneg_pos H1).
  - right. eexists. split; [|reflexivity]. lia.
Qed.

Lemma inject_nat_pos (n : nat) : 0 < inject_Z (Z.of_nat (S n)).
Proof. change 0 with (inject_Z 0). rewrite <- Zlt_Qlt. lia. Qed.

Lemma inject_nat_le (a b : nat) :
  (a <= b)%nat -> inject_Z (Z.of_nat a) <= inject_Z (Z.of_nat b).
Proof. intro H. rewrite <- Zle_Qle. lia. Qed.

(** [Math.round((a / b) * 100)] of two counters [a <= b] is a whole
    percentage. *)
Lemma percent_within (a b : nat) :
  (a <= b)%nat -> (0 < b)%nat -> within_0_100 (percent a b).
Proof.
  intros Hab Hb. unfold percent.
  destruct b as [|b]; [lia|]. destruct a as [|a]; [now left|].
  cbn [Num.of_count Num.div].
  assert (Pa := inject_nat_pos a). assert (Pb := inject_nat_pos b).
  assert (Lab := inject_nat_le Hab).
  change (Z.of_nat (S a) # 1) with (inject_Z (Z.of_nat (S a))).
  change (Z.of_nat (S b) # 1) with (inject_Z (Z.of_nat (S b))).
  set (qa := inject_Z (Z.of_nat (S a))) in *.
  set (qb := inject_Z (Z.of_nat (S b))) in *.
  assert (D0 : 0 < qa / qb) by (apply Qlt_shift_div_l; lra).
  assert (D1 : qa / qb <= inject_Z 1).
  { apply Qle_shift_div_r; [exact Pb|]. change (inject_Z 1) with 1. lra. }
  destruct (number_value_le_int D0 D1) as [->|(q & -> & Q0 & Q1)];
    [reflexivity|now left|].
  change Calculations.hundred with (Fin (100 # 1)). cbn [Num.mul].
  change (inject_Z 1) with 1 in Q1.
  assert (M0 : 0 < q * (100 # 1)) by lra.
  assert (M1 : q * (100 # 1) <= inject_Z 100)
    by (change (inject_Z 100) with 100; lra).
  destruct (number_value_le_int M0 M1) as [->|(q' & -> & Q0' & Q1')];
    [reflexivity|now left|].
  change (inject_Z 100) with 100 in Q1'.
  apply round_within; lra.
Qed.

Lemma literal_06 : Num.number_value false (6 # 10) = Fin a06.
Proof. vm_compute. reflexivity. Qed.

Lemma literal_04 : Num.number_value false (4 # 10) = Fin a04.
Proof. vm_compute. reflexivity. Qed.

(** The weighted score of counters [s <= c <= t] is a whole percentage. *)
Lemma overall_within (c s t : nat) :
  (s <= c)%nat -> (c <= t)%nat -> (0 < t)%nat ->
  (Z.of_nat t < 2 ^ 53)%Z ->
  within_0_100
    (Num.round
       (Num.mul
          (Num.div
             (Num.add
                (Num.mul (Num.of_count c) (Num.number_value false (6 # 10)))
                (Num.mul (Num.of_count s) (Num.number_value false (4 # 10))))
             (Num.of_count t))
          Calculations.hundred)).
Proof.
  intros Hsc Hct Ht Hb. rewrite literal_06, literal_04.
  destruct t as [|t]; [lia|]. destruct c as [|c].
  { assert (s = 0%nat) as -> by lia. now left. }
  cbn [Num.of_count].
  assert (Pc := inject_nat_pos c). assert (Pt := inject_nat_pos t).
  assert (Lct := inject_nat_le Hct).
  assert (Lsc := inject_nat_le Hsc).
  assert (Bt : inject_Z (Z.of_nat (S t)) <= 9007199254740992).
  { change 9007199254740992 with (inject_Z (2 ^ 53)).
    rewrite <- Zle_Qle. lia. }
  assert (C1 : 1 <= inject_Z (Z.of_nat (S c))).
  { change 1 with (inject_Z 1). rewrite <- Zle_Qle. lia. }
  change (Z.of_nat (S c) # 1) with (inject_Z (Z.of_nat (S c))).
  change (Z.of_nat (S t) # 1) with (inject_Z (Z.of_nat (S t))).
  set (qc := inject_Z (Z.of_nat (S c))) in *.
  set (qt := inject_Z (Z.of_nat (S t))) in *.
  assert (Ea : a06 + a04 == 1) by reflexivity.
  unfold a06, a04 in *.
  cbn [Num.mul].
  destruct (@number_value_approx
              (qc * (5404319552844595 # 9007199254740992)))
    as (qA & -> & A1 & A2); [lra|lra|].
  (* the sum *)
  assert (HS : exists qS,
             Num.add (Fin qA)
               (Num.mul (Num.of_count s)
                        (Fin (3602879701896397 # 9007199254740992)))
             = Fin qS /\
             1 # 2 <= qS /\ qS <= qc * (1002001 # 1000000)).
  { destruct s as [|s].
    - cbn. exists qA. split; [reflexivity|]. split; lra.
    - cbn [Num.of_count Num.mul].
      assert (Ps := inject_nat_pos s).
      assert (S1 : 1 <= inject_Z (Z.of_nat (S s))).
      { change 1 with (inject_Z 1). rewrite <- Zle_Qle. lia. }
      change (Z.of_nat (S s) # 1) with (inject_Z (Z.of_nat (S s))).
      set (qs := inject_Z (Z.of_nat (S s))) in *.
      destruct (@number_value_approx
                  (qs * (3602879701896397 # 9007199254740992)))
        as (qB & -> & B1 & B2); [lra|lra|].
      cbn [Num.add].
      destruct (@number_value_approx (qA + qB))
        as (qS & -> & S2 & S3); [lra|lra|].
      exists qS. split; [reflexivity|]. split; lra. }
  destruct HS as (qS & -> & S1 & S2).
  cbn [Num.div].
  assert (D1 : 1 # 36028797018963968 <= qS / qt).
  { apply Qle_shift_div_l; [exact Pt|]. lra. }
  assert (D2 : qS / qt <= 1002001 # 1000000).
  { apply Qle_shift_div_r; [exact Pt|]. lra. }
  destruct (@number_value_approx (qS / qt)) as (qD & -> & E1 & E2);
    [lra|lra|].
  change Calculations.hundred with (Fin (100 # 1)). cbn [Num.mul].
  destruct (@number_value_approx (qD * (100 # 1))) as (qP & -> & P1 & P2);
    [lra|lra|].
  apply round_within; lra.
Qed.

End NumberFacts.

(** ** Strings *)

Lemma Str_eqb_eq (s t : jsstring) : Str.eqb s t = true <-> s = t.
Proof.
  unfold Str.eqb. destruct (list_eq_dec N.eq_dec s t); split; congruence.
Qed.

Lemma Str_eqb_refl (s : jsstring) : Str.eqb s s = true.
Proof. now apply Str_eqb_eq. Qed.

Lemma startsWith_In (p s : jsstring) :
  Str.startsWith s p = true -> forall c, In c p -> In c s.
Proof.
  revert s. induction p as [|d p IH]; intros s H c Hc; [easy|].
  destruct s as [|e s]; [discriminate|]. simpl in H.
  apply andb_prop in H as [Hd Hp]. apply N.eqb_eq in Hd. subst e.
  destruct Hc as [<-|Hc]; [now left|right; eauto].
Qed.

Lemma includes_In (s p : jsstring) :
  Str.includes s p = true -> forall c, In c p -> In c s.
Proof.
  induction s as [|e s IH]; intros H c Hc; cbn [Str.includes] in H.
  - rewrite orb_false_r in H. destruct p; [easy|discriminate].
  - apply orb_prop in H as [H|H].
    + exact (startsWith_In _ _ H c Hc).
    + right. eauto.
Qed.

(** Lower-cased text holds no capital Basic Latin letter. *)
Lemma toLowerCase_no_capital (s : jsstring) (c : N) :
  In c (Str.toLowerCase s) -> ~ (65 <= c <= 90)%N.
Proof.
  unfold Str.toLowerCase. rewrite in_map_iff. intros [d [<- _]].
  unfold Str.lower_unit.
  destruct ((65 <=? d) && (d <=? 90))%N eqn:E.
  - apply andb_prop in E as [E1 E2].
    apply N.leb_le in E1, E2. lia.
  - destruct (N.eqb_spec d 8490); [lia|].
    intros [H1 H2]. apply N.leb_le in H1, H2. rewrite H1, H2 in E.
    discriminate.
Qed.

(** A pattern with a capital letter is never found in lower-cased text. *)
Lemma includes_capital_false (s p : jsstring) (c : N) :
  In c p -> (65 <= c <= 90)%N ->
  Str.includes (Str.toLowerCase s) p = false.
Proof.
  intros Hc Hr. destruct (Str.includes _ p) eqn:E; [|reflexivity].
  exfalso. eapply toLowerCase_no_capital; [|exact Hr].
  eapply includes_In; eauto.
Qed.

Lemma yes_no_marker_never_found (s : jsstring) :
  Str.includes (Str.toLowerCase s) (str "(Yes/No)") = false.
Proof.
  apply includes_capital_false with (c := 89%N); [|lia].
  vm_compute. tauto.
Qed.

Lemma check_all_marker_never_found (s : jsstring) :
  Str.includes (Str.toLowerCase s) (str "Check all that apply") = false.
Proof.
  apply includes_capital_false with (c := 67%N); [|lia].
  vm_compute. tauto.
Qed.

(** ** The field configuration factory *)

(** An undefined or null method is treated as the empty text. *)
Lemma createFieldConfig_no_method indicatorName :
  createFieldConfig indicatorName None
  = createFieldConfig indicatorName (Some []).
Proof. reflexivity. Qed.

(** The multi-part rule compares lower-cased method text with mixed-case
    markers, so no input reaches it. *)
Lemma createFieldConfig_never_multi_part indicatorName measurementMethod :
  type (createFieldConfig indicatorName measurementMethod)
  <> str "multi_part".
Proof.
  destruct measurementMethod as [m|];
    [|rewrite createFieldConfig_no_method; set (m := @nil N)].
  all: unfold createFieldConfig.
  all: rewrite (yes_no_marker_never_found m), andb_false_l.
  all: repeat match goal with
              | |- context [if ?b then _ else _] => destruct b
              end; vm_compute; discriminate.
Qed.

(** C1, at the input ("Employee Programs", a method text holding both the
    "(Yes/No)" and the "Check all that apply" markers): the factory returns
    the plain yes/no RADIO configuration, with no dependent CHECKBOX field,
    and not the multi_part configuration. *)
Theorem createFieldConfig_universal_method_is_radio :
  Str.includes universal_method (str "(Yes/No)") = true /\
  Str.includes universal_method (str "Check all that apply") = true /\
  createFieldConfig (str "Employee Programs") (Some universal_method)
  = simple_config FieldTypes.RADIO None (Some StandardOptions.yesNo) None
      [ValidationRules.required] None /\
  type (createFieldConfig (str "Employee Programs") (Some universal_method))
  <> str "multi_part".
Proof.
  repeat split; try (vm_compute; reflexivity).
  apply createFieldConfig_never_multi_part.
Qed.

(** C8, at the input ("Employee wellness benefits", "Which benefits are
    offered? (Check all that apply)"): the factory returns a CHECKBOX over
    the collaboration-types catalog, through the generic checkbox rule, and
    not over the employee-benefits catalog. *)
Theorem createFieldConfig_benefits_method_is_generic_checkbox :
  Str.includes (Str.toLowerCase (str "Employee wellness benefits"))
               (str "wellness") = true /\
  Str.includes benefits_method (str "Check all that apply") = true /\
  createFieldConfig (str "Employee wellness benefits") (Some benefits_method)
  = simple_config FieldTypes.CHECKBOX None
      (Some StandardOptions.collaborationTypes) None
      [ValidationRules.required] None /\
  options (createFieldConfig (str "Employee wellness benefits")
                             (Some benefits_method))
  <> Some StandardOptions.employeeBenefits.
Proof.
  repeat split; try (vm_compute; reflexivity).
  vm_compute. discriminate.
Qed.

(** ** The indicator compiler *)

(** C10: on a null, undefined or empty row set the compiler returns the empty
    indicator list; it throws nothing. *)
Theorem generateStandardizedFields_no_rows :
  generateStandardizedFields None = Return [] /\
  generateStandardizedFields (Some []) = Return [].
Proof. split; reflexivity. Qed.

Lemma fold_left_push (A B : Type) (g : A -> B) (l : list A) (acc : list B) :
  fold_left (fun fs x => fs ++ [g x]) l acc = acc ++ map g l.
Proof.
  revert acc. induction l as [|x l IH]; intro acc; simpl.
  - now rewrite app_nil_r.
  - now rewrite IH, <- app_assoc.
Qed.

Lemma trim_empty : Str.trim [] = [].
Proof. reflexivity. Qed.

(** The loop over the rows keeps, in order, the rows whose indicator cell is
    not blank. *)
Lemma compile_rows_spec (col : jsstring) (methodCol notesCol : option jsstring)
    (rows : list Row) (index : nat) (indicators : list Indicator) :
  compile_rows (Some col) methodCol notesCol rows index indicators
  = indicators
    ++ map (indicator_of col methodCol notesCol)
           (filter (fun ir => nonblank (lookup col (snd ir)))
                   (combine (seq index (List.length rows)) rows)).
Proof.
  revert index indicators.
  induction rows as [|row rows IH]; intros index indicators.
  - cbn. now rewrite app_nil_r.
  - cbn [compile_rows List.length seq combine filter snd].
    rewrite IH. unfold compile_row. cbn [get].
    destruct (lookup col row) as [[|c text]|] eqn:E; cbn [nonblank].
    + reflexivity.
    + destruct (Str.eqb (Str.trim (c :: text)) []); cbn [negb map].
      * reflexivity.
      * rewrite <- app_assoc. cbn [app]. unfold indicator_of at 2.
        cbn [fst snd]. rewrite E. reflexivity.
    + reflexivity.
Qed.

Lemma find_existsb (A : Type) (f : A -> bool) (l : list A) :
  existsb f l = true -> exists x, find f l = Some x /\ f x = true.
Proof.
  induction l as [|a l IH]; simpl; [discriminate|].
  destruct (f a) eqn:E; [eauto|exact IH].
Qed.

Lemma find_none_existsb (A : Type) (f : A -> bool) (l : list A) :
  find f l = None <-> existsb f l = false.
Proof.
  induction l as [|a l IH]; simpl; [tauto|].
  destruct (f a); [split; discriminate|exact IH].
Qed.

(** With an indicator column, compilation returns the surviving rows'
    indicators. *)
Lemma generateStandardizedFields_spec (firstRow : Row) (rest : list Row)
    (col : jsstring) :
  find is_indicator_header (keys firstRow) = Some col ->
  generateStandardizedFields (Some (firstRow :: rest))
  = Return
      (map (indicator_of col
              (find is_method_header (keys firstRow))
              (find is_notes_header (keys firstRow)))
           (surviving col (firstRow :: rest))).
Proof.
  intro H. unfold generateStandardizedFields. rewrite H.
  now rewrite compile_rows_spec.
Qed.

(** C2: with an indicator column in the first row's headers, the compiler
    returns one indicator for each row whose indicator cell is not blank, in
    row order, blank rows being skipped; each has the id indicator_<index>
    of its row position and the trimmed cell as its title. *)
Theorem generateStandardizedFields_one_per_nonblank_row
    (firstRow : Row) (rest : list Row) :
  existsb is_indicator_header (keys firstRow) = true ->
  exists col indicators,
    find is_indicator_header (keys firstRow) = Some col /\
    generateStandardizedFields (Some (firstRow :: rest)) = Return indicators /\
    map (fun i => (i_id i, i_title i)) indicators
    = map (fun ir => (str "indicator_" ++ Str.of_index (fst ir),
                      Str.trim (or_empty (lookup col (snd ir)))))
          (surviving col (firstRow :: rest)).
Proof.
  intro H. destruct (find_existsb _ _ H) as (col & Hf & _).
  exists col. eexists. split; [exact Hf|]. split.
  - exact (generateStandardizedFields_spec _ rest Hf).
  - rewrite map_map. reflexivity.
Qed.

Lemma generateStandardizedFields_one_per_nonblank_row_witness :
  existsb is_indicator_header (keys (hd [] sample_rows)) = true /\
  exists col indicators,
    find is_indicator_header (keys (hd [] sample_rows)) = Some col /\
    generateStandardizedFields (Some sample_rows) = Return indicators /\
    map (fun i => (i_id i, i_title i)) indicators
    = map (fun ir => (str "indicator_" ++ Str.of_index (fst ir),
                      Str.trim (or_empty (lookup col (snd ir)))))
          (surviving col sample_rows).
Proof.
  split; [reflexivity|].
  apply (generateStandardizedFields_one_per_nonblank_row
           (hd [] sample_rows) (tl sample_rows)).
  reflexivity.
Defined.

(** The missing-column error is thrown exactly when no header of the first
    row names an indicator column, and its message lists the headers. *)
Lemma generateStandardizedFields_throws_iff (firstRow : Row) (rest : list Row) :
  (existsb is_indicator_header (keys firstRow) = false ->
   generateStandardizedFields (Some (firstRow :: rest))
   = Throw (str "No indicator column found. Available columns: "
            ++ Str.join (str ", ") (keys firstRow))) /\
  (existsb is_indicator_header (keys firstRow) = true ->
   exists indicators,
     generateStandardizedFields (Some (firstRow :: rest)) = Return indicators).
Proof.
  split; intro H.
  - apply find_none_existsb in H. unfold generateStandardizedFields.
    now rewrite H.
  - destruct (find_existsb _ _ H) as (col & Hf & _).
    eexists. exact (generateStandardizedFields_spec _ rest Hf).
Qed.

(** Without a method column and with no column named "undefined", every
    method text is empty. *)
Lemma method_text_empty_without_column (row : Row) :
  lookup (str "undefined") row = None -> or_empty (get row None) = [].
Proof. intro H. cbn [get]. now rewrite H. Qed.

(** C3, at the row set [{Indicator: "Clients served", undefined: "how
    many"}]: no header names a method or a notes column, yet the method text
    and the description are the cell of the column named "undefined", not
    the empty text, and the field is classified as a NUMBER by it. *)
Theorem generateStandardizedFields_undefined_column :
  find is_method_header (keys (hd [] undefined_column_rows)) = None /\
  find is_notes_header (keys (hd [] undefined_column_rows)) = None /\
  exists indicator field,
    generateStandardizedFields (Some undefined_column_rows)
    = Return [indicator] /\
    i_fields indicator = [field] /\
    i_description indicator = str "how many" /\
    f_description field = Some (str "how many") /\
    f_type field = FieldTypes.NUMBER.
Proof.
  split; [reflexivity|]. split; [reflexivity|].
  do 2 eexists. vm_compute. repeat split.
Qed.

(** *** Field ids *)

Lemma string_of_uint_digits (d : Decimal.uint) :
  Forall is_digit (str (NilEmpty.string_of_uint d)).
Proof.
  induction d; cbn; constructor; try assumption; unfold is_digit; lia.
Qed.

Lemma of_index_digits (n : nat) : Forall is_digit (Str.of_index n).
Proof. apply string_of_uint_digits. Qed.

Lemma N_of_ascii_inj (a b : ascii) : N_of_ascii a = N_of_ascii b -> a = b.
Proof.
  intro H. rewrite <- (ascii_N_embedding a), <- (ascii_N_embedding b).
  now rewrite H.
Qed.

Lemma str_inj (s t : string) : str s = str t -> s = t.
Proof.
  revert t. induction s as [|a s IH]; intros [|b t] H; try discriminate.
  - reflexivity.
  - cbn in H. injection H as H1 H2.
    apply N_of_ascii_inj in H1. f_equal; [assumption|].
    apply IH. exact H2.
Qed.

Lemma of_index_inj (i j : nat) : Str.of_index i = Str.of_index j -> i = j.
Proof.
  intro H. apply str_inj in H.
  apply Unsigned.to_uint_inj.
  assert (E : Some (Nat.to_uint i) = Some (Nat.to_uint j))
    by now rewrite <- !NilEmpty.usu, H.
  now injection E.
Qed.

(** A run of digits closed by an underscore splits a text in one way. *)
Lemma digits_split (l1 l2 k1 k2 : jsstring) :
  Forall is_digit l1 -> Forall is_digit l2 ->
  l1 ++ underscore ++ k1 = l2 ++ underscore ++ k2 -> l1 = l2 /\ k1 = k2.
Proof.
  intro H1. revert l2. induction H1 as [|c l1 Hc H1 IH]; intros l2 H2 E.
  - destruct H2 as [|d l2 Hd H2]; cbn in E.
    + injection E as E. now split.
    + injection E as E _. unfold is_digit in Hd. lia.
  - destruct H2 as [|d l2 Hd H2]; cbn in E.
    + injection E as E _. unfold is_digit in Hc. lia.
    + injection E as E1 E2. destruct (IH _ H2 E2) as [-> ->].
      now subst.
Qed.

(** A field id determines the row position and the suffix it was built
    from. *)
Lemma field_id_inj (i j : nat) (k1 k2 : jsstring) :
  (str "indicator_" ++ Str.of_index i) ++ underscore ++ k1
  = (str "indicator_" ++ Str.of_index j) ++ underscore ++ k2 ->
  i = j /\ k1 = k2.
Proof.
  rewrite <- !app_assoc. intro E. apply app_inv_head in E.
  apply digits_split in E; try apply of_index_digits.
  destruct E as [E ->]. split; [now apply of_index_inj|reflexivity].
Qed.

Lemma expand_ids (id indicatorText methodText : jsstring)
    (fieldConfig : FieldConfig) :
  map f_id (expand id indicatorText methodText fieldConfig)
  = map (fun k => id ++ underscore ++ k) (suffixes fieldConfig).
Proof.
  unfold expand, suffixes.
  destruct (Str.eqb (type fieldConfig) (str "calculated_group")).
  - rewrite fold_left_push. cbn [app].
    rewrite !map_app, !map_map. f_equal.
    destruct (calculations fieldConfig) as [cs|]; [|reflexivity].
    rewrite fold_left_push. cbn [app]. now rewrite !map_map.
  - destruct (Str.eqb (type fieldConfig) (str "multi_part")).
    + rewrite fold_left_push. cbn [app]. now rewrite !map_map.
    + reflexivity.
Qed.

Ltac distinct_literals :=
  repeat (constructor; [cbn; intuition discriminate|]); constructor.

(** Within one configuration the suffixes are pairwise distinct. *)
Lemma createFieldConfig_suffixes_distinct indicatorName measurementMethod :
  NoDup (suffixes (createFieldConfig indicatorName measurementMethod)).
Proof.
  unfold createFieldConfig.
  repeat match goal with
         | |- context [if ?b then _ else _] => destruct b
         end; vm_compute; distinct_literals.
Qed.

Lemma NoDup_map_fst_filter (A B : Type) (p : A * B -> bool) (l : list (A * B)) :
  NoDup (map fst l) -> NoDup (map fst (filter p l)).
Proof.
  induction l as [|x l IH]; cbn; intro H; [constructor|].
  inversion H as [|? ? Hx Hl]; subst.
  destruct (p x); cbn; [|now apply IH].
  constructor; [|now apply IH].
  intro Hin. apply Hx. apply in_map_iff in Hin as (y & Hy & Hin).
  apply filter_In in Hin as [Hin _]. rewrite <- Hy. now apply in_map.
Qed.

Lemma map_fst_combine_seq (A : Type) (l : list A) (k : nat) :
  map fst (combine (seq k (List.length l)) l) = seq k (List.length l).
Proof.
  revert k. induction l as [|x l IH]; intro k; cbn; [reflexivity|].
  now rewrite IH.
Qed.

Lemma surviving_positions_distinct (col : jsstring) (rows : list Row) :
  NoDup (map fst (surviving col rows)).
Proof.
  unfold surviving. apply NoDup_map_fst_filter.
  rewrite map_fst_combine_seq. apply seq_NoDup.
Qed.

Lemma indicator_of_field_ids col methodCol notesCol (ir : nat * Row) :
  map f_id (i_fields (indicator_of col methodCol notesCol ir))
  = map (fun k => (str "indicator_" ++ Str.of_index (fst ir))
                  ++ underscore ++ k)
        (suffixes
           (createFieldConfig (or_empty (lookup col (snd ir)))
              (Some (or_empty (get (snd ir) methodCol))))).
Proof. unfold indicator_of. cbn [i_fields]. apply expand_ids. Qed.

Lemma indicators_field_ids_distinct col methodCol notesCol
    (l : list (nat * Row)) :
  NoDup (map fst l) ->
  NoDup (all_field_ids (map (indicator_of col methodCol notesCol) l)).
Proof.
  unfold all_field_ids.
  induction l as [|ir l IH]; cbn [map flat_map]; intro H; [constructor|].
  inversion H as [|? ? Hx Hl]; subst.
  apply NoDup_app.
  - rewrite indicator_of_field_ids.
    assert (D := createFieldConfig_suffixes_distinct
                   (or_empty (lookup col (snd ir)))
                   (Some (or_empty (get (snd ir) methodCol)))).
    induction D as [|k ks Hk D IHD]; cbn [map]; constructor; [|exact IHD].
    intro Hin. apply in_map_iff in Hin as (k' & E & Hin).
    apply app_inv_head in E. apply app_inv_head in E. now subst.
  - now apply IH.
  - intros a Ha Hb. rewrite indicator_of_field_ids in Ha.
    apply in_map_iff in Ha as (k & <- & _).
    apply in_flat_map in Hb as (ind & Hind & Hb).
    apply in_map_iff in Hind as (jr & <- & Hjr).
    rewrite indicator_of_field_ids in Hb.
    apply in_map_iff in Hb as (k' & E & _).
    apply field_id_inj in E as [E _].
    apply Hx. rewrite <- E. now apply in_map.
Qed.

Lemma indicator_ids_distinct col methodCol notesCol (l : list (nat * Row)) :
  NoDup (map fst l) ->
  NoDup (map i_id (map (indicator_of col methodCol notesCol) l)).
Proof.
  induction l as [|ir l IH]; cbn [map]; intro H; [constructor|].
  inversion H as [|? ? Hx Hl]; subst.
  constructor; [|now apply IH].
  intro Hin. rewrite map_map in Hin.
  apply in_map_iff in Hin as (jr & E & Hjr).
  cbn [indicator_of i_id] in E. apply app_inv_head in E.
  apply of_index_inj in E. apply Hx. rewrite <- E. now apply in_map.
Qed.

(** C6: in a compiled indicator list every field id is the indicator's id,
    an underscore and a suffix; the indicator ids indicator_<index> are
    pairwise distinct; and all field ids are pairwise distinct across all
    indicators. *)
Theorem generateStandardizedFields_field_ids_unique
    (csvData : option (list Row)) (indicators : list Indicator) :
  generateStandardizedFields csvData = Return indicators ->
  NoDup (all_field_ids indicators) /\
  NoDup (map i_id indicators) /\
  Forall (fun i =>
            (exists index, i_id i = str "indicator_" ++ Str.of_index index) /\
            exists sufs,
              NoDup sufs /\
              map f_id (i_fields i)
              = map (fun suffix => i_id i ++ str "_" ++ suffix) sufs)
         indicators.
Proof.
  destruct csvData as [[|firstRow rest]|]; intro H.
  1, 3: injection H as <-; repeat split; constructor.
  destruct (find is_indicator_header (keys firstRow)) as [col|] eqn:Hf.
  2: { unfold generateStandardizedFields in H. rewrite Hf in H.
       discriminate. }
  rewrite (generateStandardizedFields_spec _ rest Hf) in H.
  injection H as <-.
  split; [|split].
  - apply indicators_field_ids_distinct, surviving_positions_distinct.
  - apply indicator_ids_distinct, surviving_positions_distinct.
  - apply Forall_forall. intros i Hi.
    apply in_map_iff in Hi as (ir & <- & _). split.
    + exists (fst ir). reflexivity.
    + eexists. split; [|apply indicator_of_field_ids].
      apply createFieldConfig_suffixes_distinct.
Qed.

Lemma generateStandardizedFields_field_ids_unique_witness :
  exists indicators,
    generateStandardizedFields (Some sample_rows) = Return indicators /\
    List.length (all_field_ids indicators) = 6%nat /\
    NoDup (all_field_ids indicators).
Proof.
  eexists. split; [vm_compute; reflexivity|]. split; [reflexivity|].
  apply (generateStandardizedFields_field_ids_unique (Some sample_rows)).
  vm_compute; reflexivity.
Defined.

(** ** The calculation functions *)

Lemma falsy_or_zero (d : numeric) :
  negb (numeric_truthy d) || numeric_is_zero d = zero_or_absent d.
Proof. destruct d as [| |[]]; reflexivity. Qed.

Lemma valid_is_valid_number (v : numeric) :
  Calculations.valid v = valid_number v.
Proof. destruct v as [| |[]]; reflexivity. Qed.

(** Each calculation function by cases on its denominator, and the average
    by cases on its valid entries. *)
Lemma calculations_by_cases (x d : numeric) (values : list numeric) :
  Calculations.turnoverRate x d
  = (if zero_or_absent d then Zero false
     else Num.round (Num.mul (Num.div (to_number x) (to_number d))
                             (Num.lit 100))) /\
  Calculations.fundingRatio x d
  = (if zero_or_absent d then Zero false
     else Num.div (Num.round (Num.mul (Num.div (to_number x) (to_number d))
                                      (Num.lit 100)))
                  (Num.lit 100)) /\
  Calculations.corePercentage x d
  = (if zero_or_absent d then Zero false
     else Num.round (Num.mul (Num.div (to_number x) (to_number d))
                             (Num.lit 100))) /\
  Calculations.growthRate x d
  = (if zero_or_absent d then Zero false
     else Num.round
            (Num.mul (Num.div (Num.sub (to_number x) (to_number d))
                              (to_number d))
                     (Num.lit 100))) /\
  Calculations.average values
  = (match filter valid_number values with
     | [] => Zero false
     | entries =>
         Num.div
           (Num.round
              (Num.mul
                 (Num.div
                    (fold_left (fun sum v => Num.add sum (to_number v))
                               entries (Zero false))
                    (Num.of_count (List.length entries)))
                 (Num.lit 100)))
           (Num.lit 100)
     end).
Proof.
  unfold Calculations.turnoverRate, Calculations.fundingRatio,
    Calculations.corePercentage, Calculations.growthRate,
    Calculations.average.
  rewrite !falsy_or_zero.
  rewrite (filter_ext _ _ valid_is_valid_number).
  repeat split; try reflexivity.
  destruct (filter valid_number values); reflexivity.
Qed.

(** *** Magnitudes

    Bounds that binary64 rounding keeps, for the finiteness of the results. *)

Section MagnitudeFacts.
Local Open Scope Q_scope.

Lemma magnitude_finite (B : Q) (x : number) :
  magnitude_le B x -> isFinite x = true.
Proof. destruct x; cbn; tauto. Qed.

Lemma magnitude_weaken (B B' : Q) (x : number) :
  B <= B' -> magnitude_le B x -> magnitude_le B' x.
Proof. destruct x; cbn; intros; try tauto. lra. Qed.

(** Rounding to binary64 does not pass a bound that is itself a binary64
    value. *)
Lemma number_value_magnitude (zneg : bool) (x : Q) (M j : Z) :
  (0 < M < 2 ^ 53)%Z -> (-1074 <= j)%Z ->
  inject_Z M * Num.pow2 j < Num.pow2 1024 ->
  Qabs x <= inject_Z M * Num.pow2 j ->
  magnitude_le (inject_Z M * Num.pow2 j) (Num.number_value zneg x).
Proof.
  intros HM Hj Hov Hx. unfold Num.number_value.
  destruct (Qeq_bool x 0) eqn:E0; [exact I|].
  assert (Nx : ~ x == 0).
  { intro C. apply Qeq_bool_iff in C. congruence. }
  assert (Pa : 0 < Qabs x).
  { assert (N := Qabs_nonneg x).
    destruct (Qle_lt_or_eq _ _ N) as [C|C]; [exact C|].
    exfalso. apply Nx.
    assert (Q : Qabs x <= 0) by (rewrite <- C; apply Qle_refl).
    apply Qabs_Qle_condition in Q. lra. }
  cbv zeta. set (a := Qabs x) in *.
  destruct (Qlog2_spec Pa) as [L1 _].
  set (L := Num.Qlog2 a) in *.
  assert (Pj := pow2_pos j).
  assert (PM : 0 < inject_Z M).
  { change 0 with (inject_Z 0). rewrite <- Zlt_Qlt. lia. }
  assert (HL : (L < 53 + j)%Z).
  { apply pow2_lt_inv. rewrite pow2_add.
    assert (B : inject_Z M < Num.pow2 53).
    { rewrite pow2_Z by lia. rewrite <- Zlt_Qlt. lia. }
    nra. }
  set (e := Z.max (L - 52) (-1074)).
  assert (Hee : (e <= j)%Z) by lia.
  assert (Pee := pow2_pos e).
  assert (Hs : Num.pow2 j == Num.pow2 (j - e) * Num.pow2 e).
  { rewrite <- pow2_add. now replace (j - e + e)%Z with j by lia. }
  assert (Hz : a / Num.pow2 e <= inject_Z (M * 2 ^ (j - e))).
  { rewrite inject_Z_mult, <- pow2_Z by lia.
    apply Qle_shift_div_r; [exact Pee|].
    rewrite <- Qmult_assoc, <- Hs. exact Hx. }
  assert (Hm := rne_le_int Hz).
  assert (Hm0 : (0 <= Num.rne (a / Num.pow2 e))%Z).
  { apply rne_nonneg. apply Qle_shift_div_l; [exact Pee|]. lra. }
  set (m := Num.rne (a / Num.pow2 e)) in *.
  destruct (Z.eqb_spec m 0); [exact I|].
  assert (Hr0 : 0 <= inject_Z m * Num.pow2 e).
  { assert (0 <= inject_Z m)
      by (change 0 with (inject_Z 0); rewrite <- Zle_Qle; lia).
    nra. }
  assert (Hr : inject_Z m * Num.pow2 e <= inject_Z M * Num.pow2 j).
  { assert (B : inject_Z m <= inject_Z (M * 2 ^ (j - e)))
      by (rewrite <- Zle_Qle; exact Hm).
    rewrite inject_Z_mult, <- pow2_Z in B by lia.
    rewrite Hs. nra. }
  set (r := inject_Z m * Num.pow2 e) in *.
  assert (O : Qle_bool (Num.pow2 1024) r = false).
  { apply Qle_bool_false. lra. }
  rewrite O. cbn [magnitude_le]. rewrite Qred_correct.
  destruct (Num.Qneg x).
  - rewrite Qabs_opp, Qabs_pos; assumption.
  - rewrite Qabs_pos; assumption.
Qed.

Lemma neg_magnitude (B : Q) (x : number) :
  magnitude_le B x -> magnitude_le B (Num.neg x).
Proof.
  destruct x as [| | |q]; cbn [Num.neg magnitude_le]; try tauto.
  intro H. now rewrite Qred_correct, Qabs_opp.
Qed.

Lemma round_magnitude (B : Q) (x : number) :
  magnitude_le B x -> magnitude_le (B + 1) (Num.round x).
Proof.
  destruct x as [| | |q]; cbn [Num.round magnitude_le]; try tauto.
  intro H. cbv zeta.
  assert (F1 := Qfloor_le (q + (1 # 2))).
  assert (F2 := Qlt_floor (q + (1 # 2))).
  rewrite inject_Z_plus in F2. change (inject_Z 1) with 1 in F2.
  destruct (Qfloor (q + (1 # 2)) =? 0)%Z; [exact I|].
  cbn [magnitude_le].
  change (Qfloor (q + (1 # 2)) # 1) with (inject_Z (Qfloor (q + (1 # 2)))).
  apply Qabs_Qle_condition in H. apply Qabs_Qle_condition. lra.
Qed.

Lemma mul_magnitude (x y : number) (Bx By : Q) (M j : Z) :
  magnitude_le Bx x -> magnitude_le By y ->
  (0 < M < 2 ^ 53)%Z -> (-1074 <= j)%Z ->
  inject_Z M * Num.pow2 j < Num.pow2 1024 ->
  Bx * By <= inject_Z M * Num.pow2 j ->
  magnitude_le (inject_Z M * Num.pow2 j) (Num.mul x y).
Proof.
  destruct x as [| | |p], y as [| | |q]; cbn [Num.mul magnitude_le];
    try tauto.
  intros Hp Hq HM Hj Hov HB.
  apply number_value_magnitude; try assumption.
  rewrite Qabs_Qmult.
  assert (Np := Qabs_nonneg p). assert (Nq := Qabs_nonneg q). nra.
Qed.

Lemma div_magnitude (x : number) (q Bx c : Q) (M j : Z) :
  magnitude_le Bx x -> 0 < c -> c <= Qabs q ->
  (0 < M < 2 ^ 53)%Z -> (-1074 <= j)%Z ->
  inject_Z M * Num.pow2 j < Num.pow2 1024 ->
  Bx <= inject_Z M * Num.pow2 j * c ->
  magnitude_le (inject_Z M * Num.pow2 j) (Num.div x (Fin q)).
Proof.
  destruct x as [| | |p]; cbn [Num.div magnitude_le]; try tauto.
  intros Hp Hc Hq HM Hj Hov HB.
  apply number_value_magnitude; try assumption.
  unfold Qdiv. rewrite Qabs_Qmult, Qabs_Qinv.
  assert (Np := Qabs_nonneg p).
  assert (PT : 0 < inject_Z M * Num.pow2 j).
  { assert (Pj := pow2_pos j).
    assert (0 < inject_Z M)
      by (change 0 with (inject_Z 0); rewrite <- Zlt_Qlt; lia).
    nra. }
  apply Qle_shift_div_r; [lra|]. nra.
Qed.

Lemma add_magnitude (x y : number) (Bx By : Q) (M j : Z) :
  magnitude_le Bx x -> magnitude_le By y ->
  0 <= Bx -> 0 <= By ->
  (0 < M < 2 ^ 53)%Z -> (-1074 <= j)%Z ->
  inject_Z M * Num.pow2 j < Num.pow2 1024 ->
  Bx + By <= inject_Z M * Num.pow2 j ->
  magnitude_le (inject_Z M * Num.pow2 j) (Num.add x y).
Proof.
  destruct x as [| | |p], y as [| | |q]; cbn [Num.add magnitude_le];
    try tauto.
  - intros _ Hq Nx Ny HM Hj Hov HB. lra.
  - intros Hp _ Nx Ny HM Hj Hov HB. lra.
  - intros Hp Hq Nx Ny HM Hj Hov HB.
    apply number_value_magnitude; try assumption.
    assert (T := Qabs_triangle p q). lra.
Qed.

End MagnitudeFacts.

Section FiniteResults.
Local Open Scope Q_scope.

Lemma pow2_sum (a b c : Z) :
  (a + b)%Z = c -> Num.pow2 a * Num.pow2 b == Num.pow2 c.
Proof. intros <-. symmetry. apply pow2_add. Qed.

Lemma below_1024 (M j : Z) :
  (0 < M <= 128)%Z -> (j <= 1010)%Z ->
  inject_Z M * Num.pow2 j < Num.pow2 1024.
Proof.
  intros HM Hj.
  assert (P := pow2_pos j). assert (L := pow2_le Hj).
  assert (B : inject_Z M <= 128) by (change 128 with (inject_Z 128);
                                     rewrite <- Zle_Qle; lia).
  assert (E : 128 * Num.pow2 1010 < Num.pow2 1024)
    by (apply Qlt_alt; vm_compute; reflexivity).
  assert (0 < inject_Z M)
    by (change 0 with (inject_Z 0); rewrite <- Zlt_Qlt; lia).
  assert (P' := pow2_pos 1010). nra.
Qed.

(** [Math.round((x / q) * 100)] and the same divided by 100, for [x] of
    magnitude at most [2^k] and [q] of magnitude at least [2^-500]. *)
Lemma rate_magnitude (x : number) (q : Q) (k : Z) :
  (0 <= k <= 501)%Z ->
  magnitude_le (Num.pow2 k) x -> Num.pow2 (-500) <= Qabs q ->
  magnitude_le (100 * Num.pow2 (k + 500) + 1)
    (Num.round (Num.mul (Num.div x (Fin q)) (Num.lit 100))).
Proof.
  intros Hk Hx Hq.
  assert (P1 := pow2_pos (-500)). assert (P2 := pow2_pos (k + 500)).
  assert (E : Num.pow2 (k + 500) * Num.pow2 (-500) == Num.pow2 k)
    by (apply pow2_sum; lia).
  assert (D : magnitude_le (inject_Z 1 * Num.pow2 (k + 500))
                           (Num.div x (Fin q))).
  { apply (@div_magnitude x q (Num.pow2 k) (Num.pow2 (-500)) 1 (k + 500));
      [exact Hx|exact P1|exact Hq|lia|lia|apply below_1024; lia|].
    change (inject_Z 1) with 1. rewrite Qmult_1_l, E. apply Qle_refl. }
  assert (H : magnitude_le (inject_Z 100 * Num.pow2 (k + 500))
                (Num.mul (Num.div x (Fin q)) (Num.lit 100))).
  { apply (@mul_magnitude _ (Num.lit 100) (inject_Z 1 * Num.pow2 (k + 500))
                          100 100 (k + 500));
      [exact D|apply Qle_bool_imp_le; reflexivity|lia|lia
      |apply below_1024; lia|].
    change (inject_Z 1) with 1. change (inject_Z 100) with 100. lra. }
  apply round_magnitude in H.
  change (inject_Z 100) with 100 in H. exact H.
Qed.

Lemma ratio_magnitude (x : number) (q : Q) (k : Z) :
  (0 <= k <= 501)%Z ->
  magnitude_le (Num.pow2 k) x -> Num.pow2 (-500) <= Qabs q ->
  isFinite
    (Num.div (Num.round (Num.mul (Num.div x (Fin q)) (Num.lit 100)))
             (Num.lit 100)) = true.
Proof.
  intros Hk Hx Hq. assert (H := @rate_magnitude x q k Hk Hx Hq).
  assert (P2 := pow2_pos (k + 500)).
  assert (L : 1 <= Num.pow2 (k + 500)).
  { change 1 with (Num.pow2 0). apply pow2_le. lia. }
  apply (@magnitude_finite (inject_Z 2 * Num.pow2 (k + 500))).
  change (Num.lit 100) with (Fin (100 # 1)) at 2.
  apply (@div_magnitude _ (100 # 1) (100 * Num.pow2 (k + 500) + 1) 100 2
                        (k + 500));
    [exact H|reflexivity|apply Qle_bool_imp_le; reflexivity|lia|lia
    |apply below_1024; lia|].
  change (inject_Z 2) with 2. lra.
Qed.

Lemma sum_magnitude (entries : list numeric) :
  forall (k : nat) (acc : number),
    magnitude_le (inject_Z (Z.of_nat (S k)) * Num.pow2 500) acc ->
    Forall ordinary entries ->
    (Z.of_nat (S k + List.length entries) < 2 ^ 53)%Z ->
    magnitude_le
      (inject_Z (Z.of_nat (S k + List.length entries)) * Num.pow2 500)
      (fold_left (fun sum val => Num.add sum (to_number val)) entries acc).
Proof.
  induction entries as [|v entries IH]; intros k acc Hacc Hall Hn.
  - cbn [List.length fold_left]. now rewrite Nat.add_0_r.
  - cbn [List.length fold_left]. inversion Hall as [|? ? Hv Hrest]; subst.
    cbn [List.length] in Hn.
    replace (S k + S (List.length entries))%nat
      with (S (S k) + List.length entries)%nat by lia.
    apply IH; [|exact Hrest|lia].
    assert (P := pow2_pos 500).
    assert (K : 0 < inject_Z (Z.of_nat (S k))) by apply inject_nat_pos.
    assert (E : inject_Z (Z.of_nat (S (S k)))
                == inject_Z (Z.of_nat (S k)) + 1).
    { change 1 with (inject_Z 1). rewrite <- inject_Z_plus.
      apply inject_Z_injective. lia. }
    apply (@add_magnitude acc (to_number v)
             (inject_Z (Z.of_nat (S k)) * Num.pow2 500) (Num.pow2 500)
             (Z.of_nat (S (S k))) 500);
      [exact Hacc|exact Hv|nra|lra|lia|lia| |rewrite E; lra].
    assert (B : inject_Z (Z.of_nat (S (S k))) < Num.pow2 53).
    { rewrite pow2_Z by lia. rewrite <- Zlt_Qlt. lia. }
    assert (F : Num.pow2 53 * Num.pow2 500 < Num.pow2 1024)
      by (apply Qlt_alt; vm_compute; reflexivity).
    assert (P' := pow2_pos 53). nra.
Qed.

Lemma average_finite (values : list numeric) :
  Forall (fun v => valid_number v = true -> ordinary v) values ->
  (Z.of_nat (List.length values) < 2 ^ 52)%Z ->
  isFinite (Calculations.average values) = true.
Proof.
  intros Hall Hn.
  destruct (calculations_by_cases NUndefined NUndefined values)
    as (_ & _ & _ & _ & ->).
  assert (Hf : Forall ordinary (filter valid_number values)).
  { apply Forall_forall. intros v Hv. apply filter_In in Hv as [Hv1 Hv2].
    rewrite Forall_forall in Hall. now apply Hall. }
  assert (Hl := filter_length_le valid_number values).
  destruct (filter valid_number values) as [|v entries] eqn:E;
    [reflexivity|].
  clear E. cbv beta iota.
  assert (Hn0 : (0 < List.length (v :: entries))%nat) by (cbn; lia).
  set (l := v :: entries) in *. clearbody l.
  set (n := List.length l) in *.
  assert (HS := @sum_magnitude l 0 (Zero false) I Hf).
  fold n in HS. specialize (HS ltac:(lia)).
  assert (P := pow2_pos 500).
  assert (Q1 : 1 <= inject_Z (Z.of_nat n)).
  { change 1 with (inject_Z 1). rewrite <- Zle_Qle. lia. }
  assert (E1 : inject_Z (Z.of_nat (1 + n)) == inject_Z (Z.of_nat n) + 1).
  { change 1 with (inject_Z 1). rewrite <- inject_Z_plus.
    apply inject_Z_injective. lia. }
  assert (E2 : Num.pow2 501 == 2 * Num.pow2 500).
  { rewrite <- (@pow2_sum 1 500 501) by lia. reflexivity. }
  assert (D : magnitude_le (Num.pow2 501)
                (Num.div
                   (fold_left (fun sum val => Num.add sum (to_number val))
                              l (Zero false))
                   (Num.of_count n))).
  { destruct n as [|n']; [lia|]. cbn [Num.of_count].
    apply (@magnitude_weaken (inject_Z 1 * Num.pow2 501));
      [change (inject_Z 1) with 1; lra|].
    apply (@div_magnitude _ (Z.of_nat (S n') # 1)
             (inject_Z (Z.of_nat (1 + S n')) * Num.pow2 500)
             (inject_Z (Z.of_nat (S n'))) 1 501);
      [exact HS|lra| |lia|lia|apply below_1024; lia|].
    - change (Z.of_nat (S n') # 1) with (inject_Z (Z.of_nat (S n'))).
      rewrite Qabs_pos by lra. apply Qle_refl.
    - change (inject_Z 1) with 1. rewrite Qmult_1_l, E2, E1. nra. }
  assert (Hq : Num.pow2 (-500) <= Qabs 1).
  { apply Qle_bool_imp_le. vm_compute. reflexivity. }
  assert (M : magnitude_le (inject_Z 100 * Num.pow2 501)
                (Num.mul
                   (Num.div
                      (fold_left (fun sum val => Num.add sum (to_number val))
                                 l (Zero false))
                      (Num.of_count n))
                   (Num.lit 100))).
  { apply (@mul_magnitude _ (Num.lit 100) (Num.pow2 501) 100 100 501);
      [exact D|apply Qle_bool_imp_le; reflexivity|lia|lia
      |apply below_1024; lia|].
    change (inject_Z 100) with 100. lra. }
  apply round_magnitude in M. change (inject_Z 100) with 100 in M.
  assert (P1 := pow2_pos 501).
  assert (L : 1 <= Num.pow2 501).
  { change 1 with (Num.pow2 0). apply pow2_le. lia. }
  apply (@magnitude_finite (inject_Z 2 * Num.pow2 501)).
  change (Num.lit 100) with (Fin (100 # 1)) at 2.
  apply (@div_magnitude _ (100 # 1) (100 * Num.pow2 501 + 1) 100 2 501);
    [exact M|reflexivity|apply Qle_bool_imp_le; reflexivity|lia|lia
    |apply below_1024; lia|].
  change (inject_Z 2) with 2. lra.
Qed.

End FiniteResults.

Section FiniteRates.
Local Open Scope Q_scope.

Lemma rates_finite (x d : numeric) :
  ordinary x -> ordinary_denominator d ->
  isFinite (Calculations.turnoverRate x d) = true /\
  isFinite (Calculations.fundingRatio x d) = true /\
  isFinite (Calculations.corePercentage x d) = true /\
  isFinite (Calculations.growthRate x d) = true.
Proof.
  unfold ordinary, ordinary_denominator. intros Hx Hd.
  destruct (calculations_by_cases x d []) as (-> & -> & -> & -> & _).
  destruct d as [| |[| | |q]]; try contradiction.
  cbn [zero_or_absent to_number] in *. destruct Hd as [Hq1 Hq2].
  assert (R := @rate_magnitude (to_number x) q 500 ltac:(lia) Hx Hq1).
  repeat split.
  - exact (magnitude_finite _ _ R).
  - now apply (@ratio_magnitude (to_number x) q 500).
  - exact (magnitude_finite _ _ R).
  - assert (E : Num.pow2 500 + Num.pow2 500 == Num.pow2 501).
    { rewrite <- (@pow2_sum 1 500 501) by lia.
      change (Num.pow2 1) with 2. ring. }
    assert (P := pow2_pos 500).
    assert (S1 : magnitude_le (Num.pow2 501)
                   (Num.sub (to_number x) (Fin q))).
    { apply (@magnitude_weaken (inject_Z 1 * Num.pow2 501));
        [change (inject_Z 1) with 1; lra|].
      apply (@add_magnitude (to_number x) (Num.neg (Fin q))
               (Num.pow2 500) (Num.pow2 500) 1 501);
        [exact Hx|now apply neg_magnitude|lra|lra|lia|lia
        |apply below_1024; lia|].
      change (inject_Z 1) with 1. lra. }
    exact (magnitude_finite _ _
             (@rate_magnitude _ q 501 ltac:(lia) S1 Hq1)).
Qed.

End FiniteRates.

(** C5 as stated fails where the denominator is usable: a missing numerator
    gives NaN, and a quotient too large for binary64 gives Infinity. *)
Lemma calculations_not_always_finite :
  zero_or_absent (int 5) = false /\
  Calculations.turnoverRate NUndefined (int 5) = NaN /\
  isFinite (Calculations.turnoverRate NUndefined (int 5)) = false /\
  zero_or_absent (int 1) = false /\
  Calculations.turnoverRate (NNum (Fin (2 ^ 1023 # 1))) (int 1)
  = Inf false /\
  isFinite (Calculations.turnoverRate (NNum (Fin (2 ^ 1023 # 1))) (int 1))
  = false.
Proof. repeat split; vm_compute; reflexivity. Qed.

(** C5, amended: each calculation function returns +0 when its denominator
    is zero or absent (undefined, null, NaN or a zero), whatever the
    numerator, and the average returns +0 when no entry is a valid number;
    with a denominator that is present and not zero it returns the
    JavaScript value of the stated formula, which is a finite number
    whenever the arguments are finite numbers of magnitude at most 2^500
    and the denominator's magnitude is at least 2^-500 (for the average:
    whenever its valid entries are such numbers and there are fewer than
    2^52 entries); and the three stated values are as given. *)
Theorem calculations_zero_denominator
    (x d : numeric) (values : list numeric) :
  (zero_or_absent d = true ->
   Calculations.turnoverRate x d = Zero false /\
   Calculations.fundingRatio x d = Zero false /\
   Calculations.corePercentage x d = Zero false /\
   Calculations.growthRate x d = Zero false) /\
  (Forall (fun v => valid_number v = false) values ->
   Calculations.average values = Zero false) /\
  (zero_or_absent d = false ->
   Calculations.turnoverRate x d
   = Num.round (Num.mul (Num.div (to_number x) (to_number d))
                        (Num.lit 100)) /\
   Calculations.fundingRatio x d
   = Num.div (Num.round (Num.mul (Num.div (to_number x) (to_number d))
                                 (Num.lit 100)))
             (Num.lit 100) /\
   Calculations.corePercentage x d
   = Num.round (Num.mul (Num.div (to_number x) (to_number d))
                        (Num.lit 100)) /\
   Calculations.growthRate x d
   = Num.round
       (Num.mul (Num.div (Num.sub (to_number x) (to_number d))
                         (to_number d))
                (Num.lit 100))) /\
  (forall v entries,
      filter valid_number values = v :: entries ->
      Calculations.average values
      = Num.div
          (Num.round
             (Num.mul
                (Num.div
                   (fold_left (fun sum v => Num.add sum (to_number v))
                              (v :: entries) (Zero false))
                   (Num.of_count (List.length (v :: entries))))
                (Num.lit 100)))
          (Num.lit 100)) /\
  (ordinary x -> ordinary_denominator d ->
   isFinite (Calculations.turnoverRate x d) = true /\
   isFinite (Calculations.fundingRatio x d) = true /\
   isFinite (Calculations.corePercentage x d) = true /\
   isFinite (Calculations.growthRate x d) = true) /\
  (Forall (fun v => valid_number v = true -> ordinary v) values ->
   (Z.of_nat (List.length values) < 2 ^ 52)%Z ->
   isFinite (Calculations.average values) = true) /\
  Calculations.turnoverRate (int 3) (int 11) = Fin (27 # 1) /\
  Calculations.fundingRatio (int 75000) (int 150000) = Fin (1 # 2) /\
  Calculations.corePercentage (int 150000) (int 225000) = Fin (67 # 1).
Proof.
  destruct (calculations_by_cases x d values) as (T & F & C & G & A).
  split; [|split; [|split; [|split; [|split; [|split]]]]].
  - intro Hd. rewrite Hd in T, F, C, G.
    repeat split; [exact T|exact F|exact C|exact G].
  - intro Hv. rewrite A.
    assert (E : filter valid_number values = []).
    { clear - Hv. induction Hv as [|v l Hv _ IH]; [reflexivity|].
      cbn [filter]. now rewrite Hv. }
    now rewrite E.
  - intro Hd. rewrite Hd in T, F, C, G.
    repeat split; [exact T|exact F|exact C|exact G].
  - intros v entries E. rewrite A, E. reflexivity.
  - apply rates_finite.
  - apply average_finite.
  - repeat split; vm_compute; reflexivity.
Qed.

Lemma calculations_zero_denominator_witness :
  Calculations.turnoverRate (int 3) NNull = Zero false /\
  isFinite (Calculations.growthRate (int 12) (int 10)) = true /\
  Calculations.average [NNull; NUndefined] = Zero false.
Proof.
  destruct (@calculations_zero_denominator (int 3) NNull [NNull; NUndefined])
    as (H1 & H2 & _).
  destruct (@calculations_zero_denominator (int 12) (int 10) [])
    as (_ & _ & _ & _ & H3 & _).
  split; [apply H1; reflexivity|].
  split; [|apply H2; repeat constructor].
  apply H3.
  - apply Qle_bool_imp_le. vm_compute. reflexivity.
  - split; apply Qle_bool_imp_le; vm_compute; reflexivity.
Defined.

(** A missing numerator, by contrast, is not recovered. *)
Remark turnoverRate_missing_numerator :
  Calculations.turnoverRate NUndefined (int 5) = NaN.
Proof. reflexivity. Qed.

Section RoundingFacts.
Local Open Scope Q_scope.

Lemma round_half_up_spec (q : Q) :
  exists n, is_round_half_up q n /\ Num.round (Fin q) = whole (Num.Qneg q) n.
Proof.
  exists (Qfloor (q + (1 # 2))). split; [|reflexivity].
  assert (F1 := Qfloor_le (q + (1 # 2))).
  assert (F2 := Qlt_floor (q + (1 # 2))).
  rewrite inject_Z_plus in F2. change (inject_Z 1) with 1 in F2.
  split; lra.
Qed.

Lemma Qneg_true (q : Q) : Num.Qneg q = true -> q < 0.
Proof.
  unfold Num.Qneg. intro H. apply Qnot_le_lt. intro C.
  apply Qle_bool_iff in C. rewrite C in H. discriminate.
Qed.

Lemma Qneg_false (q : Q) : Num.Qneg q = false -> 0 <= q.
Proof.
  unfold Num.Qneg. intro H. apply Qle_bool_iff.
  now destruct (Qle_bool 0 q).
Qed.

(** Half-up and half-away-from-zero agree except on the ties of negative
    values. *)
Lemma half_up_is_half_away (q : Q) (n : Z) :
  is_round_half_up q n ->
  0 <= q \/ ~ q + (1 # 2) == inject_Z n ->
  n = round_half_away_from_zero q.
Proof.
  intros [H1 H2] H. unfold round_half_away_from_zero.
  destruct (Num.Qneg q) eqn:E.
  - apply Qneg_true in E.
    destruct H as [H|H]; [lra|].
    assert (S : inject_Z n - (1 # 2) < q).
    { destruct (Qle_lt_or_eq _ _ H1) as [C|C]; [exact C|].
      exfalso. apply H. rewrite <- C. ring. }
    assert (F : Qfloor (- q + (1 # 2)) = (- n)%Z).
    { apply Qfloor_unique; rewrite inject_Z_opp; lra. }
    rewrite F. lia.
  - apply Qneg_false in E. symmetry. apply Qfloor_unique; lra.
Qed.

End RoundingFacts.

(** C9 as stated fails on a tie below zero: growthRate(7, 8) rounds -12.5
    to -12, where rounding half away from zero gives -13. *)
Lemma growthRate_tie_not_away_from_zero :
  Num.mul (Num.div (Num.sub (Num.lit 7) (Num.lit 8)) (Num.lit 8))
          (Num.lit 100) = Fin (-25 # 2) /\
  Calculations.growthRate (int 7) (int 8) = Fin (-12 # 1) /\
  Calculations.growthRate (int 7) (int 8)
  <> Num.lit (round_half_away_from_zero (-25 # 2)).
Proof.
  split; [vm_compute; reflexivity|]. split; [vm_compute; reflexivity|].
  vm_compute. discriminate.
Qed.

(** C9, amended: each calculation function rounds as Math.round does, to
    the nearest whole number with a tie going toward +infinity, which is
    rounding half away from zero except on the ties of negative values;
    growthRate, turnoverRate and corePercentage round the quotient times 100
    to a whole number, fundingRatio and average round it so and divide by
    100. *)
Theorem calculations_round_half_up
    (x d : numeric) (values : list numeric) (q : Q) :
  zero_or_absent d = false ->
  (exists n,
      is_round_half_up q n /\
      Num.round (Fin q) = whole (Num.Qneg q) n /\
      ((0 <= q \/ ~ q + (1 # 2) == inject_Z n)%Q ->
       n = round_half_away_from_zero q)) /\
  Calculations.growthRate x d
  = Num.round
      (Num.mul (Num.div (Num.sub (to_number x) (to_number d)) (to_number d))
               (Num.lit 100)) /\
  Calculations.turnoverRate x d
  = Num.round (Num.mul (Num.div (to_number x) (to_number d)) (Num.lit 100)) /\
  Calculations.corePercentage x d
  = Num.round (Num.mul (Num.div (to_number x) (to_number d)) (Num.lit 100)) /\
  Calculations.fundingRatio x d
  = Num.div
      (Num.round
         (Num.mul (Num.div (to_number x) (to_number d)) (Num.lit 100)))
      (Num.lit 100) /\
  Calculations.average values
  = match filter valid_number values with
    | [] => Zero false
    | entries =>
        Num.div
          (Num.round
             (Num.mul
                (Num.div
                   (fold_left (fun sum v => Num.add sum (to_number v))
                              entries (Zero false))
                   (Num.of_count (List.length entries)))
                (Num.lit 100)))
          (Num.lit 100)
    end.
Proof.
  intro Hd.
  destruct (calculations_by_cases x d values) as (T & F & C & G & A).
  rewrite Hd in T, F, C, G.
  split; [|now repeat split].
  destruct (round_half_up_spec q) as (n & Hn & E).
  exists n. split; [exact Hn|]. split; [exact E|].
  now apply half_up_is_half_away.
Qed.

Lemma calculations_round_half_up_witness :
  zero_or_absent (int 8) = false /\
  Calculations.growthRate (int 7) (int 8)
  = Num.round
      (Num.mul (Num.div (Num.sub (to_number (int 7)) (to_number (int 8)))
                        (to_number (int 8)))
               (Num.lit 100)).
Proof.
  split; [reflexivity|].
  apply (@calculations_round_half_up (int 7) (int 8) [] (-25 # 2)).
  reflexivity.
Defined.

(** ** The completion score *)

Lemma fold_left_flat_map (A B C : Type) (f : A -> B -> A) (g : C -> list B)
    (l : list C) (a : A) :
  fold_left (fun acc x => fold_left f (g x) acc) l a
  = fold_left f (flat_map g l) a.
Proof.
  revert a. induction l as [|x l IH]; intro a; simpl; [reflexivity|].
  now rewrite fold_left_app, IH.
Qed.

Lemma score_fields_count (responses : store) (fs : list Field) (t c : nat) :
  fold_left (score_field responses) fs (t, c)
  = (t + List.length
           (filter (fun f => negb (Str.eqb (f_type f) FieldTypes.CALCULATED))
                   fs),
     c + List.length
           (filter (fun f => answered (responses (f_id f)))
              (filter
                 (fun f => negb (Str.eqb (f_type f) FieldTypes.CALCULATED))
                 fs)))%nat.
Proof.
  revert t c. induction fs as [|f fs IH]; intros t c;
    cbn [fold_left filter].
  - cbn. now rewrite !Nat.add_0_r.
  - unfold score_field at 2.
    destruct (negb (Str.eqb (f_type f) FieldTypes.CALCULATED));
      cbn [filter].
    + destruct (answered (responses (f_id f))); rewrite IH;
        cbn [List.length]; f_equal; lia.
    + apply IH.
Qed.

Lemma completion_counts (indicators : list Indicator) (responses : store) :
  let r := calculateCompletionScore (Some indicators) responses in
  total r = List.length (fillable indicators) /\
  completed r
  = List.length (filter (fun f => answered (responses (f_id f)))
                        (fillable indicators)) /\
  percentage r
  = if (total r =? 0)%nat then Zero false
    else percent (completed r) (total r).
Proof.
  destruct indicators as [|i l]; [now cbn|].
  unfold calculateCompletionScore.
  rewrite fold_left_flat_map, score_fields_count. cbn zeta.
  cbv beta iota. cbn [total completed percentage Nat.add].
  fold (fillable (i :: l)).
  repeat split.
  now destruct (List.length (fillable (i :: l))).
Qed.

Lemma answered_spec (v : jsval) :
  answered v = false <-> v = VUndefined \/ v = VNull \/ v = VStr [].
Proof.
  destruct v as [| | | |[|]|]; simpl; split; intro H; try tauto;
    try discriminate; destruct H as [H|[H|H]]; discriminate.
Qed.

Lemma completion_bounds (indicators : list Indicator) (responses : store) :
  (completed (calculateCompletionScore (Some indicators) responses)
   <= total (calculateCompletionScore (Some indicators) responses))%nat.
Proof.
  destruct (completion_counts indicators responses) as (-> & -> & _).
  apply filter_length_le.
Qed.

Section PercentageFacts.
Local Open Scope Q_scope.

(** The percentage of two counters is the rounding, as Math.round rounds,
    of a binary64 product that lies within [1e-12] of the exact value. *)
Lemma percent_near_exact (c t : nat) :
  (c <= t)%nat -> (0 < t)%nat -> (Z.of_nat t < 2 ^ 53)%Z ->
  exists p n,
    Qabs (p - exact_percentage c t) <= 1 # 1000000000000 /\
    0 <= p /\
    is_round_half_up p n /\
    percent c t = whole false n.
Proof.
  intros Hct Ht Hb. unfold percent, exact_percentage.
  destruct t as [|t]; [lia|]. destruct c as [|c].
  { exists 0, 0%Z. split; [|split; [|split]].
    - cbn [Z.of_nat]. change (inject_Z 0) with 0.
      apply Qabs_Qle_condition.
      assert (E : 0 / inject_Z (Z.of_nat (S t)) * 100 == 0)
        by (unfold Qdiv; ring).
      rewrite E. split; lra.
    - apply Qle_refl.
    - unfold is_round_half_up. change (inject_Z 0) with 0. split; lra.
    - reflexivity. }
  cbn [Num.of_count Num.div].
  assert (Pc := inject_nat_pos c). assert (Pt := inject_nat_pos t).
  assert (Lct := inject_nat_le Hct).
  assert (Bt : inject_Z (Z.of_nat (S t)) <= 9007199254740992).
  { change 9007199254740992 with (inject_Z (2 ^ 53)).
    rewrite <- Zle_Qle. lia. }
  assert (C1 : 1 <= inject_Z (Z.of_nat (S c))).
  { change 1 with (inject_Z 1). rewrite <- Zle_Qle. lia. }
  change (Z.of_nat (S c) # 1) with (inject_Z (Z.of_nat (S c))).
  change (Z.of_nat (S t) # 1) with (inject_Z (Z.of_nat (S t))).
  set (qc := inject_Z (Z.of_nat (S c))) in *.
  set (qt := inject_Z (Z.of_nat (S t))) in *.
  assert (U : u53 <= 1 # 1000000000000000)
    by (apply Qle_bool_imp_le; reflexivity).
  assert (U0 : 0 < u53) by apply pow2_pos.
  assert (A1 : Num.pow2 (-1022) <= 1 # 90071992547409920)
    by (apply Qle_bool_imp_le; vm_compute; reflexivity).
  assert (A2 : 1000 < Num.pow2 1023).
  { rewrite pow2_Z by lia. change 1000 with (inject_Z 1000).
    rewrite <- Zlt_Qlt. reflexivity. }
  assert (D1 : 1 # 9007199254740992 <= qc / qt).
  { apply Qle_shift_div_l; [exact Pt|]. lra. }
  assert (D2 : qc / qt <= 1).
  { apply Qle_shift_div_r; [exact Pt|]. lra. }
  set (r := qc / qt) in *.
  destruct (@number_value_rel r) as (q & -> & Q1 & Q2); [lra|lra|].
  change Calculations.hundred with (Fin (100 # 1)). cbn [Num.mul].
  assert (Q3 : q <= 1 + u53) by nra.
  assert (Q4 : (1 # 9007199254740992) * (1 - u53) <= q) by nra.
  destruct (@number_value_rel (q * (100 # 1))) as (p & -> & P1 & P2);
    [nra|nra|].
  assert (P0 : 0 < p) by nra.
  destruct (round_half_up_spec p) as (n & Hn & ->).
  rewrite (Qneg_pos P0).
  exists p, n. repeat split; try apply Hn; [|lra].
  apply Qabs_Qle_condition.
  assert (W1 : r * (1 - u53) * (1 - u53) * 100 <= p) by nra.
  assert (W2 : p <= r * (1 + u53) * (1 + u53) * 100) by nra.
  assert (V1 : 1 - (3 # 1000000000000000) <= (1 - u53) * (1 - u53)) by nra.
  assert (V2 : (1 + u53) * (1 + u53) <= 1 + (3 # 1000000000000000)) by nra.
  assert (R0 : 0 <= r) by lra.
  split.
  - assert (r * (1 - (3 # 1000000000000000)) * 100 <= p) by nra. lra.
  - assert (p <= r * (1 + (3 # 1000000000000000)) * 100) by nra. lra.
Qed.

(** Away from the ties the rounding of the binary64 product is the
    rounding of the exact value. *)
Lemma round_clear_of_ties (x p : Q) (n : Z) :
  0 <= x ->
  Qabs (p - x) <= 1 # 1000000000000 ->
  is_round_half_up p n ->
  clear_of_ties x ->
  n = round_half_away_from_zero x.
Proof.
  intros Hx Hp [H1 H2] Hc.
  apply Qabs_Qle_condition in Hp.
  apply half_up_is_half_away; [|now left].
  assert (K1 := Hc (n - 1)%Z). assert (K2 := Hc n).
  unfold Zminus in K1. rewrite inject_Z_plus, inject_Z_opp in K1.
  change (inject_Z 1) with 1 in K1.
  split.
  - apply Qnot_lt_le. intro C. apply (Qlt_not_le _ _ K1).
    apply Qabs_Qle_condition. split; lra.
  - apply Qnot_le_lt. intro C. apply (Qlt_not_le _ _ K2).
    apply Qabs_Qle_condition. split; lra.
Qed.

End PercentageFacts.

Section TieFacts.
Local Open Scope Q_scope.

(** A whole number is half a unit away from every tie. *)
Lemma whole_clear_of_ties (x : Q) (m : Z) :
  x == inject_Z m -> clear_of_ties x.
Proof.
  intros E k. rewrite E.
  apply Qlt_le_trans with (1 # 2); [reflexivity|].
  destruct (Z_lt_le_dec k m) as [H|H].
  - apply Qabs_ge.
    assert (B : inject_Z (k + 1) <= inject_Z m) by (rewrite <- Zle_Qle; lia).
    rewrite inject_Z_plus in B. change (inject_Z 1) with 1 in B. lra.
  - rewrite <- Qabs_opp. apply Qabs_ge.
    assert (B : inject_Z m <= inject_Z k) by (rewrite <- Zle_Qle; lia).
    lra.
Qed.

End TieFacts.

(** C4 as stated fails near a tie: with 23 of 40 fields answered the exact
    value is 57.5, which rounds to 58, and the code gives 57. *)
Lemma completion_percentage_23_of_40 :
  completed (calculateCompletionScore (Some [forty_fields])
                                      first_23_answered) = 23%nat /\
  total (calculateCompletionScore (Some [forty_fields])
                                  first_23_answered) = 40%nat /\
  percentage (calculateCompletionScore (Some [forty_fields])
                                       first_23_answered) = Fin (57 # 1) /\
  (exact_percentage 23 40 == 115 # 2)%Q /\
  round_half_away_from_zero (exact_percentage 23 40) = 58%Z /\
  percentage (calculateCompletionScore (Some [forty_fields])
                                       first_23_answered)
  <> Num.lit (round_half_away_from_zero (exact_percentage 23 40)).
Proof.
  repeat split; try (vm_compute; reflexivity).
  vm_compute. discriminate.
Qed.

(** C4, amended: total and completed count the fields whose type is not
    CALCULATED; a field is completed exactly when its response is neither
    null or undefined nor the empty string, so that 0, false and "0" count;
    the percentage is the JavaScript value of
    Math.round((completed / total) * 100), the quotient and the product
    being rounded to binary64 first: it is the rounding of a product within
    1e-12 of the exact value, hence round(completed / total x 100) whenever
    the exact value is at least 1e-12 away from every tie; and it is 0 when
    total is 0. *)
Theorem calculateCompletionScore_counts
    (indicators : list Indicator) (responses : store) :
  let r := calculateCompletionScore (Some indicators) responses in
  total r = List.length (fillable indicators) /\
  completed r
  = List.length (filter (fun f => answered (responses (f_id f)))
                        (fillable indicators)) /\
  percentage r
  = (if (total r =? 0)%nat then Zero false
     else Num.round
            (Num.mul (Num.div (Num.of_count (completed r))
                              (Num.of_count (total r)))
                     (Num.lit 100))) /\
  ((0 < total r)%nat -> (Z.of_nat (total r) < 2 ^ 53)%Z ->
   (exists p n,
       (Qabs (p - exact_percentage (completed r) (total r))
        <= 1 # 1000000000000)%Q /\
       is_round_half_up p n /\
       percentage r = Num.lit n) /\
   (clear_of_ties (exact_percentage (completed r) (total r)) ->
    percentage r
    = Num.lit (round_half_away_from_zero
                 (exact_percentage (completed r) (total r))))) /\
  (forall v, answered v = false
             <-> v = VUndefined \/ v = VNull \/ v = VStr []) /\
  answered (VNum (Zero false)) = true /\
  answered (VBool false) = true /\
  answered (VStr (str "0")) = true /\
  calculateCompletionScore None responses
  = {| percentage := Zero false; completed := 0; total := 0 |}.
Proof.
  intro r. destruct (completion_counts indicators responses) as (Ht & Hc & Hp).
  fold r in Ht, Hc, Hp.
  assert (Hb := completion_bounds indicators responses). fold r in Hb.
  split; [exact Ht|]. split; [exact Hc|]. split; [exact Hp|].
  split; [|repeat split; try reflexivity; apply answered_spec].
  intros H0 H53.
  destruct (@percent_near_exact (completed r) (total r) Hb H0 H53)
    as (p & n & Hn1 & Hn0 & Hn2 & Hn3).
  assert (E : percentage r = Num.lit n).
  { rewrite Hp. destruct (Nat.eqb_spec (total r) 0); [lia|exact Hn3]. }
  split; [exists p, n; repeat split; try apply Hn2; assumption|].
  intro Hc'. rewrite E. f_equal.
  apply (@round_clear_of_ties (exact_percentage (completed r) (total r)) p);
    try assumption.
  unfold exact_percentage.
  assert (0 <= inject_Z (Z.of_nat (completed r)))%Q
    by (change 0%Q with (inject_Z 0); rewrite <- Zle_Qle; lia).
  assert (0 < inject_Z (Z.of_nat (total r)))%Q
    by (change 0%Q with (inject_Z 0); rewrite <- Zlt_Qlt; lia).
  apply Qmult_le_0_compat; [|discriminate].
  apply Qle_shift_div_l; [assumption|]. lra.
Qed.

Lemma calculateCompletionScore_counts_witness :
  percentage (calculateCompletionScore (Some sample_indicators)
                                       (fun _ => VNum (Num.lit 1)))
  = Num.lit (round_half_away_from_zero (exact_percentage 4 4)).
Proof.
  destruct (@calculateCompletionScore_counts sample_indicators
              (fun _ => VNum (Num.lit 1))) as (_ & _ & _ & H & _).
  destruct H as [_ H]; [vm_compute; lia|vm_compute; reflexivity|].
  apply H. apply (@whole_clear_of_ties _ 100). vm_compute. reflexivity.
Defined.

(** Binary64 arithmetic shows in the percentage: 23 of 40 fields give 57,
    the quotient times 100 falling just below 57.5. *)
Remark percent_23_of_40 : percent 23 40 = Fin (57 # 1).
Proof. vm_compute. reflexivity. Qed.

(** Compiling the row of a staff turnover indicator and scoring it with the
    three inputs answered: the two calculated fields are left out of the
    count, completed = total = 3 and the percentage is 100. *)
Example turnover_row_fully_answered :
  let responses : store :=
    fun id =>
      if Str.eqb id (str "indicator_0_staffAtStart") then VNum (Num.lit 12)
      else if Str.eqb id (str "indicator_0_staffAtEnd") then VNum (Num.lit 10)
      else if Str.eqb id (str "indicator_0_staffLeft") then VNum (Num.lit 3)
      else VUndefined in
  match generateStandardizedFields (Some [hd [] sample_rows]) with
  | Return indicators =>
      calculateCompletionScore (Some indicators) responses
      = {| percentage := Fin (100 # 1); completed := 3; total := 3 |}
  | Throw _ => False
  end.
Proof. vm_compute. reflexivity. Qed.

Lemma quality_counts (entries : list (jsstring * Response)) (t c s : nat) :
  (s <= c <= t)%nat ->
  exists t' c' s',
    fold_left quality_step entries (t, c, s) = (t', c', s') /\
    (s' <= c' <= t')%nat /\ t' = (t + List.length entries)%nat.
Proof.
  revert t c s. induction entries as [|e entries IH]; intros t c s H.
  - exists t, c, s. cbn. repeat split; lia.
  - cbn [fold_left List.length]. unfold quality_step at 2.
    destruct (answered (value (snd e)));
      [destruct (is_structured (rtype (snd e)))|].
    all: match goal with
         | |- context [fold_left _ _ (?a, ?b, ?d)] =>
             destruct (IH a b d) as (t' & c' & s' & E & H1 & H2); [lia|]
         end.
    all: exists t', c', s'; rewrite E; repeat split; lia.
Qed.

Lemma within_not_NaN (x : number) : within_0_100 x -> Num.isNaN x = false.
Proof. intros [->|(n & _ & ->)]; reflexivity. Qed.

(** C7: the percentage of the completion score and the completeness,
    standardization and overall score of the data quality are whole numbers
    between 0 and 100, hence never NaN, for every indicator list, response
    store and response record set (of fewer than 2^53 entries, the range in
    which a counter incremented by one is exact). *)
Theorem scores_within_0_100
    (indicators : option (list Indicator)) (responses : store)
    (entries : list (jsstring * Response)) :
  (Z.of_nat (List.length entries) < 2 ^ 53)%Z ->
  let score := calculateCompletionScore indicators responses in
  let quality := calculateDataQuality entries in
  (within_0_100 (percentage score) /\
   within_0_100 (completeness quality) /\
   within_0_100 (standardization quality) /\
   within_0_100 (overallScore quality)) /\
  Num.isNaN (percentage score) = false /\
  Num.isNaN (completeness quality) = false /\
  Num.isNaN (standardization quality) = false /\
  Num.isNaN (overallScore quality) = false.
Proof.
  intros Hsize score quality.
  assert (H : within_0_100 (percentage score) /\
              within_0_100 (completeness quality) /\
              within_0_100 (standardization quality) /\
              within_0_100 (overallScore quality)).
  { split.
    - subst score. destruct indicators as [indicators|]; [|now left].
      destruct (completion_counts indicators responses) as (_ & _ & ->).
      destruct (Nat.eqb_spec
                  (total (calculateCompletionScore (Some indicators)
                                                   responses)) 0);
        [now left|].
      apply percent_within; [apply completion_bounds|lia].
    - subst quality. unfold calculateDataQuality.
      destruct (@quality_counts entries 0 0 0) as (t & c & s & -> & Hc & Ht);
        [lia|].
      cbn [completeness standardization overallScore].
      repeat split.
      + destruct (Nat.ltb_spec 0 t); [|now left].
        apply percent_within; lia.
      + destruct (Nat.ltb_spec 0 c); [|now left].
        apply percent_within; lia.
      + destruct (Nat.ltb_spec 0 t); [|now left].
        apply overall_within; lia. }
  split; [exact H|].
  destruct H as (H1 & H2 & H3 & H4).
  repeat split; now apply within_not_NaN.
Qed.

Lemma scores_within_0_100_witness :
  (Z.of_nat (List.length sample_entries) < 2 ^ 53)%Z /\
  within_0_100 (overallScore (calculateDataQuality sample_entries)) /\
  overallScore (calculateDataQuality sample_entries) = Fin (53 # 1).
Proof.
  split; [reflexivity|]. split; [|vm_compute; reflexivity].
  apply (@scores_within_0_100 (Some []) sample_store sample_entries).
  reflexivity.
Defined.

(** * Further properties *)

(** ** Percentages *)

Section MoreNumberFacts.
Local Open Scope Q_scope.

(** [Math.round((a / b) * 100)] of two positive numbers [a <= b] is a whole
    percentage. *)
Lemma ratio_within (a b : Q) :
  0 < a -> a <= b ->
  within_0_100
    (Num.round (Num.mul (Num.div (Fin a) (Fin b)) Calculations.hundred)).
Proof.
  intros Ha Hab. cbn [Num.div].
  assert (D0 : 0 < a / b) by (apply Qlt_shift_div_l; lra).
  assert (D1 : a / b <= inject_Z 1).
  { apply Qle_shift_div_r; [lra|]. change (inject_Z 1) with 1. lra. }
  destruct (number_value_le_int D0 D1) as [->|(q & -> & Q0 & Q1)];
    [reflexivity|now left|].
  change Calculations.hundred with (Fin (100 # 1)). cbn [Num.mul].
  change (inject_Z 1) with 1 in Q1.
  assert (M0 : 0 < q * (100 # 1)) by lra.
  assert (M1 : q * (100 # 1) <= inject_Z 100)
    by (change (inject_Z 100) with 100; lra).
  destruct (number_value_le_int M0 M1) as [->|(q' & -> & Q0' & Q1')];
    [reflexivity|now left|].
  change (inject_Z 100) with 100 in Q1'.
  apply round_within; lra.
Qed.

Lemma round_between (q : Q) (n : Z) :
  inject_Z n - (1 # 2) <= q -> q < inject_Z n + (1 # 2) ->
  Num.round (Fin q) = whole (Num.Qneg q) n.
Proof.
  intros H1 H2. cbn [Num.round]. cbv zeta. unfold whole.
  assert (E : Qfloor (q + (1 # 2)) = n) by (apply Qfloor_unique; lra).
  now rewrite E.
Qed.

(** A counter divided by itself, times 100, rounds to 100. *)
Lemma percent_all (a : nat) : (0 < a)%nat -> percent a a = Fin (100 # 1).
Proof.
  intro Ha. unfold percent. destruct a as [|a]; [lia|].
  cbn [Num.of_count Num.div].
  assert (Pa := inject_nat_pos a).
  change (Z.of_nat (S a) # 1) with (inject_Z (Z.of_nat (S a))).
  set (qa := inject_Z (Z.of_nat (S a))) in *.
  assert (E : qa / qa == 1) by (field; lra).
  destruct (@number_value_approx (qa / qa)) as (q & -> & Q1 & Q2);
    [rewrite E; discriminate|rewrite E; discriminate|].
  rewrite E in Q1, Q2.
  change Calculations.hundred with (Fin (100 # 1)). cbn [Num.mul].
  destruct (@number_value_approx (q * (100 # 1))) as (p & -> & P1 & P2);
    [lra|lra|].
  rewrite (@round_between p 100); [|change (inject_Z 100) with 100; lra..].
  reflexivity.
Qed.

(** Below 200 fields, a counter short of the total never rounds to 100. *)
Lemma percent_short (c t : nat) :
  (c < t)%nat -> (t < 200)%nat -> percent c t <> Fin (100 # 1).
Proof.
  intros Hct Ht. unfold percent. destruct t as [|t]; [lia|].
  destruct c as [|c]; [cbn; discriminate|].
  cbn [Num.of_count Num.div].
  assert (Pc := inject_nat_pos c). assert (Pt := inject_nat_pos t).
  assert (Lt : inject_Z (Z.of_nat (S t)) <= 199).
  { change 199 with (inject_Z 199). rewrite <- Zle_Qle. lia. }
  assert (C1 : 1 <= inject_Z (Z.of_nat (S c))).
  { change 1 with (inject_Z 1). rewrite <- Zle_Qle. lia. }
  assert (Lc : inject_Z (Z.of_nat (S c)) + 1 <= inject_Z (Z.of_nat (S t))).
  { change 1 with (inject_Z 1). rewrite <- inject_Z_plus, <- Zle_Qle. lia. }
  change (Z.of_nat (S c) # 1) with (inject_Z (Z.of_nat (S c))).
  change (Z.of_nat (S t) # 1) with (inject_Z (Z.of_nat (S t))).
  set (qc := inject_Z (Z.of_nat (S c))) in *.
  set (qt := inject_Z (Z.of_nat (S t))) in *.
  assert (U : u53 <= 1 # 1000000000000000)
    by (apply Qle_bool_imp_le; reflexivity).
  assert (U0 : 0 < u53) by apply pow2_pos.
  assert (A1 : Num.pow2 (-1022) <= 1 # 1000)
    by (apply Qle_bool_imp_le; vm_compute; reflexivity).
  assert (A2 : 1000 < Num.pow2 1023).
  { rewrite pow2_Z by lia. change 1000 with (inject_Z 1000).
    rewrite <- Zlt_Qlt. reflexivity. }
  assert (D1 : 1 # 200 <= qc / qt).
  { apply Qle_shift_div_l; [exact Pt|]. lra. }
  assert (D2 : qc / qt <= 198 # 199).
  { apply Qle_shift_div_r; [exact Pt|]. lra. }
  set (r := qc / qt) in *.
  destruct (@number_value_rel r) as (q & -> & Q1 & Q2); [lra|lra|].
  change Calculations.hundred with (Fin (100 # 1)). cbn [Num.mul].
  assert (Q3 : q <= (198 # 199) * (1 + u53)) by nra.
  assert (Q4 : (1 # 200) * (1 - u53) <= q) by nra.
  destruct (@number_value_rel (q * (100 # 1))) as (p & -> & P1 & P2);
    [nra|nra|].
  assert (P4 : 0 < p) by nra.
  assert (P3 : p < 99 + (1 # 2)).
  { assert (W1 : 1 <= 1 + u53) by lra.
    assert (W2 : 1 + u53 <= 1 + (1 # 1000000000000000)) by lra.
    set (w := 1 + u53) in *. clearbody w.
    assert (W : w * w <= 1 + (3 # 1000000000000000)) by nra.
    assert (Q5 : q * w <= (198 # 199) * (w * w)) by nra.
    assert (P5 : p <= 100 * (q * w)) by lra.
    lra. }
  change (Num.round (Fin p))
    with (whole (Num.Qneg p) (Qfloor (p + (1 # 2)))).
  assert (F1 := Qfloor_le (p + (1 # 2))).
  assert (N1 : (Qfloor (p + (1 # 2)) < 100)%Z).
  { rewrite Zlt_Qlt. change (inject_Z 100) with 100. lra. }
  set (n := Qfloor (p + (1 # 2))) in *. clearbody n.
  unfold whole. destruct (n =? 0)%Z; [discriminate|].
  intro C. inversion C. lia.
Qed.

(** [Math.round] leaves its own results as they are. *)
Lemma round_idempotent (x : number) : Num.round (Num.round x) = Num.round x.
Proof.
  destruct x as [| | |q]; try reflexivity.
  cbn [Num.round]. cbv zeta.
  destruct (Z.eqb_spec (Qfloor (q + (1 # 2))) 0) as [E|E]; [reflexivity|].
  set (n := Qfloor (q + (1 # 2))) in *.
  cbn [Num.round]. cbv zeta.
  assert (F : Qfloor ((n # 1) + (1 # 2)) = n).
  { apply Qfloor_unique; change (n # 1) with (inject_Z n); lra. }
  rewrite F. destruct (Z.eqb_spec n 0); [contradiction|reflexivity].
Qed.

(** A finite number minus itself is +0. *)
Lemma sub_self (p : Q) : Num.sub (Fin p) (Fin p) = Zero false.
Proof.
  unfold Num.sub. cbn [Num.neg Num.add]. unfold Num.number_value.
  assert (E : Qeq_bool (p + Qred (- p)) 0 = true).
  { apply Qeq_bool_iff. rewrite Qred_correct. ring. }
  now rewrite E.
Qed.

(** From 200 fields on, one field short of the total still rounds to
    100. *)
Lemma percent_one_short (t : nat) :
  (200 <= t)%nat -> percent (t - 1) t = Fin (100 # 1).
Proof.
  intro Ht. destruct (Nat.eq_dec t 200) as [->|Hn];
    [vm_compute; reflexivity|].
  unfold percent. destruct t as [|t]; [lia|].
  replace (S t - 1)%nat with t by lia.
  destruct t as [|c]; [lia|].
  cbn [Num.of_count Num.div].
  assert (Pc := inject_nat_pos c). assert (Pt := inject_nat_pos (S c)).
  assert (Lt : 201 <= inject_Z (Z.of_nat (S (S c)))).
  { change 201 with (inject_Z 201). rewrite <- Zle_Qle. lia. }
  assert (Lc : inject_Z (Z.of_nat (S c)) + 1 == inject_Z (Z.of_nat (S (S c)))).
  { change 1 with (inject_Z 1). rewrite <- inject_Z_plus.
    apply inject_Z_injective. lia. }
  change (Z.of_nat (S c) # 1) with (inject_Z (Z.of_nat (S c))).
  change (Z.of_nat (S (S c)) # 1) with (inject_Z (Z.of_nat (S (S c)))).
  set (qc := inject_Z (Z.of_nat (S c))) in *.
  set (qt := inject_Z (Z.of_nat (S (S c)))) in *.
  assert (U : u53 <= 1 # 1000000000000000)
    by (apply Qle_bool_imp_le; reflexivity).
  assert (U0 : 0 < u53) by apply pow2_pos.
  assert (A1 : Num.pow2 (-1022) <= 1 # 1000)
    by (apply Qle_bool_imp_le; vm_compute; reflexivity).
  assert (A2 : 1000 < Num.pow2 1023).
  { rewrite pow2_Z by lia. change 1000 with (inject_Z 1000).
    rewrite <- Zlt_Qlt. reflexivity. }
  assert (D1 : 200 # 201 <= qc / qt).
  { apply Qle_shift_div_l; [exact Pt|]. lra. }
  assert (D2 : qc / qt <= 1).
  { apply Qle_shift_div_r; [exact Pt|]. lra. }
  set (r := qc / qt) in *.
  destruct (@number_value_rel r) as (q & -> & Q1 & Q2); [lra|lra|].
  change Calculations.hundred with (Fin (100 # 1)). cbn [Num.mul].
  assert (Q3 : q <= 1 + u53) by nra.
  assert (Q4 : (200 # 201) * (1 - u53) <= q) by nra.
  destruct (@number_value_rel (q * (100 # 1))) as (p & -> & P1 & P2);
    [nra|nra|].
  assert (P3 : p < 100 + (1 # 2)).
  { assert (W1 : 1 <= 1 + u53) by lra.
    assert (W2 : 1 + u53 <= 1 + (1 # 1000000000000000)) by lra.
    set (w := 1 + u53) in *. clearbody w.
    assert (W : w * w <= 1 + (3 # 1000000000000000)) by nra.
    assert (Q5 : q * w <= w * w) by nra.
    assert (P5 : p <= 100 * (q * w)) by lra.
    lra. }
  assert (P4 : 99 + (1 # 2) <= p).
  { assert (W1 : 1 - u53 <= 1) by lra.
    assert (W2 : 1 - (1 # 1000000000000000) <= 1 - u53) by lra.
    set (w := 1 - u53) in *. clearbody w.
    assert (W : 1 - (2 # 1000000000000000) <= w * w) by nra.
    assert (Q5 : (200 # 201) * (w * w) <= q * w) by nra.
    assert (P5 : 100 * (q * w) <= p) by lra.
    lra. }
  rewrite (@round_between p 100); [|change (inject_Z 100) with 100; lra..].
  reflexivity.
Qed.

End MoreNumberFacts.

(** ** The calculation functions on ordinary figures *)

(** X1: for every finite positive number a and every number b that is not
    below a, +Infinity included, the turnover rate of a departures on an
    average of b and the core percentage of a core amount a in a total b
    are whole numbers between 0 and 100: binary64 rounding of the quotient
    and of the product never takes them past 100. *)
Theorem rates_within_0_100 (a b : number) :
  isFinite a = true ->
  num_ltb (Num.lit 0) a = true ->
  Num.isNaN b = false ->
  num_ltb b a = false ->
  within_0_100 (Calculations.turnoverRate (NNum a) (NNum b)) /\
  within_0_100 (Calculations.corePercentage (NNum a) (NNum b)).
Proof.
  intros Fa Pa Nb Hab.
  destruct a as [| | |p]; try discriminate.
  assert (Hp : (0 < p)%Q).
  { cbn in Pa. apply negb_true_iff in Pa. apply Qnot_le_lt. intro C.
    apply Qle_bool_iff in C. congruence. }
  destruct b as [|[]|s|q]; try discriminate.
  - unfold Calculations.turnoverRate, Calculations.corePercentage.
    cbn [numeric_truthy numeric_is_zero Num.truthy Num.is_zero negb orb
         to_number Num.div Num.sign xorb].
    rewrite (Qneg_pos Hp).
    split; now left.
  - cbn in Hab. apply negb_false_iff in Hab.
    apply Qle_bool_iff in Hab. lra.
  - cbn in Hab. apply negb_false_iff in Hab.
    apply Qle_bool_iff in Hab. split; now apply ratio_within.
Qed.

Lemma rates_within_0_100_witness :
  within_0_100
    (Calculations.turnoverRate (NNum (Fin (3 # 1))) (NNum (Fin (11 # 1)))) /\
  Calculations.turnoverRate (NNum (Fin (3 # 1))) (NNum (Fin (11 # 1)))
  = Fin (27 # 1) /\
  Calculations.corePercentage (NNum (Fin (3 # 1))) (NNum (Inf false))
  = Zero false.
Proof.
  split; [|split; vm_compute; reflexivity].
  apply (@rates_within_0_100 (Fin (3 # 1)) (Fin (11 # 1))); reflexivity.
Defined.

(** X2: the growth rate of a figure that did not change is zero, whatever
    the figure: +0 for a positive one and -0 for a negative one. *)
Theorem growthRate_no_change (p : Q) :
  Calculations.growthRate (NNum (Fin p)) (NNum (Fin p)) = Zero (Num.Qneg p).
Proof.
  unfold Calculations.growthRate.
  cbn [numeric_truthy numeric_is_zero Num.truthy Num.is_zero negb orb
       to_number].
  rewrite sub_self.
  change (Num.div (Zero false) (Fin p)) with (Zero (Num.Qneg p)).
  change Calculations.hundred with (Fin (100 # 1)).
  cbn [Num.mul Num.round Num.sign].
  now rewrite xorb_false_r.
Qed.

(** ** The validation rules *)

(** X3: the required rule and the completion score agree on what an answer
    is: the rule has no message for a value exactly when the completion
    score counts that value as completed. *)
Theorem required_agrees_with_answered (v : jsval) :
  Validation.required v = None <-> answered v = true.
Proof. destruct v as [| | | |[|c s]|]; cbn; split; congruence. Qed.

Lemma Qle_bool_true (x y : Q) : (x <= y)%Q -> Qle_bool x y = true.
Proof. apply Qle_bool_iff. Qed.

Lemma Qle_bool_false' (x y : Q) : (y < x)%Q -> Qle_bool x y = false.
Proof.
  intro H. destruct (Qle_bool x y) eqn:E; [|reflexivity].
  apply Qle_bool_iff in E. lra.
Qed.

Lemma Qle_bool_not (x y : Q) : Qle_bool x y = false -> (y < x)%Q.
Proof.
  intro H. apply Qnot_le_lt. intro C. apply Qle_bool_iff in C. congruence.
Qed.

(** X4: the staff count rule has no message exactly for the whole numbers
    from zero up; undefined, null, NaN, the infinities, negative numbers
    and fractions all get one. *)
Theorem staffCount_accepts_whole_counts (v : numeric) :
  Validation.staffCount v = None <-> whole_count v.
Proof.
  unfold Validation.staffCount.
  destruct v as [| |[|[]|s|q]]; cbn; try (split; [discriminate|tauto]);
    try tauto.
  destruct (Qle_bool 0 q) eqn:E1; cbn.
  - apply Qle_bool_iff in E1.
    destruct (Qeq_bool q (inject_Z (Qfloor q))) eqn:E2; cbn.
    + apply Qeq_bool_iff in E2. tauto.
    + split; [discriminate|]. intros [_ C].
      apply Qeq_bool_iff in C. congruence.
  - apply Qle_bool_not in E1. split; [discriminate|]. intros [C _]. lra.
Qed.

(** X5: what the range rules let through.  The percentage rule: numbers
    from 0 to 100, and also null, undefined and NaN.  The scale rule with
    its default bounds: numbers from 1 to 5, and also undefined and NaN,
    but not null and not zero.  The currency rule: numbers from zero up,
    +Infinity, null, undefined and NaN. *)
Theorem range_rules_accept (v : numeric) :
  (Validation.percentage v = None <-> in_range 0 100 true true v) /\
  (Validation.scale v None None = None <-> in_range 1 5 false false v) /\
  (Validation.currency v = None
   <-> match v with
       | NNum (Inf s) => s = false
       | NNum (Fin q) => (0 <= q)%Q
       | _ => True
       end).
Proof.
  split; [|split].
  - unfold Validation.percentage.
    destruct v as [| |[|[]|s|q]]; cbn; try tauto;
      try (split; [discriminate|tauto]); try (split; congruence).
    destruct (Qle_bool 0 q) eqn:E1; cbn.
    + apply Qle_bool_iff in E1.
      destruct (Qle_bool q 100) eqn:E2; cbn.
      * apply Qle_bool_iff in E2. tauto.
      * apply Qle_bool_not in E2. split; [discriminate|]. intros [_ C]. lra.
    + apply Qle_bool_not in E1. split; [discriminate|]. intros [C _]. lra.
  - unfold Validation.scale.
    destruct v as [| |[|[]|s|q]]; cbn; try tauto;
      try (split; [discriminate|tauto]); try (split; congruence).
    destruct (Qle_bool 1 q) eqn:E1; cbn.
    + apply Qle_bool_iff in E1.
      destruct (Qle_bool q 5) eqn:E2; cbn.
      * apply Qle_bool_iff in E2. tauto.
      * apply Qle_bool_not in E2. split; [discriminate|]. intros [_ C]. lra.
    + apply Qle_bool_not in E1. split; [discriminate|]. intros [C _]. lra.
  - unfold Validation.currency.
    destruct v as [| |[|[]|s|q]]; cbn; try tauto;
      try (split; congruence).
    destruct (Qle_bool 0 q) eqn:E1; cbn.
    + apply Qle_bool_iff in E1. tauto.
    + apply Qle_bool_not in E1. split; [discriminate|]. intro C. lra.
Qed.

(** ** More on strings *)

Lemma trimStart_suffix (s : jsstring) :
  exists pre, s = pre ++ Str.trimStart s.
Proof.
  induction s as [|c s [pre IH]]; [now exists []|]. cbn.
  destruct (Str.is_space c).
  - exists (c :: pre). cbn. now rewrite <- IH.
  - now exists [].
Qed.

Lemma trimStart_head (s : jsstring) (c : N) (t : jsstring) :
  Str.trimStart s = c :: t -> Str.is_space c = false.
Proof.
  induction s as [|d s IH]; cbn; [discriminate|].
  destruct (Str.is_space d) eqn:E; [exact IH|].
  intro H. injection H as -> _. exact E.
Qed.

(** Trimmed text neither starts nor ends with white space. *)
Lemma trim_ends (s : jsstring) :
  (forall c t, Str.trim s = c :: t -> Str.is_space c = false) /\
  (forall c t, Str.trim s = t ++ [c] -> Str.is_space c = false).
Proof.
  unfold Str.trim.
  set (a := Str.trimStart s). set (b := Str.trimStart (rev a)).
  split; intros c t H.
  - destruct (trimStart_suffix (rev a)) as [pre E]. fold b in E.
    apply (f_equal (@rev N)) in E. rewrite rev_involutive, rev_app_distr in E.
    rewrite H in E. cbn in E.
    exact (trimStart_head s E).
  - apply (f_equal (@rev N)) in H. rewrite rev_involutive, rev_app_distr in H.
    cbn in H. exact (trimStart_head (rev a) H).
Qed.

Lemma trimStart_In (s : jsstring) (x : N) :
  In x (Str.trimStart s) -> In x s.
Proof.
  destruct (trimStart_suffix s) as [pre E]. intro H. rewrite E.
  apply in_or_app. now right.
Qed.

Lemma trim_In (s : jsstring) (x : N) : In x (Str.trim s) -> In x s.
Proof.
  unfold Str.trim. intro H. apply in_rev in H.
  apply trimStart_In in H. apply in_rev in H. now apply trimStart_In.
Qed.

Lemma split_In (c : N) (s l : jsstring) (x : N) :
  In l (Str.split c s) -> In x l -> In x s.
Proof.
  revert l. induction s as [|d s IH]; intros l Hl Hx.
  - cbn in Hl. destruct Hl as [<-|[]]. destruct Hx.
  - cbn in Hl. destruct (d =? c)%N.
    + destruct Hl as [<-|Hl]; [destruct Hx|]. right. eauto.
    + destruct (Str.split c s) as [|l0 ls] eqn:E.
      * destruct Hl as [<-|[]]. destruct Hx as [<-|[]]. now left.
      * destruct Hl as [<-|Hl].
        -- destruct Hx as [<-|Hx]; [now left|]. right.
           apply (IH l0); [now left|exact Hx].
        -- right. apply (IH l); [now right|exact Hx].
Qed.

Lemma startsWith_nil (s : jsstring) : Str.startsWith s [] = true.
Proof. now destruct s. Qed.

Lemma startsWith_single (s : jsstring) (c : N) :
  Str.startsWith s [c] = true -> In c s.
Proof.
  destruct s as [|d s]; cbn [Str.startsWith]; [discriminate|].
  rewrite startsWith_nil, andb_true_r. intro H. apply N.eqb_eq in H.
  now left.
Qed.

Lemma includes_single (s : jsstring) (c : N) :
  Str.includes s [c] = false -> ~ In c s.
Proof.
  induction s as [|d s IH]; cbn [Str.includes]; intro H; [tauto|].
  apply orb_false_elim in H as [H1 H2]. cbn [Str.startsWith] in H1.
  rewrite startsWith_nil, andb_true_r in H1. apply N.eqb_neq in H1.
  intros [C|C]; [congruence|]. now apply IH.
Qed.

Lemma startsWith_app (s t p : jsstring) :
  Str.startsWith s p = true -> Str.startsWith (s ++ t) p = true.
Proof.
  revert s. induction p as [|c p IH]; intros s H; [apply startsWith_nil|].
  destruct s as [|d s]; [discriminate|]. cbn [Str.startsWith app] in *.
  apply andb_prop in H as [H1 H2]. rewrite H1. cbn [andb]. now apply IH.
Qed.

Lemma includes_app_l (s t p : jsstring) :
  Str.includes s p = true -> Str.includes (s ++ t) p = true.
Proof.
  induction s as [|d s IH]; cbn [Str.includes app]; intro H.
  - rewrite orb_false_r in H. destruct p; [|discriminate].
    destruct t; reflexivity.
  - apply orb_prop in H as [H|H].
    + change (d :: s ++ t) with ((d :: s) ++ t).
      now rewrite (startsWith_app _ t _ H).
    + rewrite (IH H). apply orb_true_r.
Qed.

Lemma includes_app_r (s t p : jsstring) :
  Str.includes t p = true -> Str.includes (s ++ t) p = true.
Proof.
  intro H. induction s as [|d s IH]; [exact H|].
  cbn [Str.includes app]. rewrite IH. apply orb_true_r.
Qed.

(** A pattern found in a block of a text is found in the text. *)
Lemma includes_block (a x b p : jsstring) :
  Str.includes x p = true -> Str.includes (a ++ x ++ b) p = true.
Proof. intro H. apply includes_app_r. now apply includes_app_l. Qed.

Lemma toLowerCase_app (s t : jsstring) :
  Str.toLowerCase (s ++ t) = Str.toLowerCase s ++ Str.toLowerCase t.
Proof. apply map_app. Qed.

(** ** Checkbox options *)

Lemma replace_spaces_no_space (b : bool) (s : jsstring) :
  Forall (fun c => Str.is_space c = false) (Str.replace_spaces b s).
Proof.
  revert b. induction s as [|c s IH]; intro b; cbn; [constructor|].
  destruct (Str.is_space c) eqn:E.
  - destruct b; [apply IH|]. constructor; [reflexivity|apply IH].
  - constructor; [exact E|apply IH].
Qed.

(** X6: the options read from a method text are either none at all, or at
    least one option read from the text followed by exactly one closing
    option, of label "Other (specify)" and value "other"; an option read
    from the text has a label that is not empty, is not "Other (please
    specify)" (a line of that text is skipped) and has no white space at
    either end, and a value without white space. *)
Theorem extractCheckboxOptions_shape (measurementMethod : option jsstring) :
  extractCheckboxOptions measurementMethod = [] \/
  exists o real,
    extractCheckboxOptions measurementMethod = (o :: real) ++ [other_option] /\
    Forall extracted_option (o :: real).
Proof.
  unfold extractCheckboxOptions.
  destruct measurementMethod as [[|c0 text]|]; [now left| |now left].
  match goal with
  | |- context [fold_left ?f ?l []] => set (body := f); set (lines := l)
  end.
  assert (H : forall ls acc, Forall extracted_option acc ->
                             Forall extracted_option (fold_left body ls acc)).
  { induction ls as [|line ls IH]; intros acc Hacc; [exact Hacc|].
    cbn [fold_left]. apply IH. unfold body at 1.
    destruct (Str.startsWith (Str.trim line) [glyph]); [|exact Hacc].
    set (optionText := Str.trim (Str.substring 2 (Str.trim line))).
    destruct (Str.eqb optionText []) eqn:E1; [exact Hacc|].
    destruct (Str.eqb optionText (str "Other (please specify)")) eqn:E2;
      [exact Hacc|].
    cbn [negb andb]. apply Forall_app. split; [exact Hacc|].
    constructor; [|constructor]. unfold extracted_option.
    cbn [opt_label opt_value].
    repeat split.
    - intro C. rewrite C in E1. rewrite Str_eqb_refl in E1. discriminate.
    - intro C. rewrite C in E2. rewrite Str_eqb_refl in E2. discriminate.
    - apply trim_ends.
    - apply trim_ends.
    - eexists. split; [reflexivity|]. apply replace_spaces_no_space. }
  specialize (H lines [] (Forall_nil _)).
  destruct (fold_left body lines []) as [|o real]; [now left|right].
  exists o, real. split; [reflexivity|exact H].
Qed.

(** X7: a method text without the ballot box glyph gives no option, not
    even the closing "Other (specify)" one. *)
Theorem extractCheckboxOptions_without_glyph (text : jsstring) :
  Str.includes text [glyph] = false ->
  extractCheckboxOptions (Some text) = [].
Proof.
  intro H. apply includes_single in H.
  unfold extractCheckboxOptions. destruct text as [|c0 text]; [reflexivity|].
  match goal with
  | |- context [fold_left ?f ?l []] => set (body := f); set (lines := l)
  end.
  assert (E : forall ls, (forall l, In l ls -> In l lines) ->
                         fold_left body ls [] = []).
  { induction ls as [|line ls IH]; intro Hls; [reflexivity|].
    cbn [fold_left]. unfold body at 2.
    destruct (Str.startsWith (Str.trim line) [glyph]) eqn:S.
    - exfalso. apply H. apply startsWith_single in S. apply trim_In in S.
      apply (split_In 10%N (c0 :: text) line); [|exact S].
      apply Hls. now left.
    - apply IH. intros l Hl. apply Hls. now right. }
  rewrite (E lines (fun l Hl => Hl)). reflexivity.
Qed.

Lemma extractCheckboxOptions_without_glyph_witness :
  extractCheckboxOptions (Some (str "Number of clients served")) = [].
Proof.
  apply (@extractCheckboxOptions_without_glyph
           (str "Number of clients served")).
  reflexivity.
Defined.

(** ** The compiled indicators *)

Ltac by_rule :=
  match goal with
  | |- context [createFieldConfig _ ?mm] =>
      destruct mm as [?m|];
      [|rewrite createFieldConfig_no_method; set (m := @nil N)]
  end;
  unfold createFieldConfig;
  match goal with
  | |- context [Str.includes (Str.toLowerCase ?m) (str "(Yes/No)")] =>
      rewrite (yes_no_marker_never_found m), andb_false_l
  end;
  match goal with
  | |- context [extractCheckboxOptions ?x] =>
      destruct (extractCheckboxOptions x)
  end;
  cbn [List.length Nat.ltb Nat.leb];
  repeat match goal with
         | |- context [if ?b then _ else _] => destruct b
         end;
  vm_compute; reflexivity.

Lemma expand_well_typed id indicatorText methodText indicatorName mm :
  forallb well_typed
    (expand id indicatorText methodText (createFieldConfig indicatorName mm))
  = true.
Proof. by_rule. Qed.

Lemma expand_well_marked id indicatorText methodText indicatorName mm :
  forallb well_marked
    (expand id indicatorText methodText (createFieldConfig indicatorName mm))
  = true.
Proof. by_rule. Qed.

Lemma expand_well_sized id indicatorText methodText indicatorName mm :
  well_sized
    (expand id indicatorText methodText (createFieldConfig indicatorName mm))
  = true.
Proof. by_rule. Qed.

Lemma determineTier_range (indicator method : jsstring) :
  (1 <= determineTier indicator method <= 3)%Z.
Proof.
  unfold determineTier.
  repeat match goal with
         | |- context [if ?b then _ else _] => destruct b
         end; lia.
Qed.

(** What holds of the indicator of every surviving row holds of every
    compiled indicator. *)
Lemma compiled_indicators_forall (P : Indicator -> Prop) :
  (forall col methodCol notesCol ir,
      nonblank (lookup col (snd ir)) = true ->
      P (indicator_of col methodCol notesCol ir)) ->
  forall csvData indicators,
    generateStandardizedFields csvData = Return indicators ->
    Forall P indicators.
Proof.
  intros HP csvData indicators H.
  destruct csvData as [[|firstRow rest]|].
  1, 3: injection H as <-; constructor.
  destruct (find is_indicator_header (keys firstRow)) as [col|] eqn:Hf.
  2: { unfold generateStandardizedFields in H. rewrite Hf in H.
       discriminate. }
  rewrite (generateStandardizedFields_spec _ rest Hf) in H.
  injection H as <-. apply Forall_forall. intros i Hi.
  apply in_map_iff in Hi as (ir & <- & Hir).
  apply filter_In in Hir as [_ Hir]. now apply HP.
Qed.

Lemma compiled_fields_sized
    (csvData : option (list Row)) (indicators : list Indicator) :
  generateStandardizedFields csvData = Return indicators ->
  Forall (fun i => well_sized (i_fields i) = true) indicators.
Proof.
  apply compiled_indicators_forall. intros.
  apply expand_well_sized.
Qed.

(** X8: every field of every compiled indicator has one of the eight types
    number, currency, percentage, scale, radio, checkbox, calculated and
    text_short, and a field comes with a list of options, never an empty
    one, exactly when its type is radio, checkbox or scale. *)
Theorem compiled_fields_well_typed
    (csvData : option (list Row)) (indicators : list Indicator) :
  generateStandardizedFields csvData = Return indicators ->
  Forall (fun i => forallb well_typed (i_fields i) = true) indicators.
Proof.
  apply compiled_indicators_forall. intros.
  apply expand_well_typed.
Qed.

Lemma compiled_fields_well_typed_witness :
  generateStandardizedFields (Some sample_rows) = Return sample_indicators /\
  Forall (fun i => forallb well_typed (i_fields i) = true) sample_indicators.
Proof.
  split; [vm_compute; reflexivity|].
  apply (@compiled_fields_well_typed (Some sample_rows) sample_indicators).
  vm_compute. reflexivity.
Defined.

(** X9: every field of every compiled indicator is required exactly when it
    is not calculated, carries a formula exactly when it is calculated, has
    a label, and depends on no other field. *)
Theorem compiled_fields_well_marked
    (csvData : option (list Row)) (indicators : list Indicator) :
  generateStandardizedFields csvData = Return indicators ->
  Forall (fun i => forallb well_marked (i_fields i) = true) indicators.
Proof.
  apply compiled_indicators_forall. intros.
  apply expand_well_marked.
Qed.

Lemma compiled_fields_well_marked_witness :
  generateStandardizedFields (Some sample_rows) = Return sample_indicators /\
  Forall (fun i => forallb well_marked (i_fields i) = true) sample_indicators.
Proof.
  split; [vm_compute; reflexivity|].
  apply (@compiled_fields_well_marked (Some sample_rows) sample_indicators).
  vm_compute. reflexivity.
Defined.

(** X10: every compiled indicator has a tier from 1 to 3, between one and
    five fields of which between one and three are for the user to fill,
    and a title that is not empty and has no white space at either end. *)
Theorem compiled_indicators_shape
    (csvData : option (list Row)) (indicators : list Indicator) :
  generateStandardizedFields csvData = Return indicators ->
  Forall (fun i =>
            (1 <= i_tier i <= 3)%Z /\
            well_sized (i_fields i) = true /\
            i_title i <> [] /\
            (forall c t, i_title i = c :: t -> Str.is_space c = false) /\
            (forall c t, i_title i = t ++ [c] -> Str.is_space c = false))
         indicators.
Proof.
  apply compiled_indicators_forall. intros col methodCol notesCol ir H.
  cbn [indicator_of i_tier i_fields i_title].
  split; [apply determineTier_range|].
  split; [apply expand_well_sized|].
  split; [|apply trim_ends].
  unfold nonblank in H. destruct (lookup col (snd ir)) as [s|];
    [|discriminate].
  cbn [or_empty]. intro C. rewrite C in H. discriminate.
Qed.

Lemma compiled_indicators_shape_witness :
  generateStandardizedFields (Some sample_rows) = Return sample_indicators /\
  Forall (fun i => (1 <= i_tier i <= 3)%Z /\ well_sized (i_fields i) = true)
         sample_indicators.
Proof.
  split; [vm_compute; reflexivity|].
  eapply Forall_impl;
    [|apply (@compiled_indicators_shape (Some sample_rows) sample_indicators);
      vm_compute; reflexivity].
  intros i (H1 & H2 & _). split; [exact H1|exact H2].
Defined.

Lemma fillable_cons (i : Indicator) (l : list Indicator) :
  fillable (i :: l)
  = filter (fun f => negb (is_calculated f)) (i_fields i) ++ fillable l.
Proof. unfold fillable. cbn [flat_map]. apply filter_app. Qed.

Lemma fillable_bounds (indicators : list Indicator) :
  Forall (fun i => well_sized (i_fields i) = true) indicators ->
  (List.length indicators <= List.length (fillable indicators)
   <= 3 * List.length indicators)%nat.
Proof.
  induction 1 as [|i l Hi _ IH]; [cbn; lia|].
  rewrite fillable_cons, length_app. cbn [List.length].
  unfold well_sized in Hi.
  apply andb_prop in Hi as [Hi H4]. apply andb_prop in Hi as [Hi H3].
  apply Nat.leb_le in H3, H4. lia.
Qed.

(** X11: an indicator that the factory turns into the funding group (core
    funding, project funding and their calculations) is a tier 1
    indicator, whatever its method text. *)
Theorem funding_group_is_tier_1 (indicatorText methodText : jsstring) :
  map fs_key (fields (createFieldConfig indicatorText (Some methodText)))
  = [str "coreFunding"; str "projectFunding"] ->
  determineTier indicatorText methodText = 1%Z.
Proof.
  unfold createFieldConfig.
  destruct (Str.includes (Str.toLowerCase indicatorText) (str "turnover")
            || Str.includes (Str.toLowerCase indicatorText) (str "retention"));
    [cbn; discriminate|].
  destruct (Str.includes (Str.toLowerCase indicatorText) (str "funding")
            && (Str.includes (Str.toLowerCase indicatorText) (str "ratio")
                || Str.includes (Str.toLowerCase indicatorText) (str "core")))
    eqn:E.
  - intros _. apply andb_prop in E as [E1 E2].
    unfold determineTier. rewrite !toLowerCase_app.
    rewrite (includes_app_l _ _ _ E1).
    assert (E3 : Str.includes
                   (Str.toLowerCase indicatorText
                    ++ Str.toLowerCase (str " ") ++ Str.toLowerCase methodText)
                   (str "core")
                 || Str.includes
                      (Str.toLowerCase indicatorText
                       ++ Str.toLowerCase (str " ")
                       ++ Str.toLowerCase methodText)
                      (str "ratio") = true).
    { apply orb_prop in E2 as [E2|E2];
        rewrite (includes_app_l _ _ _ E2); [apply orb_true_r|reflexivity]. }
    rewrite E3. cbn [andb].
    now destruct (_ && _).
  - rewrite (yes_no_marker_never_found methodText), andb_false_l.
    repeat match goal with
           | |- context [if ?b then _ else _] => destruct b
           end; cbn; discriminate.
Qed.

Lemma funding_group_is_tier_1_witness :
  determineTier (str "Core Funding Ratio") (str "Annual amounts") = 1%Z.
Proof.
  apply (@funding_group_is_tier_1 (str "Core Funding Ratio")
                                  (str "Annual amounts")).
  vm_compute. reflexivity.
Defined.

(** ** Completion *)

Lemma filter_all (A : Type) (p : A -> bool) (l : list A) :
  (forall x, In x l -> p x = true) -> filter p l = l.
Proof.
  induction l as [|x l IH]; intro H; [reflexivity|]. cbn.
  rewrite (H x (or_introl eq_refl)). f_equal. apply IH.
  intros y Hy. apply H. now right.
Qed.

Lemma filter_none (A : Type) (p : A -> bool) (l : list A) :
  (forall x, In x l -> p x = false) -> filter p l = [].
Proof.
  induction l as [|x l IH]; intro H; [reflexivity|]. cbn.
  rewrite (H x (or_introl eq_refl)). apply IH.
  intros y Hy. apply H. now right.
Qed.

(** X12: when there is a field to fill and every field to fill is answered,
    completed equals total and the percentage is exactly 100, whatever the
    number of fields. *)
Theorem all_answered_is_100 (indicators : list Indicator) (responses : store) :
  fillable indicators <> [] ->
  (forall f, In f (fillable indicators) ->
             answered (responses (f_id f)) = true) ->
  let r := calculateCompletionScore (Some indicators) responses in
  completed r = total r /\ percentage r = Fin (100 # 1).
Proof.
  intros Hne Hall r.
  destruct (completion_counts indicators responses) as (Ht & Hc & Hp).
  fold r in Ht, Hc, Hp.
  rewrite (filter_all _ _ Hall) in Hc.
  assert (E : completed r = total r) by congruence.
  split; [exact E|]. rewrite Hp, E.
  assert (0 < total r)%nat.
  { rewrite Ht. destruct (fillable indicators); [contradiction|cbn; lia]. }
  destruct (Nat.eqb_spec (total r) 0); [lia|].
  now apply percent_all.
Qed.

Lemma all_answered_is_100_witness :
  percentage
    (calculateCompletionScore (Some sample_indicators)
                              (fun _ => VNum (Num.lit 1)))
  = Fin (100 # 1).
Proof.
  refine (proj2 (@all_answered_is_100 sample_indicators
                   (fun _ => VNum (Num.lit 1)) _ _)).
  - vm_compute. discriminate.
  - intros f _. reflexivity.
Defined.

(** X13: with fewer than 200 fields to fill, a percentage of 100 means that
    there is a field to fill and that every one of them is answered. *)
Theorem percentage_100_means_all_answered
    (indicators : list Indicator) (responses : store) :
  let r := calculateCompletionScore (Some indicators) responses in
  (total r < 200)%nat ->
  percentage r = Fin (100 # 1) ->
  (0 < total r)%nat /\ completed r = total r.
Proof.
  intros r Ht H.
  destruct (completion_counts indicators responses) as (_ & _ & Hp).
  fold r in Hp. rewrite Hp in H.
  assert (Hb := completion_bounds indicators responses). fold r in Hb.
  destruct (Nat.eqb_spec (total r) 0); [discriminate|].
  split; [lia|].
  destruct (Nat.eq_dec (completed r) (total r)) as [E|E]; [exact E|].
  exfalso. apply (@percent_short (completed r) (total r)); [lia|lia|exact H].
Qed.

Lemma percentage_100_means_all_answered_witness :
  completed
    (calculateCompletionScore (Some sample_indicators)
                              (fun _ => VNum (Num.lit 1)))
  = total
      (calculateCompletionScore (Some sample_indicators)
                                (fun _ => VNum (Num.lit 1))).
Proof.
  refine (proj2 (@percentage_100_means_all_answered sample_indicators
                   (fun _ => VNum (Num.lit 1)) _ _)).
  - vm_compute. lia.
  - vm_compute. reflexivity.
Defined.

(** X14: from 200 fields to fill on, the percentage is 100 although one
    field is still unanswered: 199 of 200 rounds to 100, and so does every
    count one short of a larger total. *)
Theorem percentage_100_with_one_unanswered
    (indicators : list Indicator) (responses : store) :
  let r := calculateCompletionScore (Some indicators) responses in
  (200 <= total r)%nat ->
  S (completed r) = total r ->
  percentage r = Fin (100 # 1).
Proof.
  intros r Ht Hc.
  destruct (completion_counts indicators responses) as (_ & _ & Hp).
  fold r in Hp. rewrite Hp.
  destruct (Nat.eqb_spec (total r) 0); [lia|].
  replace (completed r) with (total r - 1)%nat by lia.
  now apply percent_one_short.
Qed.

Lemma percentage_100_with_one_unanswered_witness :
  answered (crowded_store (str "0")) = false /\
  percentage (calculateCompletionScore (Some [crowded_indicator])
                                       crowded_store)
  = Fin (100 # 1).
Proof.
  split; [reflexivity|].
  apply (@percentage_100_with_one_unanswered [crowded_indicator]
                                             crowded_store).
  - vm_compute. lia.
  - vm_compute. reflexivity.
Defined.

(** X15: the percentage shown in the header of the form,
    Math.round(completionScore.percentage), is the percentage of the score
    itself: rounding it again changes nothing. *)
Theorem displayed_percentage
    (indicators : option (list Indicator)) (responses : store) :
  Num.round (percentage (calculateCompletionScore indicators responses))
  = percentage (calculateCompletionScore indicators responses).
Proof.
  destruct indicators as [indicators|]; [|reflexivity].
  destruct (completion_counts indicators responses) as (_ & _ & ->).
  destruct (_ =? _)%nat; [reflexivity|].
  unfold percent. apply round_idempotent.
Qed.

(** ** The form's handlers *)

Lemma compiled_ids_distinct
    (csvData : option (list Row)) (indicators : list Indicator) :
  generateStandardizedFields csvData = Return indicators ->
  NoDup (all_field_ids indicators).
Proof.
  destruct csvData as [[|firstRow rest]|]; intro H.
  1, 3: injection H as <-; constructor.
  destruct (find is_indicator_header (keys firstRow)) as [col|] eqn:Hf.
  2: { unfold generateStandardizedFields in H. rewrite Hf in H.
       discriminate. }
  rewrite (generateStandardizedFields_spec _ rest Hf) in H.
  injection H as <-.
  apply indicators_field_ids_distinct, surviving_positions_distinct.
Qed.

Lemma all_field_ids_map (indicators : list Indicator) :
  all_field_ids indicators = map f_id (flat_map i_fields indicators).
Proof.
  unfold all_field_ids. induction indicators as [|i l IH]; [reflexivity|].
  cbn [flat_map]. now rewrite map_app, IH.
Qed.

Lemma NoDup_map_filter (A B : Type) (g : A -> B) (p : A -> bool)
    (l : list A) :
  NoDup (map g l) -> NoDup (map g (filter p l)).
Proof.
  induction l as [|x l IH]; cbn; intro H; [constructor|].
  inversion H as [|? ? Hx Hl]; subst.
  destruct (p x); cbn; [|now apply IH].
  constructor; [|now apply IH].
  intro Hin. apply Hx. apply in_map_iff in Hin as (y & Hy & Hin).
  apply filter_In in Hin as [Hin _]. rewrite <- Hy. now apply in_map.
Qed.

Lemma fillable_ids_distinct
    (csvData : option (list Row)) (indicators : list Indicator) :
  generateStandardizedFields csvData = Return indicators ->
  NoDup (map f_id (fillable indicators)).
Proof.
  intro H. apply compiled_ids_distinct in H.
  rewrite all_field_ids_map in H. unfold fillable.
  now apply NoDup_map_filter.
Qed.

Lemma with_response_other (responses : store) (id id' : jsstring)
    (v : jsval) :
  id' <> id -> App.with_response responses id v id' = responses id'.
Proof.
  intro H. unfold App.with_response.
  destruct (Str.eqb id' id) eqn:E; [|reflexivity].
  apply Str_eqb_eq in E. contradiction.
Qed.

Lemma with_response_same (responses : store) (id : jsstring) (v : jsval) :
  App.with_response responses id v id = v.
Proof. unfold App.with_response. now rewrite Str_eqb_refl. Qed.

Lemma answered_count_elsewhere (responses : store) (id : jsstring)
    (v : jsval) (l : list Field) :
  ~ In id (map f_id l) ->
  filter (fun f => answered (App.with_response responses id v (f_id f))) l
  = filter (fun f => answered (responses (f_id f))) l.
Proof.
  intro H. apply filter_ext_in. intros f Hf.
  rewrite with_response_other; [reflexivity|].
  intro C. apply H. rewrite <- C. now apply in_map.
Qed.

Lemma answered_count_once (responses : store) (f : Field) (v : jsval)
    (l : list Field) :
  NoDup (map f_id l) -> In f l ->
  answered (responses (f_id f)) = false -> answered v = true ->
  List.length
    (filter (fun g => answered (App.with_response responses (f_id f) v
                                                  (f_id g))) l)
  = S (List.length (filter (fun g => answered (responses (f_id g))) l)).
Proof.
  intros Hnd Hin Hold Hnew.
  induction l as [|g l IH]; [destruct Hin|].
  inversion Hnd as [|? ? Hg Hl]; subst. cbn [filter].
  destruct (list_eq_dec N.eq_dec (f_id g) (f_id f)) as [E|E].
  - rewrite E, with_response_same, Hnew, Hold.
    rewrite answered_count_elsewhere by (rewrite <- E; exact Hg).
    reflexivity.
  - rewrite with_response_other by exact E.
    destruct Hin as [->|Hin]; [contradiction|].
    specialize (IH Hl Hin).
    destruct (answered (responses (f_id g))); cbn [List.length]; lia.
Qed.

(** X16: answering one unanswered field of a compiled form raises the
    completed count by exactly one and leaves the total as it is: no other
    field shares the id the answer is stored under. *)
Theorem answering_counts_once
    (csvData : option (list Row)) (indicators : list Indicator)
    (responses : store) (f : Field) (v : jsval) :
  generateStandardizedFields csvData = Return indicators ->
  In f (fillable indicators) ->
  answered (responses (f_id f)) = false ->
  answered v = true ->
  let before := calculateCompletionScore (Some indicators) responses in
  let after :=
    calculateCompletionScore (Some indicators)
      (App.with_response responses (f_id f) v) in
  total after = total before /\ completed after = S (completed before).
Proof.
  intros Hc Hin Hold Hnew before after.
  destruct (completion_counts indicators responses) as (T1 & C1 & _).
  destruct (completion_counts indicators
              (App.with_response responses (f_id f) v)) as (T2 & C2 & _).
  fold before in T1, C1. fold after in T2, C2.
  split; [congruence|]. rewrite C2, C1.
  apply answered_count_once; auto.
  now apply (fillable_ids_distinct csvData).
Qed.

Lemma answering_counts_once_witness :
  completed
    (calculateCompletionScore (Some sample_indicators)
       (App.with_response (fun _ => VUndefined)
          (f_id (hd (plain_field []) (fillable sample_indicators)))
          (VNum (Num.lit 5))))
  = S (completed
         (calculateCompletionScore (Some sample_indicators)
                                   (fun _ => VUndefined))).
Proof.
  refine (proj2 (@answering_counts_once (Some sample_rows) sample_indicators
                   (fun _ => VUndefined)
                   (hd (plain_field []) (fillable sample_indicators))
                   (VNum (Num.lit 5)) _ _ _ _)).
  - vm_compute. reflexivity.
  - vm_compute. left. reflexivity.
  - reflexivity.
  - reflexivity.
Defined.

(** X17: after the upload of a row set that compiles, the form holds the
    compiled indicators, shows the first one, is not complete and has no
    answer: completed is 0 and the percentage is 0, and the number of
    fields to fill lies between the number of indicators and three times
    that number. *)
Theorem upload_starts_unanswered
    (st : App.State) (row : Row) (rest : list Row)
    (indicators : list Indicator) :
  generateStandardizedFields (Some (row :: rest)) = Return indicators ->
  let st' := App.handleFileUpload st (Some (row :: rest)) in
  let score :=
    calculateCompletionScore (Some (App.indicators st'))
                             (App.responses st') in
  App.indicators st' = indicators /\
  App.currentIndicator st' = 0%Z /\
  App.isComplete st' = false /\
  completed score = 0%nat /\
  percentage score = Zero false /\
  (List.length indicators <= total score <= 3 * List.length indicators)%nat.
Proof.
  intros H st' score. subst st' score.
  unfold App.handleFileUpload. rewrite H.
  cbn [App.indicators App.currentIndicator App.isComplete App.responses].
  destruct (completion_counts indicators (fun _ => VUndefined))
    as (T & C & P).
  rewrite filter_none in C by reflexivity.
  repeat split; try assumption.
  - rewrite P, C. destruct (total _); reflexivity.
  - rewrite T. apply fillable_bounds. exact (compiled_fields_sized _ H).
  - rewrite T. apply fillable_bounds. exact (compiled_fields_sized _ H).
Qed.

Lemma upload_starts_unanswered_witness :
  App.indicators (App.handleFileUpload initial (Some sample_rows))
  = sample_indicators /\
  App.currentIndicator (App.handleFileUpload initial (Some sample_rows))
  = 0%Z.
Proof.
  destruct (@upload_starts_unanswered initial (hd [] sample_rows)
              (tl sample_rows) sample_indicators) as (H1 & H2 & _);
    [vm_compute; reflexivity|].
  split; [exact H1|exact H2].
Defined.

Lemma step_in_view (st : App.State) (a : action) :
  in_view st -> in_view (step st a).
Proof.
  unfold in_view. intro H. destruct a as [data|fieldId value| |].
  - cbn [step]. unfold App.handleFileUpload.
    destruct data as [[|row rows]|]; try exact H.
    destruct (generateStandardizedFields (Some (row :: rows)));
      cbn [App.currentIndicator App.indicators]; [lia|exact H].
  - exact H.
  - cbn [step]. unfold App.nextIndicator.
    destruct (Z.ltb_spec (App.currentIndicator st)
                (Z.of_nat (List.length (App.indicators st)) - 1));
      cbn [App.currentIndicator App.indicators]; lia.
  - cbn [step]. unfold App.prevIndicator.
    destruct (Z.ltb_spec 0 (App.currentIndicator st));
      cbn [App.currentIndicator App.indicators]; lia.
Qed.

(** X18: whatever the user does, in whatever order (uploads that compile
    or fail, answers, next, previous), the index of the indicator on
    display stays an index of the indicator list, or 0 when the list is
    empty. *)
Theorem navigation_in_view (actions : list action) :
  in_view (run initial actions).
Proof.
  unfold run.
  assert (H : forall st, in_view st -> in_view (fold_left step actions st)).
  { induction actions as [|a actions IH]; intros st Hst; [exact Hst|].
    cbn [fold_left]. apply IH. now apply step_in_view. }
  apply H. unfold in_view, initial. cbn. lia.
Qed.

(** X19: once the form is complete it stays complete until the next upload:
    no answer, not even one that clears a field, and no navigation takes
    the flag back. *)
Theorem complete_stays_complete (st : App.State) (actions : list action) :
  forallb (fun a => negb (is_upload a)) actions = true ->
  App.isComplete st = true ->
  App.isComplete (run st actions) = true.
Proof.
  unfold run. revert st.
  induction actions as [|a actions IH]; intros st Ha Hst; [exact Hst|].
  cbn [forallb] in Ha. apply andb_prop in Ha as [Ha1 Ha2].
  cbn [fold_left]. apply IH; [exact Ha2|].
  destruct a as [data|fieldId value| |]; [discriminate| | |].
  - cbn [step App.handleFieldChange App.isComplete]. rewrite Hst.
    now destruct (num_eqb _ _).
  - cbn [step]. unfold App.nextIndicator. now destruct (_ <? _)%Z.
  - cbn [step]. unfold App.prevIndicator. now destruct (_ <? _)%Z.
Qed.

Lemma complete_stays_complete_witness :
  App.isComplete (run answered_session cleared_actions) = true /\
  percentage
    (calculateCompletionScore
       (Some (App.indicators (run answered_session cleared_actions)))
       (App.responses (run answered_session cleared_actions)))
  = Fin (75 # 1).
Proof.
  split; [|vm_compute; reflexivity].
  apply (@complete_stays_complete answered_session cleared_actions);
    reflexivity.
Defined.

(** X20: the report gives each field its answer or null, and the answers it
    turns into null although the completion score counts them as answered
    are exactly false, the two zeros and NaN. *)
Theorem report_drops_falsy_answers (responses : store) (field : Field) :
  let v := responses (f_id field) in
  (App.reported_value responses field = v \/
   App.reported_value responses field = VNull) /\
  (answered v = true /\ App.reported_value responses field = VNull
   <-> v = VBool false \/ (exists s, v = VNum (Zero s)) \/ v = VNum NaN).
Proof.
  intro v. unfold App.reported_value. fold v.
  destruct v as [| |[]|[|s|s|q]|[|c s]|]; cbn; split;
    try tauto; try (now left); try (now right); split;
    try (intros [_ C]; discriminate);
    try (intros [C _]; discriminate);
    try (intros [C|[[s' C]|C]]; discriminate);
    try (split; reflexivity); eauto.
Qed.

(** ** Organization detection *)

Lemma block_refl (x : jsstring) : block x x.
Proof. exists [], []. cbn. now rewrite app_nil_r. Qed.

Lemma block_trans (x y z : jsstring) : block x y -> block y z -> block x z.
Proof.
  intros (a & b & ->) (c & d & ->). exists (c ++ a), (b ++ d).
  now rewrite <- !app_assoc.
Qed.

Lemma block_app_l (x y t : jsstring) : block x y -> block x (y ++ t).
Proof.
  intros (a & b & ->). exists a, (b ++ t). now rewrite <- !app_assoc.
Qed.

Lemma block_app_r (x y t : jsstring) : block x y -> block x (t ++ y).
Proof.
  intros (a & b & ->). exists (t ++ a), b. now rewrite <- !app_assoc.
Qed.

Lemma includes_lower_block (x y p : jsstring) :
  block x y ->
  Str.includes (Str.toLowerCase x) p = true ->
  Str.includes (Str.toLowerCase y) p = true.
Proof.
  intros (a & b & ->) H. rewrite !toLowerCase_app.
  now apply includes_block.
Qed.

Lemma join_block (sep x : jsstring) (l : list jsstring) :
  In x l -> block x (Str.join sep l).
Proof.
  induction l as [|y l IH]; intro H; [destruct H|].
  cbn [Str.join]. destruct H as [->|H].
  - destruct l; [apply block_refl|]. apply block_app_l, block_refl.
  - destruct l as [|z l]; [destruct H|].
    apply block_app_r, block_app_r. now apply IH.
Qed.

(** The quoted text of a header or of a cell is a block of the text of the
    row set. *)
Lemma cell_block (rows : list Row) (row : Row) (cell : jsstring) :
  In row rows -> In cell (keys row ++ map snd row) ->
  block (Json.quote_units cell) (Json.stringify rows).
Proof.
  intros Hrow Hcell.
  assert (Hq : block (Json.quote_units cell) (Json.quote cell)).
  { unfold Json.quote. apply block_app_r, block_app_l, block_refl. }
  assert (He : exists kv, In kv row /\
                          block (Json.quote_units cell)
                                (Json.quote (fst kv) ++ str ":"
                                 ++ Json.quote (snd kv))).
  { apply in_app_or in Hcell as [H|H]; unfold keys in *;
      apply in_map_iff in H as (kv & <- & Hkv); exists kv; split; auto.
    - now apply block_app_l.
    - now apply block_app_r, block_app_r. }
  destruct He as (kv & Hkv & Hb).
  eapply block_trans; [exact Hb|].
  assert (Hr : block (Json.quote (fst kv) ++ str ":" ++ Json.quote (snd kv))
                     (Json.of_row row)).
  { unfold Json.of_row. apply block_app_r, block_app_l, join_block.
    apply in_map_iff. now exists kv. }
  eapply block_trans; [exact Hr|].
  unfold Json.stringify. apply block_app_r, block_app_l, join_block.
  now apply in_map.
Qed.

Lemma letter_cases (c : N) :
  is_lower_letter (Str.lower_unit c) ->
  (65 <= c <= 90)%N \/ (97 <= c <= 122)%N \/ c = 8490%N.
Proof.
  unfold is_lower_letter, Str.lower_unit.
  destruct ((65 <=? c) && (c <=? 90))%N eqn:E.
  - apply andb_prop in E as [E1 E2]. apply N.leb_le in E1, E2. lia.
  - destruct (N.eqb_spec c 8490); lia.
Qed.

Lemma quote_units_letter (c : N) (s : jsstring) :
  is_lower_letter (Str.lower_unit c) ->
  Json.quote_units (c :: s) = c :: Json.quote_units s.
Proof.
  intro H. apply letter_cases in H.
  assert (Hh : Json.is_high_surrogate c = false).
  { unfold Json.is_high_surrogate.
    destruct (N.leb_spec 55296 c); [lia|reflexivity]. }
  assert (Hq : Json.quote_unit c = [c]).
  { unfold Json.quote_unit, Json.is_high_surrogate, Json.is_low_surrogate.
    repeat match goal with
           | |- context [(c =? ?k)%N] => destruct (N.eqb_spec c k); [lia|]
           end.
    destruct (N.ltb_spec c 32); [lia|].
    destruct (N.leb_spec 55296 c); [lia|].
    destruct (N.leb_spec 56320 c); [lia|]. reflexivity. }
  cbn [Json.quote_units]. destruct s as [|d s]; [exact Hq|].
  rewrite Hh, Hq. reflexivity.
Qed.

Lemma startsWith_quote (p s : jsstring) :
  Forall is_lower_letter p ->
  Str.startsWith (Str.toLowerCase s) p = true ->
  Str.startsWith (Str.toLowerCase (Json.quote_units s)) p = true.
Proof.
  intro Hp. revert s. induction Hp as [|x p Hx Hp IH]; intros s H.
  - apply startsWith_nil.
  - destruct s as [|c s]; [discriminate|].
    cbn [Str.toLowerCase map Str.startsWith] in H.
    apply andb_prop in H as [H1 H2]. apply N.eqb_eq in H1.
    rewrite quote_units_letter by (rewrite <- H1; exact Hx).
    cbn [Str.toLowerCase map Str.startsWith].
    rewrite <- H1, N.eqb_refl. cbn [andb]. now apply IH.
Qed.

Lemma includes_cons (c : N) (s p : jsstring) :
  Str.includes s p = true -> Str.includes (c :: s) p = true.
Proof. intro H. cbn [Str.includes]. rewrite H. apply orb_true_r. Qed.

Lemma low_surrogate_not_letter (d : N) :
  Json.is_low_surrogate d = true -> ~ is_lower_letter (Str.lower_unit d).
Proof.
  unfold Json.is_low_surrogate. intros H C. apply letter_cases in C.
  apply andb_prop in H as [H _]. apply N.leb_le in H. lia.
Qed.

(** Quoting keeps every run of letters, so a pattern of letters found in
    a text is found in its quoted form, in any letter case. *)
Lemma includes_quote (p : jsstring) :
  Forall is_lower_letter p -> p <> [] ->
  forall s, Str.includes (Str.toLowerCase s) p = true ->
            Str.includes (Str.toLowerCase (Json.quote_units s)) p = true.
Proof.
  intros Hp Hne.
  assert (H : forall n s, (List.length s <= n)%nat ->
                          Str.includes (Str.toLowerCase s) p = true ->
                          Str.includes (Str.toLowerCase (Json.quote_units s)) p
                          = true).
  { induction n as [|n IH]; intros s Hn Hs.
    - destruct s; [|cbn in Hn; lia]. cbn in Hs.
      rewrite orb_false_r in Hs. destruct p; [contradiction|discriminate].
    - destruct s as [|c s].
      + cbn in Hs. rewrite orb_false_r in Hs.
        destruct p; [contradiction|discriminate].
      + cbn [List.length] in Hn.
        cbn [Str.toLowerCase map Str.includes] in Hs.
        apply orb_prop in Hs as [Hs|Hs].
        * assert (S := startsWith_quote (c :: s) Hp Hs).
          destruct (Str.toLowerCase (Json.quote_units (c :: s))) eqn:E;
            cbn [Str.includes]; now rewrite S.
        * cbn [Json.quote_units]. destruct s as [|d s].
          { cbn in Hs. rewrite orb_false_r in Hs.
            destruct p; [contradiction|discriminate]. }
          destruct (Json.is_high_surrogate c && Json.is_low_surrogate d)
            eqn:Pair.
          -- apply andb_prop in Pair as [_ Low].
             cbn [Str.toLowerCase map]. apply includes_cons, includes_cons.
             apply IH; [cbn [List.length] in Hn; lia|].
             cbn [Str.toLowerCase map Str.includes] in Hs.
             apply orb_prop in Hs as [Hs|Hs]; [|exact Hs].
             exfalso. inversion Hp as [|x p' Hx Hp']; subst;
               [contradiction|].
             cbn [Str.startsWith] in Hs.
             apply andb_prop in Hs as [Hs _]. apply N.eqb_eq in Hs.
             apply (low_surrogate_not_letter d Low). now rewrite <- Hs.
          -- rewrite toLowerCase_app. apply includes_app_r.
             apply IH; [lia|exact Hs]. }
  intros s Hs. now apply (H (List.length s) s).
Qed.

Lemma find_at_or_before (A : Type) (f : A -> bool) (l : list A) (k : nat)
    (x : A) :
  nth_error l k = Some x -> f x = true ->
  exists j y, (j <= k)%nat /\ nth_error l j = Some y /\ find f l = Some y.
Proof.
  revert k. induction l as [|a l IH]; intros k Hk Hx.
  - destruct k; discriminate.
  - cbn [find]. destruct (f a) eqn:E.
    + exists 0%nat, a. repeat split. lia.
    + destruct k as [|k]; [cbn in Hk; congruence|].
      destruct (IH k Hk Hx) as (j & y & Hj & Hy & Hf).
      exists (S j), y. repeat split; [lia|exact Hy|exact Hf].
Qed.

Lemma catalog_codes_are_letters (k : nat) (code : jsstring)
    (org : Organization) :
  nth_error organizations k = Some (code, org) ->
  Forall is_lower_letter (Str.toLowerCase code) /\
  Str.toLowerCase code <> [].
Proof.
  intro H. apply nth_error_In in H.
  repeat (destruct H as [H|H];
          [injection H as <- _; split;
             [repeat constructor; unfold is_lower_letter; cbn; lia
             |discriminate]|]).
  destruct H.
Qed.

(** X21: when a header or a cell of some row contains, in any letter case,
    the code of a known organization, an organization is detected, and it
    is that one or one listed before it. *)
Theorem detectOrganization_finds_code
    (rows : list Row) (row : Row) (cell : jsstring)
    (k : nat) (code : jsstring) (org : Organization) :
  In row rows ->
  In cell (keys row ++ map snd row) ->
  nth_error organizations k = Some (code, org) ->
  Str.includes (Str.toLowerCase cell) (Str.toLowerCase code) = true ->
  exists j code' org',
    (j <= k)%nat /\
    nth_error organizations j = Some (code', org') /\
    detectOrganization (Some rows) = Some org'.
Proof.
  intros Hrow Hcell Hk Hinc.
  destruct (catalog_codes_are_letters _ Hk) as [Hl Hne].
  assert (Hall : Str.includes (Str.toLowerCase (Json.stringify rows))
                              (Str.toLowerCase code) = true).
  { eapply includes_lower_block;
      [exact (@cell_block rows row cell Hrow Hcell)|].
    now apply includes_quote. }
  destruct (@find_at_or_before _
              (fun entry =>
                 Str.includes (Str.toLowerCase (Json.stringify rows))
                              (Str.toLowerCase (fst entry)))
              organizations k (code, org) Hk Hall)
    as (j & [code' org'] & Hj & Hy & Hf).
  exists j, code', org'. split; [exact Hj|]. split; [exact Hy|].
  unfold detectOrganization. destruct rows as [|r rs]; [destruct Hrow|].
  now rewrite Hf.
Qed.

Lemma detectOrganization_finds_code_witness :
  exists j code' org',
    (j <= 4)%nat /\
    nth_error organizations j = Some (code', org') /\
    detectOrganization (Some coded_rows) = Some org'.
Proof.
  apply (@detectOrganization_finds_code coded_rows (hd [] coded_rows)
           (str "Reported by the Ywca office") 4 (str "YWCA")
           (mkOrganization (str "YWCA Victoria") (str "YWCA"))).
  - vm_compute. left. reflexivity.
  - vm_compute. right. right. right. left. reflexivity.
  - reflexivity.
  - vm_compute. reflexivity.
Defined.

(** ** The data quality scores *)

Lemma quality_fold (entries : list (jsstring * Response)) (t c s : nat) :
  fold_left quality_step entries (t, c, s)
  = (t + List.length entries,
     c + List.length (filter is_answered entries),
     s + List.length (filter is_standardized entries))%nat.
Proof.
  revert t c s. induction entries as [|e entries IH]; intros t c s.
  - cbn. now rewrite !Nat.add_0_r.
  - cbn [fold_left filter List.length]. unfold quality_step at 2.
    unfold is_answered, is_standardized.
    destruct (answered (value (snd e)));
      [destruct (is_structured (rtype (snd e)))|];
      rewrite IH; cbn [andb List.length]; rewrite ?Nat.add_succ_r;
      reflexivity.
Qed.

Lemma calculateDataQuality_counts (entries : list (jsstring * Response)) :
  calculateDataQuality entries
  = quality_of (List.length entries)
               (List.length (filter is_answered entries))
               (List.length (filter is_standardized entries)).
Proof.
  unfold calculateDataQuality. rewrite quality_fold. reflexivity.
Qed.

Lemma Permutation_filter_length (A : Type) (p : A -> bool) (l l' : list A) :
  Permutation l l' -> List.length (filter p l) = List.length (filter p l').
Proof.
  induction 1 as [|x l l' _ IH|x y l|l l' l'' _ IH1 _ IH2]; cbn.
  - reflexivity.
  - destruct (p x); cbn; congruence.
  - destruct (p x), (p y); reflexivity.
  - congruence.
Qed.

(** X22: the data quality scores depend only on how many responses there
    are, how many of them are answered and how many of the answered ones
    have a structured type: listing the responses in another order gives
    the same three scores. *)
Theorem calculateDataQuality_any_order
    (entries entries' : list (jsstring * Response)) :
  Permutation entries entries' ->
  calculateDataQuality entries' = calculateDataQuality entries.
Proof.
  intro H. rewrite !calculateDataQuality_counts.
  rewrite (Permutation_length H).
  now rewrite !(Permutation_filter_length _ H).
Qed.

Lemma calculateDataQuality_any_order_witness :
  calculateDataQuality swapped_entries = calculateDataQuality sample_entries.
Proof.
  apply (@calculateDataQuality_any_order sample_entries swapped_entries).
  apply perm_swap.
Defined.

Section QualityFacts.
Local Open Scope Q_scope.

(** The weighted score of [t] answered responses of which all, or none, are
    structured. *)
Lemma overall_all (t : nat) :
  (0 < t)%nat -> (Z.of_nat t < 2 ^ 53)%Z ->
  Num.round
    (Num.mul
       (Num.div
          (Num.add (Num.mul (Num.of_count t) (Num.number_value false (6 # 10)))
                   (Num.mul (Num.of_count t) (Num.number_value false (4 # 10))))
          (Num.of_count t))
       Calculations.hundred)
  = Fin (100 # 1).
Proof.
  intros Ht Hb. rewrite literal_06, literal_04.
  destruct t as [|t]; [lia|]. cbn [Num.of_count].
  assert (Pt := inject_nat_pos t).
  assert (Bt : inject_Z (Z.of_nat (S t)) <= 9007199254740992).
  { change 9007199254740992 with (inject_Z (2 ^ 53)).
    rewrite <- Zle_Qle. lia. }
  assert (C1 : 1 <= inject_Z (Z.of_nat (S t))).
  { change 1 with (inject_Z 1). rewrite <- Zle_Qle. lia. }
  change (Z.of_nat (S t) # 1) with (inject_Z (Z.of_nat (S t))).
  set (qt := inject_Z (Z.of_nat (S t))) in *.
  assert (Ea : a06 + a04 == 1) by reflexivity.
  unfold a06, a04 in *. cbn [Num.mul].
  destruct (@number_value_approx
              (qt * (5404319552844595 # 9007199254740992)))
    as (qA & -> & A1 & A2); [lra|lra|].
  destruct (@number_value_approx
              (qt * (3602879701896397 # 9007199254740992)))
    as (qB & -> & B1 & B2); [lra|lra|].
  cbn [Num.add].
  destruct (@number_value_approx (qA + qB)) as (qS & -> & S1 & S2);
    [lra|lra|].
  cbn [Num.div].
  assert (D1 : 998001 # 1000000 <= qS / qt).
  { apply Qle_shift_div_l; [exact Pt|]. lra. }
  assert (D2 : qS / qt <= 1002001 # 1000000).
  { apply Qle_shift_div_r; [exact Pt|]. lra. }
  set (r := qS / qt) in *.
  destruct (@number_value_approx r) as (qD & -> & E1 & E2); [lra|lra|].
  change Calculations.hundred with (Fin (100 # 1)). cbn [Num.mul].
  destruct (@number_value_approx (qD * (100 # 1))) as (qP & -> & P1 & P2);
    [lra|lra|].
  rewrite (@round_between qP 100); [|change (inject_Z 100) with 100; lra..].
  reflexivity.
Qed.

Lemma overall_none (t : nat) :
  (0 < t)%nat -> (Z.of_nat t < 2 ^ 53)%Z ->
  Num.round
    (Num.mul
       (Num.div
          (Num.add (Num.mul (Num.of_count t) (Num.number_value false (6 # 10)))
                   (Num.mul (Num.of_count 0) (Num.number_value false (4 # 10))))
          (Num.of_count t))
       Calculations.hundred)
  = Fin (60 # 1).
Proof.
  intros Ht Hb. rewrite literal_06, literal_04.
  destruct t as [|t]; [lia|]. cbn [Num.of_count].
  assert (Pt := inject_nat_pos t).
  assert (Bt : inject_Z (Z.of_nat (S t)) <= 9007199254740992).
  { change 9007199254740992 with (inject_Z (2 ^ 53)).
    rewrite <- Zle_Qle. lia. }
  assert (C1 : 1 <= inject_Z (Z.of_nat (S t))).
  { change 1 with (inject_Z 1). rewrite <- Zle_Qle. lia. }
  change (Z.of_nat (S t) # 1) with (inject_Z (Z.of_nat (S t))).
  set (qt := inject_Z (Z.of_nat (S t))) in *.
  unfold a06, a04 in *. cbn [Num.mul].
  destruct (@number_value_approx
              (qt * (5404319552844595 # 9007199254740992)))
    as (qA & -> & A1 & A2); [lra|lra|].
  cbn [Num.mul Num.sign xorb Num.add Num.div].
  assert (D1 : 599 # 1000 <= qA / qt).
  { apply Qle_shift_div_l; [exact Pt|]. lra. }
  assert (D2 : qA / qt <= 601 # 1000).
  { apply Qle_shift_div_r; [exact Pt|]. lra. }
  set (r := qA / qt) in *.
  destruct (@number_value_approx r) as (qD & -> & E1 & E2); [lra|lra|].
  change Calculations.hundred with (Fin (100 # 1)). cbn [Num.mul].
  destruct (@number_value_approx (qD * (100 # 1))) as (qP & -> & P1 & P2);
    [lra|lra|].
  rewrite (@round_between qP 60); [|change (inject_Z 60) with 60; lra..].
  reflexivity.
Qed.

End QualityFacts.

(** X23: the two ends of the data quality scale, for a response set that
    is not empty and of which every response is answered.  When every
    response has a structured type, completeness, standardization and
    overall score are all exactly 100; when none has, completeness is 100,
    standardization is 0 and the overall score is exactly 60, the weight of
    completeness. *)
Theorem dataQuality_extremes (entries : list (jsstring * Response)) :
  entries <> [] ->
  (Z.of_nat (List.length entries) < 2 ^ 53)%Z ->
  Forall (fun e => answered (value (snd e)) = true) entries ->
  (Forall (fun e => is_structured (rtype (snd e)) = true) entries ->
   calculateDataQuality entries
   = {| completeness := Fin (100 # 1);
        standardization := Fin (100 # 1);
        overallScore := Fin (100 # 1) |}) /\
  (Forall (fun e => is_structured (rtype (snd e)) = false) entries ->
   calculateDataQuality entries
   = {| completeness := Fin (100 # 1);
        standardization := Zero false;
        overallScore := Fin (60 # 1) |}).
Proof.
  intros Hne Hb Ha.
  assert (Ht : (0 < List.length entries)%nat).
  { destruct entries; [contradiction|cbn; lia]. }
  assert (Ec : filter is_answered entries = entries).
  { apply filter_all. now apply Forall_forall. }
  rewrite calculateDataQuality_counts, Ec.
  split; intro Hs.
  - assert (Es : filter is_standardized entries = entries).
    { apply filter_all. intros e He. unfold is_standardized.
      rewrite Forall_forall in Ha, Hs. now rewrite (Ha e He), (Hs e He). }
    rewrite Es. unfold quality_of.
    destruct (Nat.ltb_spec 0 (List.length entries)); [|lia].
    rewrite percent_all by exact Ht. now rewrite overall_all.
  - assert (Es : filter is_standardized entries = []).
    { apply filter_none. intros e He. unfold is_standardized.
      rewrite Forall_forall in Ha, Hs. now rewrite (Ha e He), (Hs e He). }
    rewrite Es. unfold quality_of. cbn [List.length].
    destruct (Nat.ltb_spec 0 (List.length entries)); [|lia].
    rewrite percent_all by exact Ht. rewrite overall_none by assumption.
    f_equal. unfold percent.
    destruct (List.length entries); [lia|reflexivity].
Qed.

Lemma dataQuality_extremes_witness :
  calculateDataQuality free_text_entries
  = {| completeness := Fin (100 # 1);
       standardization := Zero false;
       overallScore := Fin (60 # 1) |}.
Proof.
  refine (proj2 (@dataQuality_extremes free_text_entries _ _ _) _).
  - discriminate.
  - reflexivity.
  - repeat constructor.
  - repeat constructor.
Defined.

(** ** The columns the compiler reads, and a rejected upload *)

Lemma compiled_same_cells (col : jsstring) (methodCol notesCol : option jsstring)
    (rows rows' : list Row) :
  Forall2 (same_cells col methodCol notesCol) rows rows' ->
  forall index,
    map (indicator_of col methodCol notesCol)
        (filter (fun ir => nonblank (lookup col (snd ir)))
                (combine (seq index (List.length rows')) rows'))
    = map (indicator_of col methodCol notesCol)
          (filter (fun ir => nonblank (lookup col (snd ir)))
                  (combine (seq index (List.length rows)) rows)).
Proof.
  induction 1 as [|row row' rows rows' (H1 & H2 & H3) _ IH]; intro index;
    [reflexivity|].
  cbn [List.length seq combine filter snd]. rewrite <- H1.
  destruct (nonblank (lookup col row)); [|apply IH].
  cbn [map]. rewrite IH. f_equal.
  unfold indicator_of. cbn [fst snd]. now rewrite H1, H2, H3.
Qed.

(** X24: the compiler reads nothing but the cells of the three columns it
    resolved from the first row's headers: two row sets that resolve the
    same indicator, method and notes columns and hold the same cells there,
    row by row, compile to the same indicators, whatever other columns
    they have. *)
Theorem generateStandardizedFields_reads_three_columns
    (firstRow firstRow' : Row) (rest rest' : list Row) (col : jsstring) :
  find is_indicator_header (keys firstRow) = Some col ->
  find is_indicator_header (keys firstRow') = Some col ->
  find is_method_header (keys firstRow')
  = find is_method_header (keys firstRow) ->
  find is_notes_header (keys firstRow')
  = find is_notes_header (keys firstRow) ->
  Forall2 (same_cells col (find is_method_header (keys firstRow))
                      (find is_notes_header (keys firstRow)))
          (firstRow :: rest) (firstRow' :: rest') ->
  generateStandardizedFields (Some (firstRow' :: rest'))
  = generateStandardizedFields (Some (firstRow :: rest)).
Proof.
  intros Hi Hi' Hm Hn H.
  rewrite (generateStandardizedFields_spec _ rest Hi).
  rewrite (generateStandardizedFields_spec _ rest' Hi').
  rewrite Hm, Hn. f_equal. unfold surviving.
  now apply compiled_same_cells.
Qed.

Lemma generateStandardizedFields_reads_three_columns_witness :
  generateStandardizedFields (Some region_rows)
  = generateStandardizedFields (Some sample_rows).
Proof.
  apply (@generateStandardizedFields_reads_three_columns
           (hd [] sample_rows) (hd [] region_rows)
           (tl sample_rows) (tl region_rows) (str "Indicator"));
    try (vm_compute; reflexivity).
  repeat constructor.
Defined.

Lemma find_none (A : Type) (f : A -> bool) (l : list A) :
  existsb f l = false -> find f l = None.
Proof.
  induction l as [|x l IH]; cbn; [reflexivity|].
  destruct (f x); [discriminate|exact IH].
Qed.

(** X25: the upload of a row set whose first row has no indicator header
    leaves the indicators, the index on display, the answers and the
    completion flag of the form as they were, but has already replaced the
    organization by the one detected in the rejected rows, which is never
    null. *)
Theorem failed_upload_keeps_form
    (st : App.State) (row : Row) (rest : list Row) :
  existsb is_indicator_header (keys row) = false ->
  App.indicators (App.handleFileUpload st (Some (row :: rest)))
  = App.indicators st /\
  App.currentIndicator (App.handleFileUpload st (Some (row :: rest)))
  = App.currentIndicator st /\
  App.responses (App.handleFileUpload st (Some (row :: rest)))
  = App.responses st /\
  App.isComplete (App.handleFileUpload st (Some (row :: rest)))
  = App.isComplete st /\
  App.organization (App.handleFileUpload st (Some (row :: rest)))
  = detectOrganization (Some (row :: rest)) /\
  detectOrganization (Some (row :: rest)) <> None.
Proof.
  intro H. apply find_none in H.
  unfold App.handleFileUpload, generateStandardizedFields. rewrite H.
  cbn [App.indicators App.currentIndicator App.responses App.isComplete
       App.organization].
  repeat split. unfold detectOrganization.
  destruct (find _ organizations) as [[code org]|]; [discriminate|].
  destruct (organization_of_headers (keys row)); discriminate.
Qed.

Lemma failed_upload_keeps_form_witness :
  App.indicators (App.handleFileUpload answered_session (Some question_rows))
  = sample_indicators /\
  App.organization (App.handleFileUpload answered_session
                                         (Some question_rows))
  = Some (mkOrganization (str "Organization") (str "ORG")).
Proof.
  destruct (@failed_upload_keeps_form answered_session (hd [] question_rows)
              (tl question_rows)) as (H1 & _ & _ & _ & H2 & _);
    [reflexivity|].
  split; [exact H1|].
  etransitivity; [exact H2|vm_compute; reflexivity].
Defined.

(** ** The formulas of the calculated groups *)

Section ExactFacts.
Local Open Scope Q_scope.

Lemma rne_int (z : Q) (N : Z) : z == inject_Z N -> Num.rne z = N.
Proof.
  intro H. unfold Num.rne.
  assert (F : Qfloor z = N) by (rewrite H; apply Qfloor_Z).
  rewrite F.
  destruct (Qcompare_spec (z - inject_Z N) (1 # 2)) as [E|E|E];
    [lra|reflexivity|lra].
Qed.

(** A positive real that is a binary64 value is its own Number value. *)
Lemma number_value_exact (x : Q) (n e' : Z) :
  (0 < n < 2 ^ 53)%Z -> (-1074 <= e')%Z ->
  x == inject_Z n * Num.pow2 e' -> x < Num.pow2 1024 ->
  Num.number_value false x = Fin (Qred x).
Proof.
  intros Hn He Hx Hov.
  assert (Pe := pow2_pos e').
  assert (Pn : 0 < inject_Z n).
  { change 0 with (inject_Z 0). rewrite <- Zlt_Qlt. lia. }
  assert (Px : 0 < x) by (rewrite Hx; nra).
  rewrite (number_value_pos Px). cbv zeta.
  destruct (Qlog2_spec Px) as [L1 _].
  set (L := Num.Qlog2 x) in *.
  assert (HL : (L < 53 + e')%Z).
  { apply pow2_lt_inv. rewrite pow2_add.
    assert (B : inject_Z n < Num.pow2 53).
    { rewrite pow2_Z by lia. rewrite <- Zlt_Qlt. lia. }
    rewrite Hx in L1. nra. }
  set (e := Z.max (L - 52) (-1074)).
  assert (Hee : (e <= e')%Z) by lia.
  assert (Pee := pow2_pos e).
  assert (Hs : Num.pow2 e' == Num.pow2 (e' - e) * Num.pow2 e).
  { rewrite <- pow2_add. now replace (e' - e + e)%Z with e' by lia. }
  assert (Hz : x / Num.pow2 e == inject_Z (n * 2 ^ (e' - e))).
  { rewrite inject_Z_mult, <- pow2_Z by lia. rewrite Hx, Hs. field. lra. }
  rewrite (rne_int Hz).
  assert (HN : (0 < n * 2 ^ (e' - e))%Z).
  { apply Z.mul_pos_pos; [lia|]. apply Z.pow_pos_nonneg; lia. }
  set (N := (n * 2 ^ (e' - e))%Z) in *.
  destruct (Z.eqb_spec N 0); [lia|].
  assert (Hr : inject_Z N * Num.pow2 e == x).
  { rewrite <- Hz. field. lra. }
  assert (O : Qle_bool (Num.pow2 1024) (inject_Z N * Num.pow2 e) = false).
  { apply Qle_bool_false'. now rewrite Hr. }
  rewrite O. f_equal. now apply Qred_complete.
Qed.

Lemma Qred_whole (z : Z) : Qred (z # 1) = z # 1.
Proof.
  unfold Qred.
  generalize (Z.ggcd_gcd z 1) (Z.ggcd_correct_divisors z 1).
  destruct (Z.ggcd z 1) as (g, (aa, bb)). cbn [fst snd].
  intros Hg [H1 H2]. rewrite Z.gcd_1_r in Hg. subst g.
  assert (aa = z) as -> by lia. assert (bb = 1%Z) as -> by lia.
  reflexivity.
Qed.

Lemma pow2_1024_big (z : Z) : (z < 2 ^ 53)%Z -> inject_Z z < Num.pow2 1024.
Proof.
  intro H. rewrite pow2_Z by lia. rewrite <- Zlt_Qlt.
  eapply Z.lt_trans; [exact H|]. reflexivity.
Qed.

(** The sum of two whole numbers from zero up is exact below [2^53]. *)
Lemma add_whole (a b : Z) :
  (0 <= a)%Z -> (0 <= b)%Z -> (a + b < 2 ^ 53)%Z ->
  Num.add (Num.lit a) (Num.lit b) = Num.lit (a + b).
Proof.
  intros Ha Hb Hs. unfold Num.lit.
  destruct (Z.eqb_spec a 0) as [->|Na]; destruct (Z.eqb_spec b 0) as [->|Nb].
  - reflexivity.
  - cbn [Num.add Z.add]. destruct (Z.eqb_spec b 0); [lia|reflexivity].
  - cbn [Num.add]. rewrite Z.add_0_r.
    destruct (Z.eqb_spec a 0); [lia|reflexivity].
  - destruct (Z.eqb_spec (a + b) 0); [lia|]. cbn [Num.add].
    assert (E : (a # 1) + (b # 1) == inject_Z (a + b) * Num.pow2 0).
    { rewrite inject_Z_plus. change (Num.pow2 0) with 1.
      change (a # 1) with (inject_Z a). change (b # 1) with (inject_Z b).
      ring. }
    rewrite (@number_value_exact _ (a + b) 0); [|lia|lia|exact E|].
    + f_equal. rewrite <- (Qred_whole (a + b)). apply Qred_complete.
      rewrite E. change (Num.pow2 0) with 1.
      change ((a + b) # 1) with (inject_Z (a + b)). ring.
    + rewrite E. change (Num.pow2 0) with 1. rewrite Qmult_1_r.
      now apply pow2_1024_big.
Qed.

(** Half of a positive whole number below [2^53], rounded by
    [Math.round]. *)
Lemma round_half (s : Z) :
  (0 < s < 2 ^ 53)%Z ->
  Num.round (Num.div (Fin (s # 1)) (Fin (2 # 1))) = Fin (((s + 1) / 2) # 1).
Proof.
  intro Hs. cbn [Num.div].
  assert (E : (s # 1) / (2 # 1) == inject_Z s * Num.pow2 (-1)).
  { change (Num.pow2 (-1)) with (/ (2 # 1)). change (s # 1) with (inject_Z s).
    reflexivity. }
  assert (Ps : 0 < inject_Z s).
  { change 0 with (inject_Z 0). rewrite <- Zlt_Qlt. lia. }
  assert (V : (s # 1) / (2 # 1) == inject_Z s * (1 # 2)).
  { change (s # 1) with (inject_Z s). field. }
  rewrite (@number_value_exact _ s (-1)); [|lia|lia|exact E|].
  2: { assert (B := pow2_1024_big (proj2 Hs)). rewrite V. lra. }
  set (k := ((s + 1) / 2)%Z).
  assert (K : (2 * k <= s + 1 < 2 * k + 2)%Z).
  { unfold k. pose proof (Z.div_mod (s + 1) 2).
    pose proof (Z.mod_pos_bound (s + 1) 2). lia. }
  assert (K1 : inject_Z (2 * k) <= inject_Z (s + 1))
    by (rewrite <- Zle_Qle; lia).
  assert (K2 : inject_Z (s + 1) < inject_Z (2 * k + 2))
    by (rewrite <- Zlt_Qlt; lia).
  rewrite inject_Z_plus, inject_Z_mult in K1.
  rewrite !inject_Z_plus, inject_Z_mult in K2.
  change (inject_Z 1) with 1 in *. change (inject_Z 2) with 2 in *.
  rewrite (@round_between _ k).
  - unfold whole. destruct (Z.eqb_spec k 0); [lia|reflexivity].
  - rewrite Qred_correct, V. lra.
  - rewrite Qred_correct, V. lra.
Qed.

End ExactFacts.

(** X26: on whole staff counts from zero up whose sum is below 2^53, the
    average staff formula of the turnover group gives the mean of the two
    counts, a half rounded up: (start + end + 1) div 2, with no rounding
    error. *)
Theorem averageStaff_is_mean_rounded_up
    (data : jsstring -> numeric) (a b : Z) :
  data (str "staffAtStart") = int a ->
  data (str "staffAtEnd") = int b ->
  (0 <= a)%Z -> (0 <= b)%Z -> (a + b < 2 ^ 53)%Z ->
  apply_formula averageStaff_formula data = Num.lit ((a + b + 1) / 2).
Proof.
  intros Da Db Ha Hb Hs. cbn [apply_formula]. rewrite Da, Db.
  unfold int. cbn [to_number]. rewrite add_whole by assumption.
  destruct (Z.eq_dec (a + b) 0) as [E|E].
  - rewrite E. reflexivity.
  - unfold Num.lit at 1 2. destruct (Z.eqb_spec (a + b) 0); [lia|].
    cbn [Z.eqb]. rewrite round_half by lia. unfold Num.lit.
    assert (K : (0 < (a + b + 1) / 2)%Z).
    { pose proof (Z.div_mod (a + b + 1) 2).
      pose proof (Z.mod_pos_bound (a + b + 1) 2). lia. }
    destruct (Z.eqb_spec ((a + b + 1) / 2) 0); [lia|reflexivity].
Qed.

Lemma averageStaff_is_mean_rounded_up_witness :
  apply_formula averageStaff_formula
    (fun key => if Str.eqb key (str "staffAtStart") then int 12 else int 9)
  = Num.lit 11.
Proof.
  apply (@averageStaff_is_mean_rounded_up
           (fun key => if Str.eqb key (str "staffAtStart") then int 12
                       else int 9) 12 9); try reflexivity; lia.
Defined.

(** X27: on whole amounts, a positive core funding and a project funding
    from zero up whose sum is below 2^53, the total funding formula of the
    funding group gives their exact sum, and with that total among the
    values the core percentage formula gives a whole number between 0 and
    100. *)
Theorem funding_group_percentage
    (data : jsstring -> numeric) (core project : Z) :
  data (str "coreFunding") = int core ->
  data (str "projectFunding") = int project ->
  (0 < core)%Z -> (0 <= project)%Z -> (core + project < 2 ^ 53)%Z ->
  apply_formula totalFunding_formula data = Num.lit (core + project) /\
  (data (str "totalFunding") = NNum (Num.lit (core + project)) ->
   within_0_100 (apply_formula corePercentage_formula data)).
Proof.
  intros Dc Dp Hc Hp Hs. cbn [apply_formula]. rewrite Dc, Dp.
  unfold int. cbn [to_number].
  split; [apply add_whole; lia|].
  intros ->. unfold Num.lit.
  destruct (Z.eqb_spec core 0); [lia|].
  destruct (Z.eqb_spec (core + project) 0); [lia|].
  apply ratio_within.
  - change 0%Q with (inject_Z 0). change (core # 1) with (inject_Z core).
    rewrite <- Zlt_Qlt. lia.
  - change (core # 1) with (inject_Z core).
    change ((core + project) # 1) with (inject_Z (core + project)).
    rewrite <- Zle_Qle. lia.
Qed.

Lemma funding_group_percentage_witness :
  apply_formula totalFunding_formula
    (fun key => if Str.eqb key (str "coreFunding") then int 70000
                else if Str.eqb key (str "projectFunding") then int 30000
                else int 100000)
  = Num.lit 100000.
Proof.
  refine (proj1 (@funding_group_percentage
                   (fun key => if Str.eqb key (str "coreFunding")
                               then int 70000
                               else if Str.eqb key (str "projectFunding")
                               then int 30000
                               else int 100000)
                   70000 30000 _ _ _ _ _)); try reflexivity; lia.
Defined.
